(** * Collaborative drawing canvas: the server-side room engine

    A shallow embedding of [server/drawing-state.js], [server/rooms.js] and
    the [join] handler of the WebSocket server, together with the properties
    of the room state engine (commit history, undo/redo, sessions), of the
    access check and of the colour assignment.  The second half adds the
    other branches of the message handler, the close handler, the rooms read
    back at startup, the message listener of the client and the path
    optimization of the canvas. *)

From Stdlib Require Import ZArith Ascii Floats.
From stdpp Require Import base decidable option list strings pretty sorting.

Local Open Scope string_scope.
Local Open Scope list_scope.

(** ** JavaScript values used by the engine *)

(** A property that holds a string or is [undefined]/[null] (absent).  Element
    ids, statuses and kind tags, message fields and [Map] keys are all of this
    shape. *)
Abbreviation JsStr := (option string).

(** JavaScript truthiness of such a value: [undefined], [null] and the empty
    string are falsy, every other string is truthy. *)
Definition truthy (v : JsStr) : bool :=
  match v with
  | Some (String _ _) => true
  | _ => false
  end.

(** [a || b] on strings. *)
Definition orElse (v : JsStr) (d : string) : string :=
  match v with
  | Some (String a s) => String a s
  | _ => d
  end.

(** ** Arrays *)

Section Arrays.
Context {A : Type}.

(** [arr.pop()]: the removed last item ([None] on an empty array) and the
    array that is left. *)
Definition pop (arr : list A) : option A * list A :=
  (last arr, removelast arr).

(** [arr.push(x)]. *)
Definition push (x : A) (arr : list A) : list A := arr ++ [x].
End Arrays.

(** [arr.includes(x)] on an array of ids. *)
Definition includes (x : JsStr) (arr : list JsStr) : bool :=
  bool_decide (x ∈ arr).

(** ** [Map]: an insertion-ordered map

    A JavaScript [Map] iterates in insertion order; [set] on a key that is
    present replaces the value where it stands, [set] on a new key appends, and
    [delete] removes the entry. *)
Module JsMap.
Definition t (V : Type) : Type := list (JsStr * V).

Section Ops.
Context {V : Type}.

Definition empty : t V := [].

Fixpoint get (k : JsStr) (m : t V) : option V :=
  match m with
  | [] => None
  | (k', v) :: m' => if decide (k' = k) then Some v else get k m'
  end.

Definition has (k : JsStr) (m : t V) : bool :=
  match get k m with Some _ => true | None => false end.

Fixpoint set (k : JsStr) (v : V) (m : t V) : t V :=
  match m with
  | [] => [(k, v)]
  | (k', v') :: m' =>
      if decide (k' = k) then (k, v) :: m' else (k', v') :: set k v m'
  end.

Fixpoint delete (k : JsStr) (m : t V) : t V :=
  match m with
  | [] => []
  | (k', v') :: m' =>
      if decide (k' = k) then delete k m' else (k', v') :: delete k m'
  end.

Definition keys (m : t V) : list JsStr := m.*1.
Definition values (m : t V) : list V := m.*2.
Definition entries (m : t V) : list (JsStr * V) := m.
Definition size (m : t V) : nat := length m.

(** Two maps with the same content, whatever their iteration order. *)
Definition same (m1 m2 : t V) : Prop := forall k, get k m1 = get k m2.
End Ops.

Arguments empty {V}.
End JsMap.

(** ** The data model *)

(** A property that the code only compares with [undefined]: missing, or set
    to a value, which may be [null]; of the value the model keeps the string
    when it is one. *)
Inductive JsProp : Type :=
  | Undefined
  | Defined (value : JsStr).

(** A drawing element as the server sees it: the five properties its code
    reads and the rest of the object (points, colours, sizes, author ...),
    which is copied by every spread and never inspected: each remaining
    property with its JSON text.  [id], [type] and [status] are tested for
    truth and compared with strings; [content] and [dataUrl] are only tested
    with [!== undefined], which [null] passes. *)
Module Element.
Record t : Type := mk {
  id : JsStr;
  type : JsStr;
  status : JsStr;
  content : JsProp;
  dataUrl : JsProp;
  rest : list (string * string)
}.

(** [{...e, status: s}] *)
Definition withStatus (s : JsStr) (e : t) : t :=
  mk (id e) (type e) s (content e) (dataUrl e) (rest e).

(** [{...e, type: k, status: s}] *)
Definition withTypeStatus (k s : JsStr) (e : t) : t :=
  mk (id e) k s (content e) (dataUrl e) (rest e).
End Element.

Module Session.
Record t : Type := mk {
  name : JsStr;
  elements : list Element.t;
  createdAt : Z
}.
End Session.

(** An entry of [buildSessionList]. *)
Module SessionMeta.
Record t : Type := mk {
  id : JsStr;
  name : JsStr;
  createdAt : Z
}.
End SessionMeta.

Module RedoItem.
Record t : Type := mk {
  id : JsStr;
  element : Element.t
}.
End RedoItem.

Module Client.
Record t : Type := mk {
  id : string;
  name : string;
  color : JsStr;
  position : Z * Z;
  roomId : string
}.
End Client.

Record Room : Type := mkRoom {
  clients : JsMap.t Client.t;
  pathsById : JsMap.t Element.t;
  shapesById : JsMap.t Element.t;
  textsById : JsMap.t Element.t;
  imagesById : JsMap.t Element.t;
  committedIds : list JsStr;
  redoStack : list RedoItem.t;
  sessions : JsMap.t Session.t;
  roomType : string;
  passwordHash : JsStr
}.

(** Assignments to one property of the room. *)
Definition setClients (m : JsMap.t Client.t) (r : Room) : Room :=
  mkRoom m (pathsById r) (shapesById r) (textsById r) (imagesById r)
    (committedIds r) (redoStack r) (sessions r) (roomType r) (passwordHash r).
Definition setPathsById (m : JsMap.t Element.t) (r : Room) : Room :=
  mkRoom (clients r) m (shapesById r) (textsById r) (imagesById r)
    (committedIds r) (redoStack r) (sessions r) (roomType r) (passwordHash r).
Definition setShapesById (m : JsMap.t Element.t) (r : Room) : Room :=
  mkRoom (clients r) (pathsById r) m (textsById r) (imagesById r)
    (committedIds r) (redoStack r) (sessions r) (roomType r) (passwordHash r).
Definition setTextsById (m : JsMap.t Element.t) (r : Room) : Room :=
  mkRoom (clients r) (pathsById r) (shapesById r) m (imagesById r)
    (committedIds r) (redoStack r) (sessions r) (roomType r) (passwordHash r).
Definition setImagesById (m : JsMap.t Element.t) (r : Room) : Room :=
  mkRoom (clients r) (pathsById r) (shapesById r) (textsById r) m
    (committedIds r) (redoStack r) (sessions r) (roomType r) (passwordHash r).
Definition setCommittedIds (ids : list JsStr) (r : Room) : Room :=
  mkRoom (clients r) (pathsById r) (shapesById r) (textsById r) (imagesById r)
    ids (redoStack r) (sessions r) (roomType r) (passwordHash r).
Definition setRedoStack (stack : list RedoItem.t) (r : Room) : Room :=
  mkRoom (clients r) (pathsById r) (shapesById r) (textsById r) (imagesById r)
    (committedIds r) stack (sessions r) (roomType r) (passwordHash r).
Definition setSessions (m : JsMap.t Session.t) (r : Room) : Room :=
  mkRoom (clients r) (pathsById r) (shapesById r) (textsById r) (imagesById r)
    (committedIds r) (redoStack r) m (roomType r) (passwordHash r).

(** The four element collections of a room. *)
Inductive Collection : Type := Paths | Shapes | Texts | Images.

Global Instance Collection_eq_dec : EqDecision Collection.
Proof. solve_decision. Defined.

Definition collection (c : Collection) (r : Room) : JsMap.t Element.t :=
  match c with
  | Paths => pathsById r
  | Shapes => shapesById r
  | Texts => textsById r
  | Images => imagesById r
  end.

Definition setCollection (c : Collection) (m : JsMap.t Element.t) (r : Room)
  : Room :=
  match c with
  | Paths => setPathsById m r
  | Shapes => setShapesById m r
  | Texts => setTextsById m r
  | Images => setImagesById m r
  end.

(** ** [server/drawing-state.js]

    Every operation returns its JavaScript result ([None] for [null]) and the
    room as the call leaves it. *)

Definition COMMITTED : string := "committed".
Definition IN_PROGRESS : string := "in-progress".

(** [path.status || (room.committedIds.includes(path.id) ? 'committed' :
    'in-progress')] *)
Definition upsertStatus (room : Room) (e : Element.t) : JsStr :=
  if truthy (Element.status e) then Element.status e
  else if includes (Element.id e) (committedIds room) then Some COMMITTED
  else Some IN_PROGRESS.

Definition upsertPath (room : Room) (path : option Element.t)
  : option Element.t * Room :=
  match path with
  | None => (None, room)
  | Some path =>
      if negb (truthy (Element.id path)) then (None, room)
      else
        let status := upsertStatus room path in
        let nextPath := Element.withTypeStatus (Some "path") status path in
        (Some nextPath,
         setPathsById (JsMap.set (Element.id path) nextPath (pathsById room))
           room)
  end.

Definition commitPath (room : Room) (pathId : JsStr)
  : option Element.t * Room :=
  if negb (truthy pathId) then (None, room)
  else
    match JsMap.get pathId (pathsById room) with
    | None => (None, room)
    | Some existingPath =>
        let room :=
          if negb (includes pathId (committedIds room))
          then setCommittedIds (push pathId (committedIds room)) room
          else room in
        let room := setRedoStack [] room in
        let committedPath := Element.withStatus (Some COMMITTED) existingPath in
        (Some committedPath,
         setPathsById (JsMap.set pathId committedPath (pathsById room)) room)
    end.

Definition upsertShape (room : Room) (shape : option Element.t)
  : option Element.t * Room :=
  match shape with
  | None => (None, room)
  | Some shape =>
      if negb (truthy (Element.id shape)) then (None, room)
      else
        let status := upsertStatus room shape in
        let nextShape := Element.withStatus status shape in
        (Some nextShape,
         setShapesById (JsMap.set (Element.id shape) nextShape (shapesById room))
           room)
  end.

Definition commitShape (room : Room) (shapeId : JsStr)
  : option Element.t * Room :=
  if negb (truthy shapeId) then (None, room)
  else
    match JsMap.get shapeId (shapesById room) with
    | None => (None, room)
    | Some existingShape =>
        let room :=
          if negb (includes shapeId (committedIds room))
          then setCommittedIds (push shapeId (committedIds room)) room
          else room in
        let room := setRedoStack [] room in
        let committedShape :=
          Element.withStatus (Some COMMITTED) existingShape in
        (Some committedShape,
         setShapesById (JsMap.set shapeId committedShape (shapesById room))
           room)
    end.

Definition addText (room : Room) (text : option Element.t)
  : option Element.t * Room :=
  match text with
  | None => (None, room)
  | Some text =>
      if negb (truthy (Element.id text)) then (None, room)
      else
        let textElement := Element.withStatus (Some COMMITTED) text in
        let room :=
          setTextsById (JsMap.set (Element.id text) textElement (textsById room))
            room in
        let room :=
          setCommittedIds (push (Element.id text) (committedIds room)) room in
        let room := setRedoStack [] room in
        (Some textElement, room)
  end.

Definition addImage (room : Room) (image : option Element.t)
  : option Element.t * Room :=
  match image with
  | None => (None, room)
  | Some image =>
      if negb (truthy (Element.id image)) then (None, room)
      else
        let imageElement := Element.withStatus (Some COMMITTED) image in
        let room :=
          setImagesById
            (JsMap.set (Element.id image) imageElement (imagesById room))
            room in
        let room :=
          setCommittedIds (push (Element.id image) (committedIds room)) room in
        let room := setRedoStack [] room in
        (Some imageElement, room)
  end.

(** The collection [undo] takes the element from: the first of
    [pathsById], [shapesById], [textsById], [imagesById] that has the id. *)
Definition holder (room : Room) (k : JsStr) : option Collection :=
  if JsMap.has k (pathsById room) then Some Paths
  else if JsMap.has k (shapesById room) then Some Shapes
  else if JsMap.has k (textsById room) then Some Texts
  else if JsMap.has k (imagesById room) then Some Images
  else None.

Definition undo (room : Room) : option Element.t * Room :=
  let '(popped, ids) := pop (committedIds room) in
  let room := setCommittedIds ids room in
  (* an empty array pops [undefined] *)
  let lastId : JsStr := mjoin popped in
  if negb (truthy lastId) then (None, room)
  else
    match holder room lastId with
    | None => (None, room)
    | Some c =>
        match JsMap.get lastId (collection c room) with
        | None => (None, room)
        | Some element =>
            let room :=
              setCollection c (JsMap.delete lastId (collection c room)) room in
            let room :=
              setRedoStack (push (RedoItem.mk lastId element) (redoStack room))
                room in
            (Some element, room)
        end
    end.

(** The field tests by which [redo] and [loadSession] choose a collection:
    [type === 'path'], else a truthy [type], else [content !== undefined],
    else [dataUrl !== undefined]; an element that passes none of them is
    stored nowhere. *)
Definition collectionOf (element : Element.t) : option Collection :=
  if decide (Element.type element = Some "path") then Some Paths
  else if truthy (Element.type element) then Some Shapes
  else if Element.content element is Defined _ then Some Texts
  else if Element.dataUrl element is Defined _ then Some Images
  else None.

(** [room.<collection>.set(k, element)] in the collection chosen by the field
    tests, nothing when none was chosen. *)
Definition storeIn (target : option Collection) (k : JsStr)
    (element : Element.t) (room : Room) : Room :=
  match target with
  | Some c => setCollection c (JsMap.set k element (collection c room)) room
  | None => room
  end.

Definition redo (room : Room) : option Element.t * Room :=
  match pop (redoStack room) with
  | (None, _) => (None, room)
  | (Some item, stack) =>
      let room := setRedoStack stack room in
      let id := RedoItem.id item in
      let element := RedoItem.element item in
      let committedElement := Element.withStatus (Some COMMITTED) element in
      let room := storeIn (collectionOf element) id committedElement room in
      let room := setCommittedIds (push id (committedIds room)) room in
      (Some committedElement, room)
  end.

Definition clear (room : Room) : Room :=
  mkRoom (clients room) JsMap.empty JsMap.empty JsMap.empty JsMap.empty
    [] [] (sessions room) (roomType room) (passwordHash room).

(** [`session-${Date.now()}-${Math.random().toString(36).substr(2, 9)}`]:
    the clock reading and the random suffix are inputs. *)
Definition newSessionId (now : Z) (suffix : string) : string :=
  "session-" +:+ pretty now +:+ "-" +:+ suffix.

(** [now] and [suffix] make the session id, [createdAt] is the second reading
    of the clock. *)
Definition saveSession (room : Room) (sessionName : JsStr)
    (now : Z) (suffix : string) (createdAt : Z) : (string * JsStr) * Room :=
  let sessionId := newSessionId now suffix in
  let elements :=
    JsMap.values (pathsById room) ++ JsMap.values (shapesById room) ++
    JsMap.values (textsById room) ++ JsMap.values (imagesById room) in
  ((sessionId, sessionName),
   setSessions
     (JsMap.set (Some sessionId) (Session.mk sessionName elements createdAt)
        (sessions room))
     room).

(** The body of the [forEach] of [loadSession]. *)
Definition loadElement (room : Room) (element : Element.t) : Room :=
  let room :=
    storeIn (collectionOf element) (Element.id element) element room in
  if decide (Element.status element = Some COMMITTED)
  then setCommittedIds (push (Element.id element) (committedIds room)) room
  else room.

Definition loadSession (room : Room) (sessionId : JsStr)
  : option (list Element.t) * Room :=
  match JsMap.get sessionId (sessions room) with
  | None => (None, room)
  | Some session =>
      let room := clear room in
      (Some (Session.elements session),
       foldl loadElement room (Session.elements session))
  end.

(** ** [server/rooms.js] and the [join] handler *)

Module RoomOptions.
Record t : Type := mk {
  roomType : JsStr;
  passwordHash : JsStr
}.
End RoomOptions.

Definition createRoom (options : RoomOptions.t) : Room :=
  mkRoom JsMap.empty JsMap.empty JsMap.empty JsMap.empty JsMap.empty [] []
    JsMap.empty
    (orElse (RoomOptions.roomType options) "public")
    (if truthy (RoomOptions.passwordHash options)
     then RoomOptions.passwordHash options else None).

(** The registry [rooms]. *)
Definition getRoom (rooms : JsMap.t Room) (roomId : string) : option Room :=
  JsMap.get (Some roomId) rooms.

(** The room returned and the registry after the call. *)
Definition getOrCreateRoom (rooms : JsMap.t Room) (roomId : string)
    (options : RoomOptions.t) : Room * JsMap.t Room :=
  match JsMap.get (Some roomId) rooms with
  | Some room => (room, rooms)
  | None =>
      let room := createRoom options in
      (room, JsMap.set (Some roomId) room rooms)
  end.

(** [Array.prototype.sort] is stable; with the comparator
    [(a, b) => b.createdAt - a.createdAt] an entry moves behind a later one
    only when the later one has a strictly larger [createdAt]. *)
Fixpoint insertByCreatedAt (a : SessionMeta.t) (sorted : list SessionMeta.t)
  : list SessionMeta.t :=
  match sorted with
  | [] => [a]
  | b :: sorted' =>
      if (SessionMeta.createdAt a <? SessionMeta.createdAt b)%Z
      then b :: insertByCreatedAt a sorted'
      else a :: b :: sorted'
  end.

Definition sortByCreatedAtDesc (l : list SessionMeta.t) : list SessionMeta.t :=
  foldr insertByCreatedAt [] l.

Definition buildSessionList (room : Room) : list SessionMeta.t :=
  sortByCreatedAtDesc
    (map (fun '(id, session) =>
            SessionMeta.mk id (Session.name session) (Session.createdAt session))
       (JsMap.entries (sessions room))).

Definition getLatestSessionId (room : Room) : JsStr :=
  match buildSessionList room with
  | first :: _ => SessionMeta.id first
  | [] => None
  end.

Module User.
Record t : Type := mk {
  id : string;
  name : string;
  color : JsStr
}.
End User.

Module Cursor.
Record t : Type := mk {
  id : string;
  name : string;
  color : JsStr;
  position : Z * Z
}.
End Cursor.

Module StatePayload.
Record t : Type := mk {
  users : list User.t;
  cursors : list Cursor.t;
  paths : list Element.t;
  shapes : list Element.t;
  texts : list Element.t;
  images : list Element.t;
  redoCount : nat;
  sessions : list SessionMeta.t;
  roomType : string
}.
End StatePayload.

Definition buildStatePayload (room : Room) : StatePayload.t :=
  let committedPaths :=
    omap (fun id => JsMap.get id (pathsById room)) (committedIds room) in
  let inProgressPaths :=
    omap (fun '(id, path) =>
            if includes id (committedIds room) then None else Some path)
      (JsMap.entries (pathsById room)) in
  let users :=
    map (fun client =>
           User.mk (Client.id client) (Client.name client) (Client.color client))
      (JsMap.values (clients room)) in
  let cursors :=
    map (fun client =>
           Cursor.mk (Client.id client) (Client.name client)
             (Client.color client) (Client.position client))
      (JsMap.values (clients room)) in
  StatePayload.mk users cursors (committedPaths ++ inProgressPaths)
    (JsMap.values (shapesById room)) (JsMap.values (textsById room))
    (JsMap.values (imagesById room)) (length (redoStack room))
    (buildSessionList room) (orElse (Some (roomType room)) "public").

(** ** Plain objects *)

(** An object made by [{}] and filled by [object[key] = value], as the list
    of its own properties in the order in which [JSON.stringify] and
    [Object.entries] go through them: the keys that are array indices (the
    decimal numerals, without leading zero, of the integers from 0 to
    2^32 - 2) in ascending order, then the other keys in the order in which
    they were created. *)
Module JsObject.
Definition digit (c : ascii) : option N :=
  let n := N_of_ascii c in
  if ((48 <=? n) && (n <=? 57))%N then Some (n - 48)%N else None.

Fixpoint numeral (read : N) (s : string) : option N :=
  match s with
  | EmptyString => Some read
  | String c s' =>
      match digit c with
      | Some d => numeral (read * 10 + d)%N s'
      | None => None
      end
  end.

Definition arrayIndex (key : JsStr) : option N :=
  match key with
  | Some (String c s) =>
      if decide (c = "0"%char /\ s <> EmptyString) then None
      else
        match numeral 0%N (String c s) with
        | Some n => if (n <? 4294967295)%N then Some n else None
        | None => None
        end
  | _ => None
  end.

(** A new property [key] goes before the property [other]: it is an array
    index, and [other] is a larger one or none. *)
Definition before (key other : JsStr) : bool :=
  match arrayIndex key, arrayIndex other with
  | Some n, Some m => (n <? m)%N
  | Some _, None => true
  | None, _ => false
  end.

Section Ops.
Context {V : Type}.

(** The object with one more property. *)
Fixpoint define (key : JsStr) (value : V) (props : list (JsStr * V))
  : list (JsStr * V) :=
  match props with
  | [] => [(key, value)]
  | (k, v) :: props' =>
      if before key k then (key, value) :: props
      else (k, v) :: define key value props'
  end.

(** [object[key] = value], for a [value] that is an object.  The key
    "__proto__" is the accessor of [Object.prototype]: the assignment makes
    [value] the prototype of [object] and gives [object] no property. *)
Definition assign (key : JsStr) (value : V) (props : list (JsStr * V))
  : list (JsStr * V) :=
  if decide (key = Some "__proto__") then props
  else if JsMap.has key props then JsMap.set key value props
  else define key value props.

(** The object filled from nothing with the [entries], in order. *)
Definition ofEntries (entries : list (JsStr * V)) : list (JsStr * V) :=
  foldl (fun object '(key, value) => assign key value object) [] entries.
End Ops.
End JsObject.

(** The snapshot of a room and the snapshot of the registry are plain
    objects: each is given by its properties in the order of
    [JSON.stringify], which writes them to the file.  The ids of rooms and
    of sessions are strings. *)
Module RoomSnapshot.
Record t : Type := mk {
  roomType : string;
  passwordHash : JsStr;
  sessions : list (JsStr * Session.t)
}.
End RoomSnapshot.

Definition serializeRooms (rooms : JsMap.t Room)
  : list (JsStr * RoomSnapshot.t) :=
  foldl
    (fun snapshot '(roomId, room) =>
       let sessions :=
         foldl
           (fun sessions '(sessionId, session) =>
              JsObject.assign sessionId
                (Session.mk (Session.name session) (Session.elements session)
                   (Session.createdAt session))
                sessions)
           [] (JsMap.entries (sessions room)) in
       JsObject.assign roomId
         (RoomSnapshot.mk (orElse (Some (roomType room)) "public")
            (if truthy (passwordHash room) then passwordHash room else None)
            sessions)
         snapshot)
    [] (JsMap.entries rooms).

Definition USER_COLORS : list string :=
  [ "#DC2626"; "#D97706"; "#65A30D"; "#059669"; "#0891B2";
    "#0284C7"; "#4F46E5"; "#7C3AED"; "#C026D3"; "#DB2777" ].

(** The colours of the participants of a room. *)
Definition usedColors (room : Room) : list JsStr :=
  map Client.color (JsMap.values (clients room)).

(** The [for] loop of [pickUserColor] over the rest of the palette. *)
Fixpoint firstUnused (used : list JsStr) (palette : list string) : JsStr :=
  match palette with
  | [] => None
  | color :: palette' =>
      if negb (bool_decide (Some color ∈ used)) then Some color
      else firstUnused used palette'
  end.

Definition pickUserColor (room : Room) : JsStr :=
  match firstUnused (usedColors room) USER_COLORS with
  | Some color => Some color
  | None =>
      USER_COLORS !! (JsMap.size (clients room) mod length USER_COLORS)%nat
  end.

(** The [password] of a join message.  The server takes it for a string
    without checking that it is one: it is a string; or there is none (the
    property is missing or holds a falsy value that is not a string: [null],
    [false], [0]); or it is a truthy value that is not a string: a number,
    [true], an array, an object. *)
Module Password.
Inductive t : Type :=
  | Text (password : string)
  | Nothing
  | NotText.
End Password.

(** The properties of a [join] message.  [name], [roomId] and [roomType],
    which the handler tests for truth, compares and stores but never
    calls a method on, are given as strings or as missing. *)
Module JoinMessage.
Record t : Type := mk {
  name : JsStr;
  roomId : JsStr;
  roomType : JsStr;
  password : Password.t
}.
End JoinMessage.

(** The outcome of a call that may throw. *)
Inductive Completion (A : Type) : Type :=
  | Returns (value : A)
  | Throws.
Arguments Returns {A} value.
Arguments Throws {A}.

(** The messages the [join] handler sends. *)
Inductive ServerMessage : Type :=
  | ErrorMessage (message : string)
  | Welcome (id roomId roomType : string)
  | State (payload : StatePayload.t).

(** What a handler does to the outside, in order: [send] to the socket of the
    connection, [broadcast] to the participants of a room (named by their
    ids), [storage.saveRoomSnapshot]; and, last of all, an exception that
    leaves the handler: nothing catches it, and the server process ends. *)
Inductive Effect : Type :=
  | Send (message : ServerMessage)
  | Broadcast (recipients : list string) (message : ServerMessage)
  | SaveRoomSnapshot (snapshot : list (JsStr * RoomSnapshot.t))
  | Uncaught.

Definition broadcast (room : Room) (message : ServerMessage) : Effect :=
  Broadcast (map Client.id (JsMap.values (clients room))) message.

Definition hasLiveState (room : Room) : bool :=
  (0 <? JsMap.size (pathsById room))%nat ||
  (0 <? JsMap.size (shapesById room))%nat ||
  (0 <? JsMap.size (textsById room))%nat ||
  (0 <? JsMap.size (imagesById room))%nat.

(** The restore of the latest session at the end of the [join] handler. *)
Definition restoreLatestSession (room : Room) : Room :=
  if negb (hasLiveState room) && (JsMap.size (clients room) =? 1)%nat &&
     (0 <? JsMap.size (sessions room))%nat
  then
    let latestSessionId := getLatestSessionId room in
    if truthy latestSessionId then (loadSession room latestSessionId).2
    else room
  else room.

Section Server.
(** Functions of the runtime: the hexadecimal SHA-256 digest of
    [crypto.createHash('sha256').update(s).digest('hex')] and
    [String.prototype.trim]. *)
Variable sha256_hex : string -> string.
Variable trim : string -> string.

(** [crypto]'s [update] takes a string and throws a [TypeError] on a number,
    a boolean, an array or an object. *)
Definition hashPassword (password : Password.t) : Completion JsStr :=
  match password with
  | Password.Text (String a s) => Returns (Some (sha256_hex (String a s)))
  | Password.Text "" | Password.Nothing => Returns None
  | Password.NotText => Throws
  end.

Definition isPasswordValid (room : Room) (password : Password.t)
  : Completion bool :=
  if negb (bool_decide (roomType room = "private")) then Returns true
  else if negb (truthy (passwordHash room)) then Returns false
  else
    match hashPassword password with
    | Returns hash => Returns (bool_decide (hash = passwordHash room))
    | Throws => Throws
    end.

(** [message.password || ''] *)
Definition requestedPassword (message : JoinMessage.t) : Password.t :=
  match JoinMessage.password message with
  | Password.Text (String a s) => Password.Text (String a s)
  | Password.Text "" | Password.Nothing => Password.Text ""
  | Password.NotText => Password.NotText
  end.

(** [password.trim()]: a [TypeError] on what has no [trim]. *)
Definition trimmed (password : Password.t) : Completion string :=
  match password with
  | Password.Text s => Returns (trim s)
  | Password.Nothing | Password.NotText => Throws
  end.

(** The participant record the handler registers. *)
Definition clientInfo (clientId : string) (message : JoinMessage.t)
    (roomId : string) (assignedColor : JsStr) : Client.t :=
  Client.mk clientId (orElse (JoinMessage.name message) "Anonymous")
    assignedColor ((-100)%Z, (-100)%Z) roomId.

(** What ends a join before it enters a room: an error sent to the client,
    or an exception. *)
Inductive JoinFailure : Type :=
  | Refused (error : string)
  | Thrown.

(** [requestedRoomType === 'private' ? hashPassword(requestedPassword) : null],
    the password hash among the options of [getOrCreateRoom]. *)
Definition optionsHash (requestedRoomType : string) (password : Password.t)
  : Completion JsStr :=
  if decide (requestedRoomType = "private") then hashPassword password
  else Returns None.

(** The head of the [join] branch, up to the call of [getOrCreateRoom]: the
    two access checks and the evaluation of the options.  Nothing has been
    changed or sent when one of them ends the join; [None] when the join
    goes on. *)
Definition joinError (rooms : JsMap.t Room) (message : JoinMessage.t)
  : option JoinFailure :=
  let roomId := orElse (JoinMessage.roomId message) "default" in
  let requestedRoomType :=
    if decide (JoinMessage.roomType message = Some "private")
    then "private" else "public" in
  let requestedPassword := requestedPassword message in
  let options :=
    match optionsHash requestedRoomType requestedPassword with
    | Returns _ => None
    | Throws => Some Thrown
    end in
  match getRoom rooms roomId with
  | None =>
      if bool_decide (requestedRoomType = "private")
      then
        match trimmed requestedPassword with
        | Throws => Some Thrown
        | Returns blank =>
            if negb (truthy (Some blank))
            then Some (Refused "Private rooms require a password.")
            else options
        end
      else options
  | Some existingRoom =>
      if bool_decide (roomType existingRoom = "private")
      then
        match isPasswordValid existingRoom requestedPassword with
        | Throws => Some Thrown
        | Returns false => Some (Refused "Invalid room password.")
        | Returns true => options
        end
      else options
  end.

(** [pickUserColor] and [currentRoom.clients.set(clientId, clientInfo)]. *)
Definition register (room : Room) (clientId : string)
    (message : JoinMessage.t) (roomId : string) : Room :=
  let assignedColor := pickUserColor room in
  setClients
    (JsMap.set (Some clientId)
       (clientInfo clientId message roomId assignedColor) (clients room))
    room.

(** The [join] branch of the message handler of the connection [clientId]:
    the registry, the room the connection is bound to ([currentRoom], by its
    id) and the effects, in order. *)
Definition handleJoin (rooms : JsMap.t Room) (clientId : string)
    (currentRoom : option string) (message : JoinMessage.t)
  : JsMap.t Room * option string * list Effect :=
  let roomId := orElse (JoinMessage.roomId message) "default" in
  let requestedRoomType :=
    if decide (JoinMessage.roomType message = Some "private")
    then "private" else "public" in
  match joinError rooms message with
  | Some (Refused error) => (rooms, currentRoom, [Send (ErrorMessage error)])
  | Some Thrown => (rooms, currentRoom, [Uncaught])
  | None =>
      let currentRoomWasCreated :=
        if getRoom rooms roomId is Some _ then false else true in
      let passwordHash :=
        (* [joinError] has seen it return *)
        match optionsHash requestedRoomType (requestedPassword message) with
        | Returns hash => hash
        | Throws => None
        end in
      let '(room, rooms) :=
        getOrCreateRoom rooms roomId
          (RoomOptions.mk (Some requestedRoomType) passwordHash) in
      let persisted :=
        if currentRoomWasCreated
        then [SaveRoomSnapshot (serializeRooms rooms)] else [] in
      let room := register room clientId message roomId in
      let welcome :=
        Send
          (Welcome clientId roomId (orElse (Some (roomType room)) "public"))
      in
      let room := restoreLatestSession room in
      (JsMap.set (Some roomId) room rooms, Some roomId,
       persisted ++
       [welcome; broadcast room (State (buildStatePayload room))])
  end.
End Server.

(** ** The operations of the engine as data *)

Inductive Op : Type :=
  | UpsertPath (path : option Element.t)
  | CommitPath (pathId : JsStr)
  | UpsertShape (shape : option Element.t)
  | CommitShape (shapeId : JsStr)
  | AddText (text : option Element.t)
  | AddImage (image : option Element.t)
  | Undo
  | Redo
  | Clear
  | SaveSession (sessionName : JsStr) (now : Z) (suffix : string)
      (createdAt : Z)
  | LoadSession (sessionId : JsStr).

(** The room an operation leaves. *)
Definition run (op : Op) (room : Room) : Room :=
  match op with
  | UpsertPath path => (upsertPath room path).2
  | CommitPath pathId => (commitPath room pathId).2
  | UpsertShape shape => (upsertShape room shape).2
  | CommitShape shapeId => (commitShape room shapeId).2
  | AddText text => (addText room text).2
  | AddImage image => (addImage room image).2
  | Undo => (undo room).2
  | Redo => (redo room).2
  | Clear => clear room
  | SaveSession sessionName now suffix createdAt =>
      (saveSession room sessionName now suffix createdAt).2
  | LoadSession sessionId => (loadSession room sessionId).2
  end.

(** The rooms reached from a new room by operations on allowed inputs. *)
Inductive reachable (allowed : Room -> Op -> Prop) : Room -> Prop :=
  | reachable_new (options : RoomOptions.t) :
      reachable allowed (createRoom options)
  | reachable_run (room : Room) (op : Op) :
      reachable allowed room -> allowed room op ->
      reachable allowed (run op room).

(** ** Invariants of the room *)

(** The id [k] is stored in one of the four collections with status
    "committed". *)
Definition heldCommitted (room : Room) (k : JsStr) : Prop :=
  exists c e,
    JsMap.get k (collection c room) = Some e /\
    Element.status e = Some COMMITTED.

(** No id twice in [committedIds], and every one of them stored as a committed
    element. *)
Definition historyConsistent (room : Room) : Prop :=
  NoDup (committedIds room) /\ Forall (heldCommitted room) (committedIds room).

(** No id in two of the four collections. *)
Definition collectionsDisjoint (room : Room) : Prop :=
  forall k c1 c2,
    JsMap.has k (collection c1 room) = true ->
    JsMap.has k (collection c2 room) = true ->
    c1 = c2.

(** Two rooms with the same content: the same element under every id of every
    collection, and every other property equal. *)
Definition sameContent (r1 r2 : Room) : Prop :=
  (forall c, JsMap.same (collection c r1) (collection c r2)) /\
  committedIds r1 = committedIds r2 /\
  redoStack r1 = redoStack r2 /\
  sessions r1 = sessions r2 /\
  clients r1 = clients r2 /\
  roomType r1 = roomType r2 /\
  passwordHash r1 = passwordHash r2.

(** The inputs on which an operation keeps [historyConsistent]:
    an upsert declares no status other than "committed" for an id of
    [committedIds]; a text or an image comes with an id that is not in
    [committedIds]; the entry [redo] pops has an id that is not in
    [committedIds] and an element the field tests place; the elements of the
    session loaded have distinct ids and the committed ones are placed by the
    field tests. *)
Definition keepsHistory (room : Room) (op : Op) : Prop :=
  match op with
  | UpsertPath (Some e) | UpsertShape (Some e) =>
      Element.id e ∈ committedIds room ->
      truthy (Element.status e) = true ->
      Element.status e = Some COMMITTED
  | AddText (Some e) | AddImage (Some e) =>
      Element.id e ∉ committedIds room
  | Redo =>
      forall item stack,
        pop (redoStack room) = (Some item, stack) ->
        (RedoItem.id item ∉ committedIds room) /\
        collectionOf (RedoItem.element item) <> None
  | LoadSession sessionId =>
      forall session,
        JsMap.get sessionId (sessions room) = Some session ->
        NoDup (Element.id <$> Session.elements session) /\
        Forall (fun e => Element.status e = Some COMMITTED ->
                         collectionOf e <> None)
          (Session.elements session)
  | _ => True
  end.

(** The collection the fields of an element select, in the words of the
    engine's rule: a path is an element of type "path"; a shape has another
    type, not empty; a text has no type and a [content], which may be [null];
    an image has no type, no [content] and a [dataUrl]. *)
Inductive selects (e : Element.t) : Collection -> Prop :=
  | selects_path :
      Element.type e = Some "path" -> selects e Paths
  | selects_shape :
      truthy (Element.type e) = true -> Element.type e <> Some "path" ->
      selects e Shapes
  | selects_text (value : JsStr) :
      truthy (Element.type e) = false -> Element.content e = Defined value ->
      selects e Texts
  | selects_image (value : JsStr) :
      truthy (Element.type e) = false -> Element.content e = Undefined ->
      Element.dataUrl e = Defined value ->
      selects e Images.

(** The fields of the element select no collection: no type, no [content],
    no [dataUrl]. *)
Definition unplaced (e : Element.t) : Prop :=
  truthy (Element.type e) = false /\
  Element.content e = Undefined /\ Element.dataUrl e = Undefined.

(** No collection other than [target] has the id [k]. *)
Definition freeFor (room : Room) (k : JsStr) (target : Collection) : Prop :=
  forall c, JsMap.has k (collection c room) = true -> c = target.

(** The inputs on which an operation keeps [collectionsDisjoint]: the id an
    upsert or an add writes is in no other collection; the id [redo] puts
    back is in no collection other than the one the field tests choose; no two
    elements of the session loaded share an id and go to different
    collections. *)
Definition keepsDisjoint (room : Room) (op : Op) : Prop :=
  let free := freeFor room in
  match op with
  | UpsertPath (Some e) => free (Element.id e) Paths
  | UpsertShape (Some e) => free (Element.id e) Shapes
  | AddText (Some e) => free (Element.id e) Texts
  | AddImage (Some e) => free (Element.id e) Images
  | Redo =>
      forall item stack target,
        pop (redoStack room) = (Some item, stack) ->
        selects (RedoItem.element item) target ->
        free (RedoItem.id item) target
  | LoadSession sessionId =>
      forall session e1 e2 c1 c2,
        JsMap.get sessionId (sessions room) = Some session ->
        e1 ∈ Session.elements session ->
        e2 ∈ Session.elements session ->
        Element.id e1 = Element.id e2 ->
        selects e1 c1 ->
        selects e2 c2 ->
        c1 = c2
  | _ => True
  end.

(** The status an upsert stores, as the status rule words it. *)
Definition statusRule (room : Room) (e : Element.t) (stored : JsStr) : Prop :=
  (truthy (Element.status e) = true -> stored = Element.status e) /\
  (truthy (Element.status e) = false ->
   Element.id e ∈ committedIds room -> stored = Some "committed") /\
  (truthy (Element.status e) = false ->
   Element.id e ∉ committedIds room -> stored = Some "in-progress").

(** [room'] is [room] with the element [stored] under the id [k] of the
    collection [c]: everything else of that collection, the other collections,
    the participants, the sessions and the access data are as in [room]. *)
Definition storedUnder (c : Collection) (k : JsStr) (stored : Element.t)
    (room room' : Room) : Prop :=
  JsMap.get k (collection c room') = Some stored /\
  (forall k', k <> k' ->
     JsMap.get k' (collection c room') = JsMap.get k' (collection c room)) /\
  (forall c', c <> c' -> collection c' room' = collection c' room) /\
  clients room' = clients room /\
  sessions room' = sessions room /\
  roomType room' = roomType room /\
  passwordHash room' = passwordHash room.

(** What a successful commit of the id [k], held as [e] in the collection [c],
    leaves: the id at the end of [committedIds] unless it was there, an empty
    [redoStack], and [e] with status "committed" under [k]. *)
Definition committedAs (c : Collection) (k : JsStr) (e : Element.t)
    (room : Room) (result : option Element.t * Room) : Prop :=
  let committed := Element.withStatus (Some "committed") e in
  result.1 = Some committed /\
  storedUnder c k committed room result.2 /\
  (k ∈ committedIds room -> committedIds result.2 = committedIds room) /\
  (k ∉ committedIds room -> committedIds result.2 = committedIds room ++ [k]) /\
  redoStack result.2 = [].

(** What [Map] and [saveSession] give the sessions of a room: distinct ids,
    none of them empty. *)
Definition sessionIdsProper (room : Room) : Prop :=
  NoDup (JsMap.keys (sessions room)) /\
  Forall (fun k => truthy k = true) (JsMap.keys (sessions room)).

(** Every session of the room is at most as recent as [session]. *)
Definition mostRecent (session : Session.t) (room : Room) : Prop :=
  forall sessionId' session',
    JsMap.get sessionId' (sessions room) = Some session' ->
    (Session.createdAt session' <= Session.createdAt session)%Z.

(** The first entry of the list is the most recent of its entries. *)
Definition headLatest (l : list SessionMeta.t) : Prop :=
  match l with
  | [] => True
  | first :: _ =>
      Forall (fun x => (SessionMeta.createdAt x <= SessionMeta.createdAt first)%Z)
        l
  end.

(** The room a join enters, before the participant is registered: the room
    of that id, or a new one. *)
Definition entered (rooms : JsMap.t Room) (roomId : string) (room : Room)
  : Prop :=
  getRoom rooms roomId = Some room \/
  (getRoom rooms roomId = None /\ exists options, room = createRoom options).

(** On a password that is a string, or on none, nothing throws. *)
Definition textual (password : Password.t) : Prop :=
  password <> Password.NotText.

(** When the head of the [join] branch throws: the password is a truthy
    value that is not a string, and it is trimmed (a private room that does
    not exist yet is asked for) or hashed (the room exists, is private and
    stores a hash; or a private room is asked for under the id of a room that is
    not). *)
Definition throwsOn (rooms : JsMap.t Room) (message : JoinMessage.t) : Prop :=
  JoinMessage.password message = Password.NotText /\
  match getRoom rooms (orElse (JoinMessage.roomId message) "default") with
  | Some existingRoom =>
      if decide (roomType existingRoom = "private")
      then truthy (passwordHash existingRoom) = true
      else JoinMessage.roomType message = Some "private"
  | None => JoinMessage.roomType message = Some "private"
  end.

(** A colour is in use in a room when a participant of the room has it. *)
Definition inUse (room : Room) (color : string) : Prop :=
  Exists (fun info => Client.color info = Some color)
    (JsMap.values (clients room)).

(** ** Sample rooms and messages *)

Module Sample.
(** A fresh public room. *)
Definition room0 : Room := createRoom (RoomOptions.mk None None).

Definition path1 : Element.t :=
  Element.mk (Some "p1") (Some "path") None Undefined Undefined
    [("points", "[[1,2],[3,4]]"); ("strokeWidth", "4")].

(** The same path sent again with an explicit status, as a client that
    keeps dragging does. *)
Definition path1Dragged : Element.t :=
  Element.withStatus (Some "in-progress") path1.

Definition shape1 : Element.t :=
  Element.mk (Some "s1") (Some "rectangle") None Undefined Undefined
    [("filled", "true")].

(** A shape that comes with the id of [path1]. *)
Definition shapeP1 : Element.t :=
  Element.mk (Some "p1") (Some "circle") None Undefined Undefined [].

Definition text1 : Element.t :=
  Element.mk (Some "t1") None None (Defined (Some "hello")) Undefined [("fontSize", "16")].

(** A text whose [content] is [null], and a path with the same id. *)
Definition nullText : Element.t :=
  Element.mk (Some "a") None None (Defined None) Undefined [].

Definition pathA : Element.t :=
  Element.mk (Some "a") (Some "path") None Undefined Undefined [].

(** The text added and undone: it waits on the redo stack. *)
Definition undoneText : Room :=
  run Undo (run (AddText (Some nullText)) room0).

(** Then the path drawn: the id is in [pathsById] only. *)
Definition crossed : Room := run (UpsertPath (Some pathA)) undoneText.

(** A shape without kind tag. *)
Definition untypedShape : Element.t :=
  Element.mk (Some "u1") None None Undefined Undefined [("filled", "false")].

(** [path1] drawn and committed. *)
Definition committed1 : Room :=
  run (CommitPath (Some "p1")) (run (UpsertPath (Some path1)) room0).

(** ... and then dragged on. *)
Definition dragged1 : Room := run (UpsertPath (Some path1Dragged)) committed1.

(** [path1] drawn, not committed. *)
Definition drawn1 : Room := run (UpsertPath (Some path1)) room0.

(** Only [shape1] drawn. *)
Definition onlyShape : Room := run (UpsertShape (Some shape1)) room0.

(** [untypedShape] drawn and committed. *)
Definition committedUntyped : Room :=
  run (CommitShape (Some "u1")) (run (UpsertShape (Some untypedShape)) room0).

(** [committed1] with a committed shape of the same id, saved. *)
Definition savedShared : Room :=
  run (SaveSession (Some "shared") 1700000001000 "zzzzzzzzz" 1700000001000)
    (run (CommitShape (Some "p1"))
       (run (UpsertShape (Some shapeP1)) committed1)).

(** [committed1] with a shape in progress saved as "v1", saved again as
    "v2" once the shape is committed, then cleared when the last
    participant left. *)
Definition saved : Room :=
  clear
    (run (SaveSession (Some "v2") 1700000000500 "k3j9x0q1z" 1700000000500)
       (run (CommitShape (Some "s1"))
          (run
             (SaveSession (Some "v1") 1700000000000 "a1b2c3d4e" 1700000000000)
             (run (UpsertShape (Some shape1)) committed1)))).

Definition sessionV1 : string := "session-1700000000000-a1b2c3d4e".
Definition sessionV2 : string := "session-1700000000500-k3j9x0q1z".

(** A digest for the samples: the password cut or padded to 64 characters.
    It stands for SHA-256 only in that its results have that length. *)
Fixpoint padTo (n : nat) (s : string) : string :=
  match n with
  | O => ""
  | S n' =>
      match s with
      | "" => String "0"%char (padTo n' "")
      | String a s' => String a (padTo n' s')
      end
  end.

Definition digest (s : string) : string := padTo 64 s.

(** Removes the ASCII blanks at both ends. *)
Fixpoint trimStart (s : string) : string :=
  match s with
  | String " "%char s' => trimStart s'
  | _ => s
  end.

Definition trim (s : string) : string :=
  String.rev (trimStart (String.rev (trimStart s))).

(** A private room "secret" made with the password "x". *)
Definition secretRoom : Room :=
  createRoom (RoomOptions.mk (Some "private") (Some (digest "x"))).

Definition registry : JsMap.t Room :=
  [(Some "secret", secretRoom); (Some "gallery", saved)].

Definition joinSecretWith (password : string) : JoinMessage.t :=
  JoinMessage.mk (Some "Ann") (Some "secret") (Some "private")
    (Password.Text password).

Definition joinGallery : JoinMessage.t :=
  JoinMessage.mk (Some "Bob") (Some "gallery") None Password.Nothing.

(** The public room "hall" after its first [n] visitors have joined, one
    connection each. *)
Definition joinHall : JoinMessage.t :=
  JoinMessage.mk None (Some "hall") None Password.Nothing.

Definition visitor (n : nat) : string := "user-" +:+ pretty n.

Fixpoint crowd (n : nat) : JsMap.t Room :=
  match n with
  | O => []
  | S n' => (handleJoin digest trim (crowd n') (visitor n') None joinHall).1.1
  end.

Definition hall (n : nat) : Room :=
  default room0 (getRoom (crowd n) "hall").

(** A join with the number 5 for password, as
    [{"type":"join","roomId":"secret","roomType":"private","password":5}]. *)
Definition joinSecretWithNumber : JoinMessage.t :=
  JoinMessage.mk (Some "Ann") (Some "secret") (Some "private")
    Password.NotText.

(** The same to a room that does not exist yet. *)
Definition joinAtticWithNumber : JoinMessage.t :=
  JoinMessage.mk (Some "Ann") (Some "attic") (Some "private")
    Password.NotText.
End Sample.

(** ** More invariants *)

(** Every element of a collection is stored under its own id, once, and is
    one the field tests of [redo] and [loadSession] send to that collection. *)
Definition wellKeyed (room : Room) : Prop :=
  forall c,
    NoDup (JsMap.keys (collection c room)) /\
    forall k e,
      (k, e) ∈ collection c room ->
      Element.id e = k /\ collectionOf e = Some c.

(** The elements [saveSession] copies, in its order. *)
Definition liveElements (room : Room) : list Element.t :=
  JsMap.values (pathsById room) ++ JsMap.values (shapesById room) ++
  JsMap.values (textsById room) ++ JsMap.values (imagesById room).

(** [a] may stand before [b] in the list of sessions: it is at least as
    recent. *)
Definition notOlder (a b : SessionMeta.t) : Prop :=
  (SessionMeta.createdAt b <= SessionMeta.createdAt a)%Z.

(** The entry of [buildSessionList] for a session. *)
Definition sessionMeta (entry : JsStr * Session.t) : SessionMeta.t :=
  SessionMeta.mk entry.1 (Session.name entry.2) (Session.createdAt entry.2).

(** ** The message handler and the close handler *)

(** A message of a client after [JSON.parse]: its [type] when that is a
    string, and the properties the handler reads ([name], [roomId],
    [roomType] and [password] as in [JoinMessage.t]; [name] is also the name
    of [save-session]).  A [position] is a point, as the protocol types it. *)
Module ClientMessage.
Record t : Type := mk {
  type : JsStr;
  join : JoinMessage.t;
  position : Z * Z;
  path : option Element.t;
  shape : option Element.t;
  text : option Element.t;
  image : option Element.t;
  id : JsStr;
  sessionId : JsStr
}.
End ClientMessage.

(** What arrives on the socket: text that [JSON.parse] refuses, or a
    message. *)
Inductive Frame : Type :=
  | Unparsable
  | Parsed (message : ClientMessage.t).

(** The messages sent from the branches other than [join]. *)
Inductive RoomMessage : Type :=
  | CursorMoved (id : string) (position : Z * Z)
  | PathUpsert (path : Element.t)
  | ShapeUpsert (shape : Element.t)
  | TextAdd (text : Element.t)
  | ImageAdd (image : Element.t)
  | RedoCount (redoCount : nat)
  | Cleared
  | SessionSaved (sessionId : string) (name : JsStr)
  | SessionList (sessions : list SessionMeta.t)
  | SessionLoaded (sessionId : JsStr) (elements : list Element.t).

(** What the handlers do to the outside, in order. *)
Inductive Output : Type :=
  | Basic (effect : Effect)
  | SendRoom (message : RoomMessage)
  | BroadcastRoom (recipients : list string) (message : RoomMessage).

Definition sendError (message : string) : Output :=
  Basic (Send (ErrorMessage message)).

Definition broadcastRoom (room : Room) (message : RoomMessage) : Output :=
  BroadcastRoom (map Client.id (JsMap.values (clients room))) message.

Definition broadcastState (room : Room) : Output :=
  Basic (broadcast room (State (buildStatePayload room))).

(** [clientInfo.position = position] *)
Definition moveCursor (client : Client.t) (position : Z * Z) : Client.t :=
  Client.mk (Client.id client) (Client.name client) (Client.color client)
    position (Client.roomId client).

(** The [switch] of the message handler, for the participant [clientInfo] of
    the room [room] that the registry has under [roomId]: the registry and
    the outputs.  [now], [suffix] and [createdAt] are the readings of the
    clock and of the random source that [saveSession] takes. *)
Definition handleInRoom (rooms : JsMap.t Room) (roomId : string) (room : Room)
    (clientId : string) (clientInfo : Client.t) (type : string)
    (message : ClientMessage.t) (now : Z) (suffix : string) (createdAt : Z)
  : JsMap.t Room * list Output :=
  let put (room : Room) := JsMap.set (Some roomId) room rooms in
  if decide (type = "cursor") then
    let position := ClientMessage.position message in
    let room :=
      setClients
        (JsMap.set (Some clientId) (moveCursor clientInfo position)
           (clients room))
        room in
    (put room, [broadcastRoom room (CursorMoved clientId position)])
  else if decide (type = "path:upsert") then
    match upsertPath room (ClientMessage.path message) with
    | (None, _) => (rooms, [])
    | (Some nextPath, room) =>
        (put room, [broadcastRoom room (PathUpsert nextPath)])
    end
  else if decide (type = "path:commit") then
    match commitPath room (ClientMessage.id message) with
    | (None, _) => (rooms, [])
    | (Some committedPath, room) =>
        (put room,
         [broadcastRoom room (PathUpsert committedPath);
          broadcastRoom room (RedoCount (length (redoStack room)))])
    end
  else if decide (type = "shape:upsert") then
    match upsertShape room (ClientMessage.shape message) with
    | (None, _) => (rooms, [])
    | (Some nextShape, room) =>
        (put room, [broadcastRoom room (ShapeUpsert nextShape)])
    end
  else if decide (type = "shape:commit") then
    match commitShape room (ClientMessage.id message) with
    | (None, _) => (rooms, [])
    | (Some committedShape, room) =>
        (put room,
         [broadcastRoom room (ShapeUpsert committedShape);
          broadcastRoom room (RedoCount (length (redoStack room)))])
    end
  else if decide (type = "text:add") then
    match addText room (ClientMessage.text message) with
    | (None, _) => (rooms, [])
    | (Some text, room) =>
        (put room,
         [broadcastRoom room (TextAdd text);
          broadcastRoom room (RedoCount (length (redoStack room)))])
    end
  else if decide (type = "image:add") then
    match addImage room (ClientMessage.image message) with
    | (None, _) => (rooms, [])
    | (Some image, room) =>
        (put room,
         [broadcastRoom room (ImageAdd image);
          broadcastRoom room (RedoCount (length (redoStack room)))])
    end
  else if decide (type = "undo") then
    let room := (undo room).2 in
    (put room, [broadcastState room])
  else if decide (type = "redo") then
    let room := (redo room).2 in
    (put room, [broadcastState room])
  else if decide (type = "clear") then
    let room := clear room in
    (put room, [broadcastRoom room Cleared; broadcastState room])
  else if decide (type = "save-session") then
    let '(result, room) :=
      saveSession room (JoinMessage.name (ClientMessage.join message))
        now suffix createdAt in
    let rooms := put room in
    (rooms,
     [SendRoom (SessionSaved result.1 result.2);
      broadcastRoom room (SessionList (buildSessionList room));
      Basic (SaveRoomSnapshot (serializeRooms rooms))])
  else if decide (type = "load-session") then
    match loadSession room (ClientMessage.sessionId message) with
    | (Some elements, room) =>
        (put room,
         [broadcastRoom room
            (SessionLoaded (ClientMessage.sessionId message) elements);
          broadcastState room])
    | (None, _) => (rooms, [sendError "Session not found."])
    end
  else (rooms, [sendError ("Unknown message type: " +:+ type)]).

(** The close handler of the connection [clientId] bound to [currentRoom]. *)
Definition handleClose (rooms : JsMap.t Room) (clientId : string)
    (currentRoom : option string) : JsMap.t Room * list Output :=
  match currentRoom with
  | None => (rooms, [])
  | Some roomId =>
      match getRoom rooms roomId with
      | None => (rooms, [])
      | Some room =>
          let room :=
            setClients (JsMap.delete (Some clientId) (clients room)) room in
          if (JsMap.size (clients room) =? 0)%nat
          then (JsMap.set (Some roomId) (clear room) rooms, [])
          else (JsMap.set (Some roomId) room rooms, [broadcastState room])
      end
  end.

Section Dispatch.
Variable sha256_hex : string -> string.
Variable trim : string -> string.

(** The message handler of the connection [clientId]: the registry, the room
    the connection is bound to and the outputs.  The connection holds its
    room by reference and the registry never drops a room, so the lookup of
    [currentRoom] finds it; the branch without it is never taken. *)
Definition handleMessage (rooms : JsMap.t Room) (clientId : string)
    (currentRoom : option string) (frame : Frame)
    (now : Z) (suffix : string) (createdAt : Z)
  : JsMap.t Room * option string * list Output :=
  match frame with
  | Unparsable => (rooms, currentRoom, [sendError "Invalid JSON payload."])
  | Parsed message =>
      match ClientMessage.type message with
      | None => (rooms, currentRoom, [sendError "Message type is required."])
      | Some type =>
          if decide (type = "join") then
            let '(rooms, currentRoom, effects) :=
              handleJoin sha256_hex trim rooms clientId currentRoom
                (ClientMessage.join message) in
            (rooms, currentRoom, Basic <$> effects)
          else
            match currentRoom with
            | None => (rooms, None, [sendError "Not joined to a room."])
            | Some roomId =>
                match getRoom rooms roomId with
                | None => (rooms, currentRoom, [])
                | Some room =>
                    match JsMap.get (Some clientId) (clients room) with
                    | None => (rooms, currentRoom, [])
                    | Some clientInfo =>
                        let '(rooms, outputs) :=
                          handleInRoom rooms roomId room clientId clientInfo
                            type message now suffix createdAt in
                        (rooms, currentRoom, outputs)
                    end
                end
            end
      end
  end.
End Dispatch.

(** ** [hydrateRooms] *)

(** A session and a room of the snapshot file as [JSON.parse] returns them:
    any property may be missing. *)
Module SessionData.
Record t : Type := mk {
  name : JsStr;
  elements : option (list Element.t);
  createdAt : option Z
}.
End SessionData.

Module RoomData.
Record t : Type := mk {
  roomType : JsStr;
  passwordHash : JsStr;
  sessions : option (list (JsStr * SessionData.t))
}.
End RoomData.




(** ** What the handlers are checked against *)

Definition messageTypes : list string :=
  [ "join"; "cursor"; "path:upsert"; "path:commit"; "shape:upsert";
    "shape:commit"; "text:add"; "image:add"; "undo"; "redo"; "clear";
    "save-session"; "load-session" ].

(** The element is missing or has no id. *)
Definition missingId (element : option Element.t) : Prop :=
  match element with
  | Some element => truthy (Element.id element) = false
  | None => True
  end.

(** The commands the engine refuses: an upsert or an addition of an element
    without id, a commit of an id that is missing or not in the collection
    of the command. *)
Definition refused (type : string) (message : ClientMessage.t) (room : Room)
  : Prop :=
  (type = "path:upsert" /\ missingId (ClientMessage.path message)) \/
  (type = "shape:upsert" /\ missingId (ClientMessage.shape message)) \/
  (type = "text:add" /\ missingId (ClientMessage.text message)) \/
  (type = "image:add" /\ missingId (ClientMessage.image message)) \/
  (type = "path:commit" /\
   (truthy (ClientMessage.id message) = false \/
    JsMap.get (ClientMessage.id message) (pathsById room) = None)) \/
  (type = "shape:commit" /\
   (truthy (ClientMessage.id message) = false \/
    JsMap.get (ClientMessage.id message) (shapesById room) = None)).

(** The room a frame can change: the room a [join] names, the room of the
    connection for every other frame. *)
Definition addressed (currentRoom : option string) (frame : Frame)
  : option string :=
  match frame with
  | Unparsable => currentRoom
  | Parsed message =>
      if decide (ClientMessage.type message = Some "join")
      then
        Some (orElse (JoinMessage.roomId (ClientMessage.join message))
                "default")
      else currentRoom
  end.

Definition sameAccess (room room' : Room) : Prop :=
  roomType room' = roomType room /\ passwordHash room' = passwordHash room.

(** Nothing drawn, nothing to undo or redo. *)
Definition noLiveState (room : Room) : Prop :=
  (forall c, collection c room = JsMap.empty) /\
  committedIds room = [] /\ redoStack room = [].





(** What a message broadcast by a command says of the room [room]; the
    sender is [clientId]. *)
Definition tellsOf (clientId : string) (room : Room) (message : RoomMessage)
  : Prop :=
  match message with
  | CursorMoved id position =>
      id = clientId /\
      Client.position <$> JsMap.get (Some clientId) (clients room)
      = Some position
  | PathUpsert path => exists k, JsMap.get k (pathsById room) = Some path
  | ShapeUpsert shape => exists k, JsMap.get k (shapesById room) = Some shape
  | TextAdd text => exists k, JsMap.get k (textsById room) = Some text
  | ImageAdd image => exists k, JsMap.get k (imagesById room) = Some image
  | RedoCount redoCount =>
      redoCount = length (redoStack room) /\ redoCount = 0%nat
  | Cleared => noLiveState room
  | SessionSaved sessionId name =>
      Session.name <$> JsMap.get (Some sessionId) (sessions room) = Some name
  | SessionList sessions => sessions = buildSessionList room
  | SessionLoaded sessionId elements =>
      Session.elements <$> JsMap.get sessionId (sessions room) = Some elements
  end.

(** The output agrees with the registry [rooms] and its room [room], the
    room [roomId] of the connection [clientId]: a broadcast goes to the
    participants of the room and tells of the room as it is, a state message
    is always broadcast, a snapshot persisted is the snapshot of the
    registry, and the connection alone is sent nothing but the welcome to
    the room and the id of a session saved.  An error reply and an exception
    agree with nothing. *)
Definition current (clientId : string) (rooms : JsMap.t Room)
    (roomId : string) (room : Room) (output : Output) : Prop :=
  match output with
  | Basic (Send (Welcome id roomId' roomType')) =>
      id = clientId /\ roomId' = roomId /\
      roomType' = orElse (Some (roomType room)) "public"
  | Basic (Send _) => False
  | Basic Uncaught => False
  | Basic (SaveRoomSnapshot snapshot) => snapshot = serializeRooms rooms
  | Basic (Broadcast recipients message) =>
      recipients = map Client.id (JsMap.values (clients room)) /\
      match message with
      | State payload => payload = buildStatePayload room
      | _ => False
      end
  | SendRoom message =>
      match message with
      | SessionSaved _ _ => tellsOf clientId room message
      | _ => False
      end
  | BroadcastRoom recipients message =>
      recipients = map Client.id (JsMap.values (clients room)) /\
      match message with
      | SessionSaved _ _ => False
      | _ => tellsOf clientId room message
      end
  end.


(** ** The client: the message listener of [useCollabSocket] *)

Module CollabState.
Record t : Type := mk {
  clientId : JsStr;
  roomId : JsStr;
  roomType : JsStr;
  lastLoadedSessionId : JsStr;
  paths : list Element.t;
  shapes : list Element.t;
  texts : list Element.t;
  images : list Element.t;
  users : list User.t;
  cursors : list Cursor.t;
  redoCount : nat;
  sessions : list SessionMeta.t;
  connectionState : string
}.

(** [{...prev, paths}] and the like. *)
Definition withPaths (paths : list Element.t) (prev : t) : t :=
  mk (clientId prev) (roomId prev) (roomType prev) (lastLoadedSessionId prev)
    paths (shapes prev) (texts prev) (images prev) (users prev) (cursors prev)
    (redoCount prev) (sessions prev) (connectionState prev).

Definition withShapes (shapes : list Element.t) (prev : t) : t :=
  mk (clientId prev) (roomId prev) (roomType prev) (lastLoadedSessionId prev)
    (paths prev) shapes (texts prev) (images prev) (users prev) (cursors prev)
    (redoCount prev) (sessions prev) (connectionState prev).

Definition withTexts (texts : list Element.t) (prev : t) : t :=
  mk (clientId prev) (roomId prev) (roomType prev) (lastLoadedSessionId prev)
    (paths prev) (shapes prev) texts (images prev) (users prev) (cursors prev)
    (redoCount prev) (sessions prev) (connectionState prev).

Definition withImages (images : list Element.t) (prev : t) : t :=
  mk (clientId prev) (roomId prev) (roomType prev) (lastLoadedSessionId prev)
    (paths prev) (shapes prev) (texts prev) images (users prev) (cursors prev)
    (redoCount prev) (sessions prev) (connectionState prev).

Definition withCursors (cursors : list Cursor.t) (prev : t) : t :=
  mk (clientId prev) (roomId prev) (roomType prev) (lastLoadedSessionId prev)
    (paths prev) (shapes prev) (texts prev) (images prev) (users prev) cursors
    (redoCount prev) (sessions prev) (connectionState prev).

Definition withRedoCount (redoCount : nat) (prev : t) : t :=
  mk (clientId prev) (roomId prev) (roomType prev) (lastLoadedSessionId prev)
    (paths prev) (shapes prev) (texts prev) (images prev) (users prev)
    (cursors prev) redoCount (sessions prev) (connectionState prev).

Definition withSessions (sessions : list SessionMeta.t) (prev : t) : t :=
  mk (clientId prev) (roomId prev) (roomType prev) (lastLoadedSessionId prev)
    (paths prev) (shapes prev) (texts prev) (images prev) (users prev)
    (cursors prev) (redoCount prev) sessions (connectionState prev).

Definition withLastLoadedSessionId (sessionId : JsStr) (prev : t) : t :=
  mk (clientId prev) (roomId prev) (roomType prev) sessionId
    (paths prev) (shapes prev) (texts prev) (images prev) (users prev)
    (cursors prev) (redoCount prev) (sessions prev) (connectionState prev).
End CollabState.

(** [value || null] *)
Definition orNull (value : string) : JsStr :=
  if truthy (Some value) then Some value else None.

(** [findIndex] by id, then [next[index] = element] or
    [next.push(element)]: the [path:upsert] and [shape:upsert] cases. *)
Definition upsertById (element : Element.t) (elements : list Element.t)
  : list Element.t :=
  match list_find (fun e => Element.id e = Element.id element) elements with
  | Some (index, _) => <[index := element]> elements
  | None => elements ++ [element]
  end.

(** The [cursor] case: the cursor of that id gets the position; when there
    is none, one is pushed with the name and colour of the user of that id,
    or "Anonymous" and "#4F46E5". *)
Definition cursorMoved (id : string) (position : Z * Z) (users : list User.t)
    (cursors : list Cursor.t) : list Cursor.t :=
  match list_find (fun cursor => Cursor.id cursor = id) cursors with
  | Some (index, cursor) =>
      <[index := Cursor.mk (Cursor.id cursor) (Cursor.name cursor)
                   (Cursor.color cursor) position]> cursors
  | None =>
      let fallbackUser := list_find (fun user => User.id user = id) users in
      let name :=
        match fallbackUser with
        | Some (_, user) => orElse (Some (User.name user)) "Anonymous"
        | None => "Anonymous"
        end in
      let color :=
        match fallbackUser with
        | Some (_, user) => orElse (User.color user) "#4F46E5"
        | None => "#4F46E5"
        end in
      cursors ++ [Cursor.mk id name (Some color) position]
  end.

(** A message of the server as the client parses it. *)
Inductive Received : Type :=
  | FromServer (message : ServerMessage)
  | FromRoom (message : RoomMessage).

(** The [switch] of the listener: the state after the updates it queues. *)
Definition onMessage (prev : CollabState.t) (message : Received)
  : CollabState.t :=
  match message with
  | FromServer (Welcome id roomId roomType) =>
      CollabState.mk (Some id) (Some roomId) (orNull roomType)
        (CollabState.lastLoadedSessionId prev) (CollabState.paths prev)
        (CollabState.shapes prev) (CollabState.texts prev)
        (CollabState.images prev) (CollabState.users prev)
        (CollabState.cursors prev) (CollabState.redoCount prev)
        (CollabState.sessions prev) (CollabState.connectionState prev)
  | FromServer (State payload) =>
      CollabState.mk (CollabState.clientId prev) (CollabState.roomId prev)
        (orNull (StatePayload.roomType payload))
        (CollabState.lastLoadedSessionId prev) (StatePayload.paths payload)
        (StatePayload.shapes payload) (StatePayload.texts payload)
        (StatePayload.images payload) (StatePayload.users payload)
        (StatePayload.cursors payload) (StatePayload.redoCount payload)
        (StatePayload.sessions payload) (CollabState.connectionState prev)
  | FromServer (ErrorMessage _) => prev
  | FromRoom (CursorMoved id position) =>
      CollabState.withCursors
        (cursorMoved id position (CollabState.users prev)
           (CollabState.cursors prev))
        prev
  | FromRoom (PathUpsert path) =>
      CollabState.withPaths (upsertById path (CollabState.paths prev)) prev
  | FromRoom (ShapeUpsert shape) =>
      CollabState.withShapes (upsertById shape (CollabState.shapes prev)) prev
  | FromRoom (TextAdd text) =>
      CollabState.withTexts (CollabState.texts prev ++ [text]) prev
  | FromRoom (ImageAdd image) =>
      CollabState.withImages (CollabState.images prev ++ [image]) prev
  | FromRoom (RedoCount redoCount) => CollabState.withRedoCount redoCount prev
  | FromRoom Cleared =>
      CollabState.withRedoCount 0
        (CollabState.withImages []
           (CollabState.withTexts []
              (CollabState.withShapes [] (CollabState.withPaths [] prev))))
  | FromRoom (SessionSaved _ _) => prev
  | FromRoom (SessionList sessions) => CollabState.withSessions sessions prev
  | FromRoom (SessionLoaded sessionId _) =>
      CollabState.withLastLoadedSessionId sessionId prev
  end.

(** What the connection [me] receives of an output of the handler of the
    connection [sender] while its socket is open: what is sent to the sender
    when it is the sender, what is broadcast when it is among the
    recipients. *)
Definition delivered (me sender : string) (output : Output) : option Received :=
  match output with
  | Basic (Send message) =>
      if decide (me = sender) then Some (FromServer message) else None
  | Basic (Broadcast recipients message) =>
      if decide (me ∈ recipients) then Some (FromServer message) else None
  | Basic (SaveRoomSnapshot _) | Basic Uncaught => None
  | SendRoom message =>
      if decide (me = sender) then Some (FromRoom message) else None
  | BroadcastRoom recipients message =>
      if decide (me ∈ recipients) then Some (FromRoom message) else None
  end.

(** The state of the client [me] after the outputs of one run of a
    handler. *)
Definition received (me sender : string) (outputs : list Output)
    (state : CollabState.t) : CollabState.t :=
  foldl onMessage state (omap (delivered me sender) outputs).

(** The client shows what a state message of the room would tell it now,
    the paths in some order. *)
Definition upToDate (state : CollabState.t) (room : Room) : Prop :=
  let payload := buildStatePayload room in
  CollabState.paths state ≡ₚ StatePayload.paths payload /\
  CollabState.shapes state = StatePayload.shapes payload /\
  CollabState.texts state = StatePayload.texts payload /\
  CollabState.images state = StatePayload.images payload /\
  CollabState.users state = StatePayload.users payload /\
  CollabState.cursors state = StatePayload.cursors payload /\
  CollabState.redoCount state = StatePayload.redoCount payload /\
  CollabState.sessions state = StatePayload.sessions payload /\
  CollabState.roomType state = orNull (StatePayload.roomType payload).

(** The entries of the map are stored under their ids. *)
Definition keyedById (m : JsMap.t Element.t) : Prop :=
  forall k e, (k, e) ∈ m -> Element.id e = k.

(** What the engine and the join handler keep of a room as long as no id is
    committed twice: no id twice in [committedIds], paths and shapes stored
    once and under their ids, participants stored under their ids. *)
Definition tidy (room : Room) : Prop :=
  NoDup (committedIds room) /\
  NoDup (JsMap.keys (pathsById room)) /\
  keyedById (pathsById room) /\
  keyedById (shapesById room) /\
  forall k info, (k, info) ∈ clients room -> k = Some (Client.id info).

(** The id of the text or image a command adds is new: not in its
    collection and not committed. *)
Definition addsFresh (type : string) (message : ClientMessage.t) (room : Room)
  : Prop :=
  (type = "text:add" ->
   forall text,
     ClientMessage.text message = Some text ->
     JsMap.get (Element.id text) (textsById room) = None /\
     Element.id text ∉ committedIds room) /\
  (type = "image:add" ->
   forall image,
     ClientMessage.image message = Some image ->
     JsMap.get (Element.id image) (imagesById room) = None /\
     Element.id image ∉ committedIds room).


(** ** The client: path optimization of the canvas *)

(** A point of the canvas; its coordinates are JavaScript numbers, IEEE 754
    doubles. *)
Module Point.
Record t : Type := mk {
  x : float;
  y : float
}.
End Point.

Section Canvas.
(** [Math.sqrt] of the runtime. *)
Variable sqrt : float -> float.

Definition getDistance (p1 p2 : Point.t) : float :=
  let dx := (Point.x p2 - Point.x p1)%float in
  let dy := (Point.y p2 - Point.y p1)%float in
  sqrt (dx * dx + dy * dy)%float.

(** The [for] loop of [optimizePath] over the inner points still to visit:
    the points it pushes, [lastPoint] being the last point kept. *)
Fixpoint keptAfter (threshold : float) (lastPoint : Point.t)
    (inner : list Point.t) : list Point.t :=
  match inner with
  | [] => []
  | point :: inner' =>
      if PrimFloat.leb threshold (getDistance lastPoint point)
      then point :: keptAfter threshold point inner'
      else keptAfter threshold lastPoint inner'
  end.

Definition optimizePath (points : list Point.t) (threshold : float)
  : list Point.t :=
  match points with
  | first :: second :: third :: rest =>
      let others := second :: third :: rest in
      first :: keptAfter threshold first (removelast others)
        ++ [List.last others third]
  | _ => points
  end.

(** Each point of the list is at least [threshold] away from the one before
    it, the first one from [lastPoint]. *)
Fixpoint apart (threshold : float) (lastPoint : Point.t)
    (points : list Point.t) : Prop :=
  match points with
  | [] => True
  | point :: points' =>
      PrimFloat.leb threshold (getDistance lastPoint point) = true /\
      apart threshold point points'
  end.
End Canvas.


(** ** A sample of connections *)

Module Scene.
Definition joining (name roomId : string) (roomType : JsStr)
    (password : Password.t) : ClientMessage.t :=
  ClientMessage.mk (Some "join")
    (JoinMessage.mk (Some name) (Some roomId) roomType password)
    (0%Z, 0%Z) None None None None None None.

(** The sample registry after the connection "user-0" joined a new room
    "studio". *)
Definition opened : JsMap.t Room :=
  (handleMessage Sample.digest Sample.trim Sample.registry "user-0" None
     (Parsed (joining "Ann" "studio" None Password.Nothing)) 0%Z "" 0%Z).1.1.

Definition studio : Room := default Sample.room0 (getRoom opened "studio").

(** A request for a new private room "vault". *)
Definition vault : JoinMessage.t :=
  JoinMessage.mk (Some "Ann") (Some "vault") (Some "private")
    (Password.Text "pw").

(** A registry with the rooms "lobby", "10", "9" and "__proto__", joined in
    that order, and what [JSON.parse] reads back of its snapshot. *)
Definition archive : JsMap.t Room :=
  [ (Some "lobby", Sample.saved); (Some "10", Sample.room0);
    (Some "9", Sample.secretRoom); (Some "__proto__", Sample.room0) ].


(** The state of a client before it has received anything. *)
Definition blank : CollabState.t :=
  CollabState.mk None None None None [] [] [] [] [] [] 0 [] "connecting".

(** The client of "user-0" once it has the state of "studio". *)
Definition shown : CollabState.t :=
  onMessage blank (FromServer (State (buildStatePayload studio))).

Definition command (type : string) (path text : option Element.t)
  : ClientMessage.t :=
  ClientMessage.mk (Some type)
    (JoinMessage.mk None None None Password.Nothing)
    (0%Z, 0%Z) path None text None None None.

(** The registry after "user-0" added [text1] in "studio". *)
Definition written : JsMap.t Room :=
  (handleMessage Sample.digest Sample.trim opened "user-0" (Some "studio")
     (Parsed (command "text:add" None (Some Sample.text1))) 0%Z "" 0%Z).1.1.

Definition desk : Room := default Sample.room0 (getRoom written "studio").

(** The client of "user-0" once it has the state of "studio" with the
    text. *)
Definition shownDesk : CollabState.t :=
  onMessage blank (FromServer (State (buildStatePayload desk))).

(** A stroke with a jitter at its start and near its end. *)
Definition stroke : list Point.t :=
  [ Point.mk 0 0; Point.mk 1 0; Point.mk 3 0; Point.mk 4 0; Point.mk 10 0 ].
End Scene.


(** * Properties *)

(** ** Arrays *)

Section ArrayFacts.
Context {A : Type}.

Lemma pop_nil : pop (@nil A) = (None, []).
Proof. reflexivity. Qed.

Lemma pop_push (x : A) (arr : list A) : pop (push x arr) = (Some x, arr).
Proof.
  unfold pop, push. by rewrite last_snoc, removelast_last.
Qed.

Lemma pop_Some (arr : list A) (x : A) (rest : list A) :
  pop arr = (Some x, rest) -> arr = rest ++ [x].
Proof.
  unfold pop. intros [= Hlast <-].
  destruct arr as [|a arr] using rev_ind; [done|].
  rewrite last_snoc in Hlast. rewrite removelast_last. congruence.
Qed.

Lemma pop_None (arr : list A) (rest : list A) :
  pop arr = (None, rest) -> arr = [] /\ rest = [].
Proof.
  unfold pop. intros [= Hlast <-].
  destruct arr as [|a arr] using rev_ind; [done|].
  by rewrite last_snoc in Hlast.
Qed.
End ArrayFacts.

(** ** Maps *)

Module JsMapFacts.
Import JsMap.

Section Facts.
Context {V : Type}.
Implicit Types (k : JsStr) (v : V) (m : JsMap.t V).

Lemma get_empty k : get k (@empty V) = None.
Proof. reflexivity. Qed.

Lemma get_set_eq k v m : get k (set k v m) = Some v.
Proof.
  induction m as [|[k' v'] m IH]; simpl.
  - by rewrite decide_True.
  - destruct (decide (k' = k)) as [->|Hne]; simpl.
    + by rewrite decide_True.
    + by rewrite decide_False.
Qed.

Lemma get_set_ne k k' v m : k <> k' -> get k' (set k v m) = get k' m.
Proof.
  intros Hne. induction m as [|[k0 v0] m IH]; simpl.
  - by rewrite decide_False.
  - destruct (decide (k0 = k)) as [->|Hk0]; simpl.
    + by rewrite !decide_False.
    + destruct (decide (k0 = k')); [done|apply IH].
Qed.

Lemma get_set k k' v m :
  get k' (set k v m) = if decide (k = k') then Some v else get k' m.
Proof.
  destruct (decide (k = k')) as [->|Hne];
    [apply get_set_eq|by apply get_set_ne].
Qed.

Lemma get_delete_eq k m : get k (delete k m) = None.
Proof.
  induction m as [|[k' v'] m IH]; simpl; [done|].
  destruct (decide (k' = k)); simpl; [done|]. by rewrite decide_False.
Qed.

Lemma get_delete_ne k k' m : k <> k' -> get k' (delete k m) = get k' m.
Proof.
  intros Hne. induction m as [|[k0 v0] m IH]; simpl; [done|].
  destruct (decide (k0 = k)) as [->|Hk0]; simpl.
  - by rewrite decide_False.
  - destruct (decide (k0 = k')); [done|apply IH].
Qed.

Lemma get_delete k k' m :
  get k' (delete k m) = if decide (k = k') then None else get k' m.
Proof.
  destruct (decide (k = k')) as [->|Hne];
    [apply get_delete_eq|by apply get_delete_ne].
Qed.

Lemma has_true k m : has k m = true <-> exists v, get k m = Some v.
Proof.
  unfold has. destruct (get k m); split; eauto; try done.
  by intros [? ?].
Qed.

Lemma has_false k m : has k m = false <-> get k m = None.
Proof. unfold has. by destruct (get k m). Qed.

Lemma get_Some_elem_of k v m : get k m = Some v -> (k, v) ∈ m.
Proof.
  induction m as [|[k' v'] m IH]; simpl; [done|].
  destruct (decide (k' = k)) as [->|Hne].
  - intros [= ->]. left.
  - intros Hget. right. by apply IH.
Qed.

Lemma get_None_keys k m : get k m = None <-> k ∉ keys m.
Proof.
  unfold keys. induction m as [|[k' v'] m IH]; simpl.
  - split; [intros _; apply not_elem_of_nil|done].
  - rewrite not_elem_of_cons. destruct (decide (k' = k)) as [->|Hne].
    + split; [done|]. by intros [? _].
    + rewrite IH. split; [by split|by intros [_ ?]].
Qed.

Lemma elem_of_get k v m : NoDup (keys m) -> (k, v) ∈ m -> get k m = Some v.
Proof.
  unfold keys. induction m as [|[k' v'] m IH]; simpl.
  - intros _ Hin. by apply elem_of_nil in Hin.
  - rewrite NoDup_cons. intros [Hk' Hnd] Hin.
    apply elem_of_cons in Hin as [[= -> ->]|Hin].
    + by rewrite decide_True.
    + destruct (decide (k' = k)) as [->|Hne]; [|by apply IH].
      exfalso. apply Hk'. apply list_elem_of_fmap. by exists (k, v).
Qed.

Lemma keys_set k v m :
  keys (set k v m) = if has k m then keys m else keys m ++ [k].
Proof.
  induction m as [|[k' v'] m IH]; [done|].
  unfold keys, has in *. cbn [set get].
  destruct (decide (k' = k)) as [->|Hne]; [done|].
  rewrite fmap_cons, IH. by destruct (get k m).
Qed.

Lemma NoDup_keys_set k v m : NoDup (keys m) -> NoDup (keys (set k v m)).
Proof.
  intros Hnd. rewrite keys_set. destruct (has k m) eqn:Hhas; [done|].
  apply NoDup_app. split_and!; [done| |apply NoDup_singleton].
  intros x Hx ->%list_elem_of_singleton.
  apply has_false, get_None_keys in Hhas. by apply Hhas.
Qed.

Lemma keys_delete k m : keys (delete k m) = filter (λ k', k' <> k) (keys m).
Proof.
  induction m as [|[k' v'] m IH]; [done|].
  unfold keys in *. cbn [delete]. rewrite fmap_cons. cbn [fst].
  destruct (decide (k' = k)) as [->|Hne].
  - rewrite filter_cons_False; [done|]. by intros ?.
  - rewrite filter_cons_True; [|done]. by rewrite fmap_cons, IH.
Qed.

Lemma NoDup_keys_delete k m : NoDup (keys m) -> NoDup (keys (delete k m)).
Proof. intros Hnd. rewrite keys_delete. by apply NoDup_filter. Qed.
End Facts.
End JsMapFacts.

(** ** The field tests *)

(** [collectionOf] chooses the collection the fields select, and none
    exactly for an element without type, [content] and [dataUrl]. *)
Lemma collectionOf_selects (e : Element.t) (c : Collection) :
  collectionOf e = Some c <-> selects e c.
Proof.
  unfold collectionOf. split.
  - destruct (decide (Element.type e = Some "path")) as [Hpath|Hpath].
    { intros [= <-]. by constructor. }
    destruct (truthy (Element.type e)) eqn:Htype.
    { intros [= <-]. by constructor. }
    destruct (Element.content e) as [|value] eqn:Hcontent.
    + destruct (Element.dataUrl e) as [|value] eqn:Hurl; [done|].
      intros [= <-]. by econstructor.
    + intros [= <-]. by econstructor.
  - intros [Hpath|Htype Hpath|value Htype Hcontent|value Htype Hcontent Hurl].
    + by rewrite decide_True.
    + by rewrite decide_False, Htype.
    + rewrite decide_False, Htype, Hcontent; [done|].
      intros Hpath. by rewrite Hpath in Htype.
    + rewrite decide_False, Htype, Hcontent, Hurl; [done|].
      intros Hpath. by rewrite Hpath in Htype.
Qed.

Lemma collectionOf_unplaced (e : Element.t) :
  collectionOf e = None <-> unplaced e.
Proof.
  unfold collectionOf, unplaced. split.
  - destruct (decide _); [done|]. destruct (truthy _); [done|].
    by destruct (Element.content e), (Element.dataUrl e).
  - intros (Htype & -> & ->). rewrite Htype, decide_False; [done|].
    intros Hpath. by rewrite Hpath in Htype.
Qed.

(** ** The room record *)

Lemma setCommittedIds_id (r : Room) : setCommittedIds (committedIds r) r = r.
Proof. by destruct r. Qed.

Lemma collection_setCollection (c c' : Collection) m (r : Room) :
  collection c' (setCollection c m r) = if decide (c = c') then m
                                        else collection c' r.
Proof. by destruct c, c'. Qed.

Lemma collection_setCollection_eq (c : Collection) m (r : Room) :
  collection c (setCollection c m r) = m.
Proof. by destruct c. Qed.

Lemma collection_setCollection_ne (c c' : Collection) m (r : Room) :
  c <> c' -> collection c' (setCollection c m r) = collection c' r.
Proof. by destruct c, c'. Qed.

Lemma includes_true (x : JsStr) (arr : list JsStr) :
  includes x arr = true <-> x ∈ arr.
Proof. unfold includes. by rewrite bool_decide_eq_true. Qed.

Lemma includes_false (x : JsStr) (arr : list JsStr) :
  includes x arr = false <-> x ∉ arr.
Proof. unfold includes. by rewrite bool_decide_eq_false. Qed.

(** ** Undo and redo on an empty history *)

(** C8: with an empty [committedIds], [undo] returns [null] and leaves the
    room as it is; with an empty [redoStack], [redo] returns [null] and leaves
    the room as it is. *)
Theorem undo_redo_empty_noop (room : Room) :
  (committedIds room = [] -> undo room = (None, room)) /\
  (redoStack room = [] -> redo room = (None, room)).
Proof.
  split; intros Hempty.
  - unfold undo. rewrite Hempty, pop_nil. cbn.
    by rewrite <- Hempty, setCommittedIds_id.
  - unfold redo. by rewrite Hempty, pop_nil.
Qed.

(** ** Upsert and commit *)

(** Closes [storedUnder] goals on a room written with the setters. *)
Ltac stored_under :=
  unfold storedUnder; cbn;
  split_and!;
  [ apply JsMapFacts.get_set_eq
  | intros ? ?; by apply JsMapFacts.get_set_ne
  | by intros [] ?
  | done.. ].

Lemma upsertStatus_rule (room : Room) (e : Element.t) :
  statusRule room e (upsertStatus room e).
Proof.
  unfold statusRule, upsertStatus.
  destruct (truthy (Element.status e)); [by split_and!|].
  destruct (includes (Element.id e) (committedIds room)) eqn:Hin.
  - apply includes_true in Hin. by split_and!.
  - apply includes_false in Hin. by split_and!.
Qed.

(** C5: [upsertPath] and [upsertShape] return [null] and leave the room as it
    is when the element is missing or has no (non-empty) id; otherwise they
    store the element under its id in [pathsById] (resp. [shapesById]) with
    the status it declares, else "committed" when its id is in [committedIds],
    else "in-progress", change nothing else, and return the element stored. *)
Theorem upsert_stores_with_status (room : Room) :
  (upsertPath room None = (None, room) /\
   upsertShape room None = (None, room)) /\
  (forall e,
     truthy (Element.id e) = false ->
     upsertPath room (Some e) = (None, room) /\
     upsertShape room (Some e) = (None, room)) /\
  (forall e,
     truthy (Element.id e) = true ->
     (exists stored room',
        upsertPath room (Some e) = (Some stored, room') /\
        storedUnder Paths (Element.id e) stored room room' /\
        committedIds room' = committedIds room /\
        redoStack room' = redoStack room /\
        statusRule room e (Element.status stored) /\
        Element.type stored = Some "path" /\
        (Element.id stored, Element.content stored, Element.dataUrl stored,
         Element.rest stored)
        = (Element.id e, Element.content e, Element.dataUrl e,
           Element.rest e)) /\
     (exists stored room',
        upsertShape room (Some e) = (Some stored, room') /\
        storedUnder Shapes (Element.id e) stored room room' /\
        committedIds room' = committedIds room /\
        redoStack room' = redoStack room /\
        statusRule room e (Element.status stored) /\
        (Element.id stored, Element.type stored, Element.content stored,
         Element.dataUrl stored, Element.rest stored)
        = (Element.id e, Element.type e, Element.content e,
           Element.dataUrl e, Element.rest e))).
Proof.
  split_and!; [done|done| |].
  - intros e Hid. unfold upsertPath, upsertShape. by rewrite Hid.
  - intros e Hid. unfold upsertPath, upsertShape. rewrite Hid. cbn [negb].
    split; eexists _, _; (split; [reflexivity|]).
    + split_and!; try done.
      * stored_under.
      * apply upsertStatus_rule.
    + split_and!; try done.
      * stored_under.
      * apply upsertStatus_rule.
Qed.

(** C3, as the code has it: [commitPath] looks the id up in [pathsById] only
    and [commitShape] in [shapesById] only.  Each returns [null] and leaves the
    room as it is when the id is empty or not in its own collection; otherwise
    it appends the id to [committedIds] unless it is there, empties
    [redoStack], stores the element with status "committed" and returns it. *)
Theorem commit_own_collection (room : Room) (k : JsStr) :
  (truthy k = false \/ JsMap.get k (pathsById room) = None ->
   commitPath room k = (None, room)) /\
  (truthy k = false \/ JsMap.get k (shapesById room) = None ->
   commitShape room k = (None, room)) /\
  (forall e,
     truthy k = true -> JsMap.get k (pathsById room) = Some e ->
     committedAs Paths k e room (commitPath room k)) /\
  (forall e,
     truthy k = true -> JsMap.get k (shapesById room) = Some e ->
     committedAs Shapes k e room (commitShape room k)).
Proof.
  split_and!.
  - unfold commitPath. intros [->| ->]; [done|]. by destruct (truthy k).
  - unfold commitShape. intros [->| ->]; [done|]. by destruct (truthy k).
  - intros e Hk He. unfold commitPath, committedAs. rewrite Hk, He. cbn [negb].
    destruct (includes k (committedIds room)) eqn:Hin; cbn [negb fst snd].
    + apply includes_true in Hin.
      split_and!; [done|stored_under|done|done|done].
    + apply includes_false in Hin.
      split_and!; [done|stored_under|done|done|done].
  - intros e Hk He. unfold commitShape, committedAs. rewrite Hk, He.
    cbn [negb].
    destruct (includes k (committedIds room)) eqn:Hin; cbn [negb fst snd].
    + apply includes_true in Hin.
      split_and!; [done|stored_under|done|done|done].
    + apply includes_false in Hin.
      split_and!; [done|stored_under|done|done|done].
Qed.

(** ** Sessions *)

Lemma storeIn_frame (target : option Collection) (k : JsStr) (e : Element.t)
    (room : Room) :
  let room' := storeIn target k e room in
  clients room' = clients room /\ sessions room' = sessions room /\
  roomType room' = roomType room /\ passwordHash room' = passwordHash room /\
  redoStack room' = redoStack room /\ committedIds room' = committedIds room.
Proof. destruct target as [[]|]; by cbn. Qed.

Lemma loadElement_frame (room : Room) (e : Element.t) :
  let room' := loadElement room e in
  clients room' = clients room /\ sessions room' = sessions room /\
  roomType room' = roomType room /\ passwordHash room' = passwordHash room /\
  redoStack room' = redoStack room.
Proof.
  unfold loadElement.
  destruct (storeIn_frame (collectionOf e) (Element.id e) e room)
    as (? & ? & ? & ? & ? & ?).
  by destruct (decide _); cbn.
Qed.

Lemma loadElements_frame (elements : list Element.t) (room : Room) :
  let room' := foldl loadElement room elements in
  clients room' = clients room /\ sessions room' = sessions room /\
  roomType room' = roomType room /\ passwordHash room' = passwordHash room /\
  redoStack room' = redoStack room.
Proof.
  revert room. induction elements as [|e elements IH]; intros room; [done|].
  cbn [foldl]. destruct (IH (loadElement room e)) as (-> & -> & -> & -> & ->).
  apply loadElement_frame.
Qed.

Lemma clear_ext (r1 r2 : Room) :
  clients r1 = clients r2 -> sessions r1 = sessions r2 ->
  roomType r1 = roomType r2 -> passwordHash r1 = passwordHash r2 ->
  clear r1 = clear r2.
Proof. unfold clear. by intros -> -> -> ->. Qed.

Lemma loadSession_Some (room : Room) (sessionId : JsStr) (session : Session.t) :
  JsMap.get sessionId (sessions room) = Some session ->
  loadSession room sessionId =
    (Some (Session.elements session),
     foldl loadElement (clear room) (Session.elements session)).
Proof. unfold loadSession. by intros ->. Qed.

(** C6: loading a session that exists a second time gives the result and the
    room of the first load. *)
Theorem loadSession_idempotent (room : Room) (sessionId : JsStr)
    (session : Session.t) :
  JsMap.get sessionId (sessions room) = Some session ->
  loadSession (loadSession room sessionId).2 sessionId
  = loadSession room sessionId.
Proof.
  intros Hget. rewrite (loadSession_Some room sessionId session Hget).
  cbn [snd].
  destruct (loadElements_frame (Session.elements session) (clear room))
    as (Hc & Hs & Ht & Hp & _).
  rewrite (loadSession_Some _ sessionId session) by (by rewrite Hs).
  f_equal. f_equal. by apply clear_ext.
Qed.

(** ** Undo followed by redo *)

Lemma withStatus_committed_id (e : Element.t) :
  Element.status e = Some COMMITTED ->
  Element.withStatus (Some COMMITTED) e = e.
Proof. destruct e; cbn. by intros ->. Qed.

(** [undo] on a history that ends with the non-empty id [k], held as [e] in
    the collection [c]. *)
Lemma undo_last (room : Room) (ids : list JsStr) (k : JsStr) (c : Collection)
    (e : Element.t) :
  committedIds room = ids ++ [k] ->
  truthy k = true ->
  holder room k = Some c ->
  JsMap.get k (collection c room) = Some e ->
  undo room =
    (Some e,
     setRedoStack (push (RedoItem.mk k e) (redoStack room))
       (setCollection c (JsMap.delete k (collection c room))
          (setCommittedIds ids room))).
Proof.
  intros Hids Hk Hholder Hget. unfold undo.
  change (ids ++ [k]) with (push k ids) in Hids. rewrite Hids, pop_push.
  cbn [mjoin option_join]. rewrite Hk. cbn [negb].
  replace (holder (setCommittedIds ids room) k) with (holder room k)
    by reflexivity.
  rewrite Hholder.
  replace (collection c (setCommittedIds ids room)) with (collection c room)
    by (by destruct c).
  rewrite Hget. by destruct c.
Qed.

(** C2, as the code has it: when the last id of [committedIds] is not empty
    and the first collection that has it holds it as an element with status
    "committed" which the field tests of [redo] send back to that collection,
    [undo] followed by [redo] gives a room with the content it had: the same
    element under every id, the same [committedIds] and [redoStack].  After
    [clear], and after a [loadSession] that found its session, [redoStack] is
    empty and [redo] is a no-op. *)
Theorem undo_redo_roundtrip (room : Room) :
  (forall ids k c e,
     committedIds room = ids ++ [k] ->
     truthy k = true ->
     holder room k = Some c ->
     JsMap.get k (collection c room) = Some e ->
     Element.status e = Some "committed" ->
     collectionOf e = Some c ->
     (undo room).1 = Some e /\
     (redo (undo room).2).1 = Some e /\
     sameContent (redo (undo room).2).2 room) /\
  (redoStack (clear room) = [] /\ redo (clear room) = (None, clear room)) /\
  (forall sessionId elements room',
     loadSession room sessionId = (Some elements, room') ->
     redoStack room' = [] /\ redo room' = (None, room')).
Proof.
  split_and!; [|done|done|].
  - intros ids k c e Hids Hk Hholder Hget Hstatus Hkind.
    rewrite (undo_last room ids k c e) by done. cbn [fst snd].
    unfold redo. cbn [redoStack setRedoStack]. rewrite pop_push.
    cbn [RedoItem.id RedoItem.element]. rewrite Hkind.
    rewrite withStatus_committed_id by done.
    split_and!; [done|done|]. unfold sameContent.
    split_and!; try by destruct c.
    intros c' k'. destruct c, c'; cbn; try done.
    all: rewrite JsMapFacts.get_set; destruct (decide (k = k')) as [<-|Hne];
      [done|by apply JsMapFacts.get_delete_ne].
  - intros sessionId elements room' Hload. unfold loadSession in Hload.
    destruct (JsMap.get sessionId (sessions room)) as [session|]; [|done].
    injection Hload as _ <-.
    destruct (loadElements_frame (Session.elements session) (clear room))
      as (_ & _ & _ & _ & Hredo).
    cbn in Hredo. split; [done|].
    unfold redo. by rewrite Hredo, pop_nil.
Qed.

(** ** The history invariant *)

Lemma heldCommitted_frame (room room' : Room) (k : JsStr) :
  (forall c, JsMap.get k (collection c room') = JsMap.get k (collection c room)) ->
  heldCommitted room k -> heldCommitted room' k.
Proof.
  intros Hframe (c & e & Hget & Hstatus). exists c, e.
  by rewrite Hframe.
Qed.

(** A room whose history is part of the history of a consistent room, with
    the elements of those ids untouched, is consistent. *)
Lemma historyConsistent_shrink (room room' : Room) :
  NoDup (committedIds room') ->
  (forall k, k ∈ committedIds room' ->
     k ∈ committedIds room /\
     forall c, JsMap.get k (collection c room')
               = JsMap.get k (collection c room)) ->
  historyConsistent room -> historyConsistent room'.
Proof.
  intros Hnodup Hsub [_ Hheld]. split; [done|].
  apply Forall_forall. intros k Hk. destruct (Hsub k Hk) as [Hold Hframe].
  apply (heldCommitted_frame room); [done|].
  by apply (proj1 (Forall_forall _ _) Hheld).
Qed.

(** Storing one element keeps the history consistent when the element is
    committed if its id is in the history, and the history gained no other
    id. *)
Lemma historyConsistent_stored (c : Collection) (k : JsStr) (e : Element.t)
    (room room' : Room) :
  storedUnder c k e room room' ->
  (k ∈ committedIds room' -> Element.status e = Some COMMITTED) ->
  NoDup (committedIds room') ->
  (forall k', k' ∈ committedIds room' -> k' = k \/ k' ∈ committedIds room) ->
  historyConsistent room -> historyConsistent room'.
Proof.
  intros (Hget & Hother & Hcoll & _) Hstatus Hnodup Hids [_ Hheld].
  split; [done|]. apply Forall_forall. intros k' Hk'.
  destruct (decide (k' = k)) as [->|Hne].
  - exists c, e. auto.
  - destruct (Hids k' Hk') as [?|Hold]; [done|].
    apply (heldCommitted_frame room);
      [|by apply (proj1 (Forall_forall _ _) Hheld)].
    intros c'. destruct (decide (c = c')) as [<-|Hc].
    + apply Hother. congruence.
    + by rewrite Hcoll.
Qed.

Lemma NoDup_push (k : JsStr) (ids : list JsStr) :
  NoDup ids -> k ∉ ids -> NoDup (push k ids).
Proof.
  intros Hnodup Hk. unfold push. apply NoDup_app. split_and!; [done| |].
  - intros x Hx ->%list_elem_of_singleton. done.
  - apply NoDup_singleton.
Qed.

Lemma elem_of_push (k k' : JsStr) (ids : list JsStr) :
  k' ∈ push k ids <-> k' = k \/ k' ∈ ids.
Proof.
  unfold push. rewrite elem_of_app, list_elem_of_singleton. tauto.
Qed.

Lemma upsertPath_history (room : Room) (path : option Element.t) :
  historyConsistent room -> keepsHistory room (UpsertPath path) ->
  historyConsistent (upsertPath room path).2.
Proof.
  intros Hinv Hsafe. destruct path as [e|]; [|done]. unfold upsertPath.
  destruct (truthy (Element.id e)) eqn:Hid; [|done]. cbn [negb snd].
  apply (historyConsistent_stored Paths (Element.id e)
           (Element.withTypeStatus (Some "path") (upsertStatus room e) e) room);
    [stored_under| |apply Hinv|by right|done].
  cbn. intros Hin. unfold upsertStatus.
  destruct (truthy (Element.status e)) eqn:Hstatus; [by apply Hsafe|].
  apply includes_true in Hin. by rewrite Hin.
Qed.

Lemma upsertShape_history (room : Room) (shape : option Element.t) :
  historyConsistent room -> keepsHistory room (UpsertShape shape) ->
  historyConsistent (upsertShape room shape).2.
Proof.
  intros Hinv Hsafe. destruct shape as [e|]; [|done]. unfold upsertShape.
  destruct (truthy (Element.id e)) eqn:Hid; [|done]. cbn [negb snd].
  apply (historyConsistent_stored Shapes (Element.id e)
           (Element.withStatus (upsertStatus room e) e) room);
    [stored_under| |apply Hinv|by right|done].
  cbn. intros Hin. unfold upsertStatus.
  destruct (truthy (Element.status e)) eqn:Hstatus; [by apply Hsafe|].
  apply includes_true in Hin. by rewrite Hin.
Qed.

Lemma commitPath_history (room : Room) (pathId : JsStr) :
  historyConsistent room -> historyConsistent (commitPath room pathId).2.
Proof.
  intros Hinv. unfold commitPath.
  destruct (truthy pathId); [|done]. cbn [negb].
  destruct (JsMap.get pathId (pathsById room)) as [e|] eqn:Hget; [|done].
  destruct (includes pathId (committedIds room)) eqn:Hin; cbn [negb snd].
  - apply (historyConsistent_stored Paths pathId
             (Element.withStatus (Some COMMITTED) e) room);
      [stored_under|done|apply Hinv|by right|done].
  - apply includes_false in Hin.
    apply (historyConsistent_stored Paths pathId
             (Element.withStatus (Some COMMITTED) e) room);
      [stored_under|done| | |done]; cbn.
    + apply NoDup_push; [apply Hinv|done].
    + intros k'. apply elem_of_push.
Qed.

Lemma commitShape_history (room : Room) (shapeId : JsStr) :
  historyConsistent room -> historyConsistent (commitShape room shapeId).2.
Proof.
  intros Hinv. unfold commitShape.
  destruct (truthy shapeId); [|done]. cbn [negb].
  destruct (JsMap.get shapeId (shapesById room)) as [e|] eqn:Hget; [|done].
  destruct (includes shapeId (committedIds room)) eqn:Hin; cbn [negb snd].
  - apply (historyConsistent_stored Shapes shapeId
             (Element.withStatus (Some COMMITTED) e) room);
      [stored_under|done|apply Hinv|by right|done].
  - apply includes_false in Hin.
    apply (historyConsistent_stored Shapes shapeId
             (Element.withStatus (Some COMMITTED) e) room);
      [stored_under|done| | |done]; cbn.
    + apply NoDup_push; [apply Hinv|done].
    + intros k'. apply elem_of_push.
Qed.

Lemma addText_history (room : Room) (text : option Element.t) :
  historyConsistent room -> keepsHistory room (AddText text) ->
  historyConsistent (addText room text).2.
Proof.
  intros Hinv Hsafe. destruct text as [e|]; [|done]. unfold addText.
  destruct (truthy (Element.id e)); [|done]. cbn [negb snd].
  apply (historyConsistent_stored Texts (Element.id e)
           (Element.withStatus (Some COMMITTED) e) room);
    [stored_under|done| | |done]; cbn.
  - apply NoDup_push; [apply Hinv|done].
  - intros k'. apply elem_of_push.
Qed.

Lemma addImage_history (room : Room) (image : option Element.t) :
  historyConsistent room -> keepsHistory room (AddImage image) ->
  historyConsistent (addImage room image).2.
Proof.
  intros Hinv Hsafe. destruct image as [e|]; [|done]. unfold addImage.
  destruct (truthy (Element.id e)); [|done]. cbn [negb snd].
  apply (historyConsistent_stored Images (Element.id e)
           (Element.withStatus (Some COMMITTED) e) room);
    [stored_under|done| | |done]; cbn.
  - apply NoDup_push; [apply Hinv|done].
  - intros k'. apply elem_of_push.
Qed.

Lemma undo_history (room : Room) :
  historyConsistent room -> historyConsistent (undo room).2.
Proof.
  intros Hinv. unfold undo.
  destruct (pop (committedIds room)) as [[lastId|] ids] eqn:Hpop.
  - apply pop_Some in Hpop.
    assert (NoDup ids /\ lastId ∉ ids) as [Hnodup Hlast].
    { destruct Hinv as [Hnd _]. rewrite Hpop in Hnd.
      apply NoDup_app in Hnd as (? & Hdisj & _). split; [done|].
      intros Hin. apply (Hdisj lastId Hin). by apply list_elem_of_singleton. }
    assert (historyConsistent (setCommittedIds ids room)) as Hpopped.
    { apply (historyConsistent_shrink room); [done| |done].
      intros k Hk. split; [|by intros []].
      rewrite Hpop. apply elem_of_app. by left. }
    cbn [mjoin option_join]. destruct (truthy lastId); [|done]. cbn [negb].
    destruct (holder (setCommittedIds ids room) lastId) as [c|]; [|done].
    destruct (JsMap.get lastId (collection c (setCommittedIds ids room)));
      [|done].
    cbn [snd]. apply (historyConsistent_shrink (setCommittedIds ids room));
      [by destruct c| |done].
    intros k Hk. assert (k ∈ ids) as Hin by (by destruct c).
    split; [by destruct c|]. intros c'.
    assert (lastId <> k) as Hne by (by intros ->).
    destruct c, c'; cbn; try done; by apply JsMapFacts.get_delete_ne.
  - apply pop_None in Hpop as [Hempty ->]. cbn.
    by rewrite <- Hempty, setCommittedIds_id.
Qed.

Lemma redo_history (room : Room) :
  historyConsistent room -> keepsHistory room Redo ->
  historyConsistent (redo room).2.
Proof.
  intros Hinv Hsafe. unfold redo.
  destruct (pop (redoStack room)) as [[item|] stack] eqn:Hpop; [|done].
  destruct (Hsafe item stack Hpop) as [Hfresh Hkind]. cbn [snd].
  destruct (collectionOf (RedoItem.element item)) as [c|]; [|done].
  apply (historyConsistent_stored c (RedoItem.id item)
           (Element.withStatus (Some COMMITTED) (RedoItem.element item)) room);
    [destruct c; stored_under|done| | |done].
  - destruct c; cbn; (apply NoDup_push; [apply Hinv|done]).
  - intros k'. destruct c; cbn; apply elem_of_push.
Qed.

Lemma clear_history (room : Room) : historyConsistent (clear room).
Proof. split; cbn; [apply NoDup_nil_2|apply Forall_nil_2]. Qed.

Lemma saveSession_history (room : Room) (sessionName : JsStr) (now : Z)
    (suffix : string) (createdAt : Z) :
  historyConsistent room ->
  historyConsistent (saveSession room sessionName now suffix createdAt).2.
Proof.
  intros Hinv. apply (historyConsistent_shrink room); [apply Hinv| |done].
  intros k Hk. split; [done|]. by intros [].
Qed.

(** The ids [loadSession] puts into [committedIds]. *)
Lemma loadElements_committedIds (elements : list Element.t) (room : Room) :
  committedIds (foldl loadElement room elements)
  = committedIds room ++
    (Element.id <$>
       filter (fun e => Element.status e = Some COMMITTED) elements).
Proof.
  revert room. induction elements as [|e elements IH]; intros room.
  - cbn. by rewrite app_nil_r.
  - cbn [foldl]. rewrite IH. unfold loadElement.
    destruct (storeIn_frame (collectionOf e) (Element.id e) e room)
      as (_ & _ & _ & _ & _ & Hids).
    cbn zeta in Hids.
    destruct (decide (Element.status e = Some COMMITTED)) as [Hc|Hc].
    + rewrite filter_cons_True by done. rewrite fmap_cons. cbn. unfold push.
      by rewrite Hids, <- app_assoc.
    + rewrite filter_cons_False by done. by rewrite Hids.
Qed.

Lemma loadElement_get_ne (room : Room) (e : Element.t) (k : JsStr)
    (c : Collection) :
  Element.id e <> k ->
  JsMap.get k (collection c (loadElement room e))
  = JsMap.get k (collection c room).
Proof.
  intros Hne. unfold loadElement.
  assert (JsMap.get k
            (collection c (storeIn (collectionOf e) (Element.id e) e room))
          = JsMap.get k (collection c room)) as Hstore.
  { destruct (collectionOf e) as [c'|]; [|done]. cbn [storeIn].
    rewrite collection_setCollection. destruct (decide (c' = c)) as [->|_];
      [by apply JsMapFacts.get_set_ne|done]. }
  destruct (decide _); [|done]. rewrite <- Hstore. by destruct c.
Qed.

Lemma loadElement_get_eq (room : Room) (e : Element.t) (c : Collection) :
  collectionOf e = Some c ->
  JsMap.get (Element.id e) (collection c (loadElement room e)) = Some e.
Proof.
  intros Hkind. unfold loadElement. rewrite Hkind. cbn [storeIn].
  destruct (decide _); destruct c; cbn; apply JsMapFacts.get_set_eq.
Qed.

Lemma loadElements_get_ne (elements : list Element.t) (room : Room)
    (k : JsStr) (c : Collection) :
  k ∉ Element.id <$> elements ->
  JsMap.get k (collection c (foldl loadElement room elements))
  = JsMap.get k (collection c room).
Proof.
  revert room. induction elements as [|e elements IH]; intros room Hk; [done|].
  cbn [foldl]. rewrite fmap_cons in Hk.
  apply not_elem_of_cons in Hk as [Hne Hk].
  rewrite IH by done. by apply loadElement_get_ne.
Qed.

(** With distinct ids, every element the field tests place is found under its
    id after the load. *)
Lemma loadElements_get (elements : list Element.t) (room : Room)
    (e : Element.t) (c : Collection) :
  NoDup (Element.id <$> elements) ->
  e ∈ elements ->
  collectionOf e = Some c ->
  JsMap.get (Element.id e) (collection c (foldl loadElement room elements))
  = Some e.
Proof.
  revert room. induction elements as [|e' elements IH]; intros room Hnodup Hin Hc.
  - by apply elem_of_nil in Hin.
  - rewrite fmap_cons in Hnodup.
    apply NoDup_cons in Hnodup as [Hfresh Hnodup].
    cbn [foldl]. apply elem_of_cons in Hin as [->|Hin].
    + rewrite loadElements_get_ne by done. by apply loadElement_get_eq.
    + by apply IH.
Qed.

Lemma loadSession_history (room : Room) (sessionId : JsStr) :
  historyConsistent room -> keepsHistory room (LoadSession sessionId) ->
  historyConsistent (loadSession room sessionId).2.
Proof.
  intros Hinv Hsafe. unfold loadSession.
  destruct (JsMap.get sessionId (sessions room)) as [session|] eqn:Hget;
    [|done].
  destruct (Hsafe session Hget) as [Hnodup Hplaced]. cbn [snd].
  set (elements := Session.elements session) in *.
  split.
  - rewrite loadElements_committedIds. cbn [clear committedIds app].
    apply (sublist_NoDup _ _ Hnodup), fmap_sublist, sublist_filter.
  - apply Forall_forall. intros k.
    rewrite loadElements_committedIds. cbn [clear committedIds app].
    intros (e & -> & [Hstatus Hin]%list_elem_of_filter)%list_elem_of_fmap.
    destruct (collectionOf e) as [c|] eqn:Hkind.
    + exists c, e. split; [|done]. by apply loadElements_get.
    + exfalso. by apply (proj1 (Forall_forall _ _) Hplaced e Hin).
Qed.

(** C1, as the code has it: a new room has a [committedIds] free of
    duplicates with every id stored as a committed element, an operation of
    the engine keeps it so on the inputs of [keepsHistory], and so it is in
    every room reached through such inputs.  These are: always for
    [commitPath], [commitShape], [undo], [clear] and [saveSession]; for an
    upsert that declares no status other than "committed" for an id of
    [committedIds]; for a text or an image whose id is not in [committedIds];
    for a [redo] of an id that is not in [committedIds] with an element the
    field tests place; for the load of a session whose elements have distinct
    ids, the committed ones placed by the field tests. *)
Theorem history_preserved :
  (forall options, historyConsistent (createRoom options)) /\
  (forall room op,
     historyConsistent room ->
     keepsHistory room op ->
     historyConsistent (run op room)) /\
  (forall room, reachable keepsHistory room -> historyConsistent room).
Proof.
  assert (forall options, historyConsistent (createRoom options)) as Hnew.
  { intros options. split; cbn; [apply NoDup_nil_2|apply Forall_nil_2]. }
  assert (forall room op,
            historyConsistent room -> keepsHistory room op ->
            historyConsistent (run op room)) as Hrun.
  { intros room op Hinv Hsafe. destruct op; cbn [run].
    - by apply upsertPath_history.
    - by apply commitPath_history.
    - by apply upsertShape_history.
    - by apply commitShape_history.
    - by apply addText_history.
    - by apply addImage_history.
    - by apply undo_history.
    - by apply redo_history.
    - apply clear_history.
    - by apply saveSession_history.
    - by apply loadSession_history. }
  split_and!; [done|done|].
  intros room Hreached. induction Hreached; auto.
Qed.

(** ** Disjoint collections *)

Lemma collectionsDisjoint_shrink (room room' : Room) :
  (forall k c, JsMap.has k (collection c room') = true ->
               JsMap.has k (collection c room) = true) ->
  collectionsDisjoint room -> collectionsDisjoint room'.
Proof. intros Hsub Hdisj k c1 c2 H1 H2. apply (Hdisj k); by apply Hsub. Qed.

Lemma storedUnder_has (c : Collection) (k : JsStr) (e : Element.t)
    (room room' : Room) (k' : JsStr) (c' : Collection) :
  storedUnder c k e room room' ->
  JsMap.has k' (collection c' room') = true ->
  (c' = c /\ k' = k) \/ JsMap.has k' (collection c' room) = true.
Proof.
  intros (Hget & Hother & Hcoll & _) Hhas.
  destruct (decide (c = c')) as [<-|Hc]; [|right; by rewrite <- Hcoll].
  destruct (decide (k = k')) as [<-|Hk]; [by left|right].
  unfold JsMap.has in *. by rewrite <- Hother.
Qed.

(** Storing an element under an id that no other collection has keeps the
    collections disjoint. *)
Lemma collectionsDisjoint_stored (c : Collection) (k : JsStr) (e : Element.t)
    (room room' : Room) :
  storedUnder c k e room room' ->
  freeFor room k c ->
  collectionsDisjoint room -> collectionsDisjoint room'.
Proof.
  intros Hstored Hfree Hdisj k' c1 c2 H1 H2.
  destruct (storedUnder_has c k e room room' k' c1 Hstored H1)
    as [[E1 Ek1]|Hold1],
    (storedUnder_has c k e room room' k' c2 Hstored H2)
    as [[E2 Ek2]|Hold2].
  - congruence.
  - subst c1 k'. symmetry. by apply Hfree.
  - subst c2 k'. by apply Hfree.
  - by apply (Hdisj k').
Qed.

Lemma has_delete (k k' : JsStr) (m : JsMap.t Element.t) :
  JsMap.has k' (JsMap.delete k m) = true -> JsMap.has k' m = true.
Proof.
  unfold JsMap.has. rewrite JsMapFacts.get_delete.
  by destruct (decide (k = k')).
Qed.

Lemma undo_disjoint (room : Room) :
  collectionsDisjoint room -> collectionsDisjoint (undo room).2.
Proof.
  apply collectionsDisjoint_shrink. intros k c. unfold undo.
  destruct (pop (committedIds room)) as [popped ids].
  destruct (truthy (mjoin popped)); cbn [negb]; [|by destruct c].
  destruct (holder (setCommittedIds ids room) (mjoin popped)) as [c'|];
    [|by destruct c].
  destruct (JsMap.get (mjoin popped) (collection c' (setCommittedIds ids room)));
    [|by destruct c].
  destruct c, c'; cbn; try done; apply has_delete.
Qed.

Lemma loadElement_has (room : Room) (e : Element.t) (k : JsStr)
    (c : Collection) :
  JsMap.has k (collection c (loadElement room e)) = true ->
  JsMap.has k (collection c room) = true \/
  (Element.id e = k /\ collectionOf e = Some c).
Proof.
  unfold loadElement.
  replace (collection c
     (if decide (Element.status e = Some COMMITTED)
      then
       setCommittedIds
         (push (Element.id e)
            (committedIds (storeIn (collectionOf e) (Element.id e) e room)))
         (storeIn (collectionOf e) (Element.id e) e room)
      else storeIn (collectionOf e) (Element.id e) e room))
    with (collection c (storeIn (collectionOf e) (Element.id e) e room))
    by (destruct (decide _); by destruct c).
  destruct (collectionOf e) as [c'|]; [|by left]. cbn [storeIn].
  rewrite collection_setCollection.
  destruct (decide (c' = c)) as [->|Hc]; [|by left].
  unfold JsMap.has. rewrite JsMapFacts.get_set.
  destruct (decide (Element.id e = k)); [by right|by left].
Qed.

Lemma loadElements_has (elements : list Element.t) (room : Room) (k : JsStr)
    (c : Collection) :
  JsMap.has k (collection c (foldl loadElement room elements)) = true ->
  JsMap.has k (collection c room) = true \/
  exists e, e ∈ elements /\ Element.id e = k /\ collectionOf e = Some c.
Proof.
  revert room. induction elements as [|e elements IH]; intros room Hhas.
  - by left.
  - cbn [foldl] in Hhas. destruct (IH _ Hhas) as [Hold|(e' & Hin & Hid & Hc)].
    + destruct (loadElement_has room e k c Hold) as [?|[Hid Hc]]; [by left|].
      right. exists e. split; [left|done].
    + right. exists e'. split; [by right|done].
Qed.

(** C4, as the code has it: no operation looks into a collection other than
    the one it writes.  The collections of a new room are disjoint, an
    operation keeps them disjoint on the inputs of [keepsDisjoint], and so
    they are in every room reached through such inputs.  These are: always
    for [commitPath], [commitShape], [undo], [clear] and [saveSession]; for an
    upsert, a text or an image whose id no other collection has; for a [redo]
    of an id no collection has but the one the field tests choose; for the
    load of a session in which two elements with one id go to one
    collection. *)
Theorem disjoint_preserved :
  (forall options, collectionsDisjoint (createRoom options)) /\
  (forall room op,
     collectionsDisjoint room ->
     keepsDisjoint room op ->
     collectionsDisjoint (run op room)) /\
  (forall room, reachable keepsDisjoint room -> collectionsDisjoint room).
Proof.
  assert (forall options, collectionsDisjoint (createRoom options)) as Hnew
    by (by intros options k [] []).
  assert (forall room op,
            collectionsDisjoint room -> keepsDisjoint room op ->
            collectionsDisjoint (run op room)) as Hrun.
  { intros room op Hdisj Hsafe. destruct op; cbn [run].
    - destruct path as [e|]; [|done]. unfold upsertPath.
      destruct (truthy (Element.id e)); [|done]. cbn [negb snd].
      eapply (collectionsDisjoint_stored Paths); [stored_under|exact Hsafe|done].
    - unfold commitPath. destruct (truthy pathId); [|done]. cbn [negb].
      destruct (JsMap.get pathId (pathsById room)) as [e|] eqn:Hget; [|done].
      cbn [snd].
      eapply (collectionsDisjoint_stored Paths pathId _ room);
        [destruct (includes _ _); stored_under| |done].
      intros c Hc. apply (Hdisj pathId); [done|].
      apply JsMapFacts.has_true. by exists e.
    - destruct shape as [e|]; [|done]. unfold upsertShape.
      destruct (truthy (Element.id e)); [|done]. cbn [negb snd].
      eapply (collectionsDisjoint_stored Shapes); [stored_under|exact Hsafe|done].
    - unfold commitShape. destruct (truthy shapeId); [|done]. cbn [negb].
      destruct (JsMap.get shapeId (shapesById room)) as [e|] eqn:Hget; [|done].
      cbn [snd].
      eapply (collectionsDisjoint_stored Shapes shapeId _ room);
        [destruct (includes _ _); stored_under| |done].
      intros c Hc. apply (Hdisj shapeId); [done|].
      apply JsMapFacts.has_true. by exists e.
    - destruct text as [e|]; [|done]. unfold addText.
      destruct (truthy (Element.id e)); [|done]. cbn [negb snd].
      eapply (collectionsDisjoint_stored Texts); [stored_under|exact Hsafe|done].
    - destruct image as [e|]; [|done]. unfold addImage.
      destruct (truthy (Element.id e)); [|done]. cbn [negb snd].
      eapply (collectionsDisjoint_stored Images); [stored_under|exact Hsafe|done].
    - by apply undo_disjoint.
    - unfold redo.
      destruct (pop (redoStack room)) as [[item|] stack] eqn:Hpop; [|done].
      cbn [snd].
      destruct (collectionOf (RedoItem.element item)) as [c|] eqn:Hkind.
      + eapply (collectionsDisjoint_stored c (RedoItem.id item) _ room);
          [destruct c; stored_under| |done].
        apply (Hsafe item stack c); [done|]. by apply collectionOf_selects.
      + revert Hdisj. apply collectionsDisjoint_shrink. by intros k [].
    - by intros k [] [].
    - revert Hdisj. apply collectionsDisjoint_shrink. by intros k [].
    - unfold loadSession.
      destruct (JsMap.get sessionId (sessions room)) as [session|] eqn:Hget;
        [|done].
      cbn [snd]. intros k c1 c2 H1 H2.
      apply loadElements_has in H1 as [H1|(e1 & Hin1 & Hid1 & Hc1)];
        [by destruct c1|].
      apply loadElements_has in H2 as [H2|(e2 & Hin2 & Hid2 & Hc2)];
        [by destruct c2|].
      apply (Hsafe session e1 e2); try done; [congruence| |];
        by apply collectionOf_selects. }
  split_and!; [done|done|].
  intros room Hreached. induction Hreached; auto.
Qed.

(** ** The list of sessions *)

Lemma insertByCreatedAt_elem_of (a x : SessionMeta.t)
    (sorted : list SessionMeta.t) :
  x ∈ insertByCreatedAt a sorted <-> x = a \/ x ∈ sorted.
Proof.
  induction sorted as [|b sorted IH]; cbn [insertByCreatedAt].
  - rewrite list_elem_of_singleton. split; [by left|].
    intros [?|Hin]; [done|]. by apply elem_of_nil in Hin.
  - destruct (_ <? _)%Z.
    + rewrite !elem_of_cons, IH. tauto.
    + rewrite !elem_of_cons. tauto.
Qed.

Lemma sortByCreatedAtDesc_elem_of (x : SessionMeta.t) (l : list SessionMeta.t) :
  x ∈ sortByCreatedAtDesc l <-> x ∈ l.
Proof.
  unfold sortByCreatedAtDesc. induction l as [|a l IH]; cbn [foldr]; [done|].
  rewrite insertByCreatedAt_elem_of, elem_of_cons, IH. tauto.
Qed.

Lemma insertByCreatedAt_headLatest (a : SessionMeta.t)
    (sorted : list SessionMeta.t) :
  headLatest sorted -> headLatest (insertByCreatedAt a sorted).
Proof.
  destruct sorted as [|b sorted]; cbn [insertByCreatedAt headLatest].
  - intros _. by repeat constructor.
  - intros Hb. destruct (_ <? _)%Z eqn:Hlt.
    + apply Z.ltb_lt in Hlt. cbn [headLatest].
      apply Forall_forall. intros x [->|Hx]%elem_of_cons; [lia|].
      apply insertByCreatedAt_elem_of in Hx as [->|Hx]; [lia|].
      apply (proj1 (Forall_forall _ _) Hb). by right.
    + apply Z.ltb_ge in Hlt. cbn [headLatest].
      apply Forall_forall. intros x [->|Hx]%elem_of_cons; [lia|].
      pose proof (proj1 (Forall_forall _ _) Hb x Hx) as Hle. cbn in Hle. lia.
Qed.

Lemma sortByCreatedAtDesc_headLatest (l : list SessionMeta.t) :
  headLatest (sortByCreatedAtDesc l).
Proof.
  unfold sortByCreatedAtDesc. induction l as [|a l IH]; cbn [foldr]; [done|].
  by apply insertByCreatedAt_headLatest.
Qed.

(** With distinct session ids, [getLatestSessionId] is the id of a session at
    least as recent as every other; it is [null] only without sessions. *)
Lemma getLatestSessionId_latest (room : Room) :
  NoDup (JsMap.keys (sessions room)) ->
  (0 < JsMap.size (sessions room))%nat ->
  exists session,
    JsMap.get (getLatestSessionId room) (sessions room) = Some session /\
    mostRecent session room.
Proof.
  intros Hnodup Hsize. unfold getLatestSessionId, buildSessionList.
  set (metas := map _ _).
  pose proof (sortByCreatedAtDesc_headLatest metas) as Hhead.
  pose proof (sortByCreatedAtDesc_elem_of) as Helem.
  destruct (sortByCreatedAtDesc metas) as [|first sorted] eqn:Hsorted.
  - exfalso. destruct (sessions room) as [|[k s] m] eqn:Hs; [cbn in Hsize; lia|].
    assert (SessionMeta.mk k (Session.name s) (Session.createdAt s) ∈ metas)
      as Hin by (subst metas; cbn; left).
    apply (Helem _ metas) in Hin. rewrite Hsorted in Hin.
    by apply elem_of_nil in Hin.
  - assert (first ∈ metas) as Hfirst.
    { apply Helem. rewrite Hsorted. left. }
    subst metas. apply list_elem_of_In, in_map_iff in Hfirst
      as ([k s] & <- & Hin%list_elem_of_In).
    exists s. cbn. split; [by apply JsMapFacts.elem_of_get|].
    intros k' s' Hget'. apply JsMapFacts.get_Some_elem_of in Hget'.
    cbn [headLatest] in Hhead.
    assert (SessionMeta.mk k' (Session.name s') (Session.createdAt s')
            ∈ sortByCreatedAtDesc
                (map (fun '(id, session) =>
                        SessionMeta.mk id (Session.name session)
                          (Session.createdAt session))
                   (JsMap.entries (sessions room)))) as Hin'.
    { apply Helem. apply list_elem_of_In, in_map_iff. exists (k', s').
      split; [done|]. by apply list_elem_of_In. }
    rewrite Hsorted in Hin'.
    apply (proj1 (Forall_forall _ _) Hhead) in Hin'. by cbn in Hin'.
Qed.

(** ** Colours *)

Lemma firstUnused_first (used : list JsStr) (before : list string)
    (c : string) (after : list string) :
  (forall x, x ∈ before -> Some x ∈ used) ->
  Some c ∉ used ->
  firstUnused used (before ++ c :: after) = Some c.
Proof.
  intros Hbefore Hc. induction before as [|b before IH]; cbn [app firstUnused].
  - by rewrite bool_decide_eq_false_2.
  - rewrite bool_decide_eq_true_2 by (apply Hbefore; left). cbn [negb].
    apply IH. intros x Hx. apply Hbefore. by right.
Qed.

Lemma firstUnused_none (used : list JsStr) (palette : list string) :
  (forall x, x ∈ palette -> Some x ∈ used) ->
  firstUnused used palette = None.
Proof.
  intros Hall. induction palette as [|b palette IH]; cbn [firstUnused]; [done|].
  rewrite bool_decide_eq_true_2 by (apply Hall; left). cbn [negb].
  apply IH. intros x Hx. apply Hall. by right.
Qed.

Lemma restoreLatestSession_clients (room : Room) :
  clients (restoreLatestSession room) = clients room.
Proof.
  unfold restoreLatestSession. destruct (_ && _); [|done].
  destruct (truthy _); [|done]. unfold loadSession.
  destruct (JsMap.get _ _) as [session|]; [|done]. cbn [snd].
  by destruct (loadElements_frame (Session.elements session) (clear room))
    as (-> & _).
Qed.

Section ServerFacts.
Variable sha256_hex : string -> string.
Variable trim : string -> string.

(** An accepted join leaves, under the id of the room, the room entered
    with the participant registered and the latest session restored. *)
Lemma handleJoin_accepted (rooms : JsMap.t Room) (clientId : string)
    (currentRoom : option string) (message : JoinMessage.t) :
  joinError sha256_hex trim rooms message = None ->
  let roomId := orElse (JoinMessage.roomId message) "default" in
  exists room rooms' persisted,
    entered rooms roomId room /\
    let final :=
      restoreLatestSession (register room clientId message roomId) in
    handleJoin sha256_hex trim rooms clientId currentRoom message
    = (JsMap.set (Some roomId) final rooms', Some roomId,
       persisted ++
       [Send (Welcome clientId roomId (orElse (Some (roomType room)) "public"));
        broadcast final (State (buildStatePayload final))]).
Proof.
  intros Hok roomId. unfold handleJoin. rewrite Hok. fold roomId.
  unfold getOrCreateRoom, getRoom.
  destruct (JsMap.get (Some roomId) rooms) as [room|] eqn:Hget.
  - exists room, rooms, []. split; [by left|done].
  - eexists _, _, _. split; [right; split; [done|by eexists]|done].
Qed.

Lemma usedColors_inUse (room : Room) (color : string) :
  Some color ∈ usedColors room <-> inUse room color.
Proof.
  unfold usedColors, inUse. rewrite Exists_exists, list_elem_of_fmap.
  split; intros (info & H1 & H2); by exists info.
Qed.

Lemma entered_clients (rooms : JsMap.t Room) (roomId : string)
    (room1 room2 : Room) :
  entered rooms roomId room1 -> entered rooms roomId room2 ->
  clients room1 = clients room2.
Proof.
  intros [H1|[H1 [o1 ->]]] [H2|[H2 [o2 ->]]]; (done || congruence).
Qed.

(** C9: an accepted join registers the participant, in the room entered,
    with a colour of the palette of ten: the first one that no participant
    already in the room has; when every colour of the palette is in use, the
    one at index (number of participants already in the room) modulo 10. *)
Theorem join_assigns_first_unused_color (rooms : JsMap.t Room)
    (clientId : string) (currentRoom : option string)
    (message : JoinMessage.t) (room : Room) :
  let roomId := orElse (JoinMessage.roomId message) "default" in
  let rooms' :=
    (handleJoin sha256_hex trim rooms clientId currentRoom message).1.1 in
  joinError sha256_hex trim rooms message = None ->
  entered rooms roomId room ->
  length USER_COLORS = 10%nat /\
  exists room' info,
    getRoom rooms' roomId = Some room' /\
    JsMap.get (Some clientId) (clients room') = Some info /\
    Client.id info = clientId /\
    (forall before c after,
       USER_COLORS = before ++ c :: after ->
       (forall x, x ∈ before -> inUse room x) ->
       ~ inUse room c ->
       Client.color info = Some c) /\
    ((forall x, x ∈ USER_COLORS -> inUse room x) ->
     Client.color info
     = USER_COLORS !! (JsMap.size (clients room) mod 10)%nat /\
     is_Some (Client.color info)).
Proof.
  intros roomId rooms' Hok Hroom. split; [done|].
  destruct (handleJoin_accepted rooms clientId currentRoom message Hok)
    as (room0 & rooms1 & persisted & Hentered & Hjoin).
  fold roomId in Hentered, Hjoin. cbn zeta in Hjoin.
  subst rooms'. rewrite Hjoin. cbn [fst].
  pose proof (entered_clients _ _ _ _ Hentered Hroom) as Hclients.
  assert (pickUserColor room0 = pickUserColor room) as Hpick
    by (unfold pickUserColor, usedColors; by rewrite Hclients).
  eexists _, _. split; [apply JsMapFacts.get_set_eq|].
  rewrite restoreLatestSession_clients. unfold register.
  cbn [clients setClients]. split; [apply JsMapFacts.get_set_eq|].
  split; [done|]. cbn [Client.color clientInfo]. rewrite Hpick. split.
  - intros before c after Hpalette Hbefore Hc. unfold pickUserColor.
    rewrite Hpalette at 1. rewrite firstUnused_first; [done| |].
    + intros x Hx. by apply usedColors_inUse, Hbefore.
    + by rewrite usedColors_inUse.
  - intros Hall. unfold pickUserColor.
    rewrite firstUnused_none
      by (intros x Hx; by apply usedColors_inUse, Hall).
    split; [done|].
    apply lookup_lt_is_Some. apply Nat.mod_upper_bound. done.
Qed.
End ServerFacts.

(** ** Access to private rooms *)

Section Access.
Variable sha256_hex : string -> string.
Variable trim : string -> string.

(** A SHA-256 digest in hexadecimal has 64 characters. *)
Hypothesis sha256_hex_length : forall s, String.length (sha256_hex s) = 64%nat.

Lemma hashPassword_truthy (password : Password.t) (h : JsStr) :
  hashPassword sha256_hex password = Returns h -> h <> None ->
  truthy h = true.
Proof.
  unfold hashPassword. destruct password as [[|a s]| |]; intros [= <-]; try done.
  intros _. pose proof (sha256_hex_length (String a s)) as Hlen.
  by destruct (sha256_hex (String a s)).
Qed.

Lemma hashPassword_textual (password : Password.t) :
  textual password -> exists h, hashPassword sha256_hex password = Returns h.
Proof. destruct password as [[|a s]| |]; intros H; by eauto. Qed.

Lemma requestedPassword_textual (message : JoinMessage.t) :
  textual (requestedPassword message) <->
  textual (JoinMessage.password message).
Proof.
  unfold requestedPassword, textual.
  by destruct (JoinMessage.password message) as [[|a s]| |].
Qed.

(** The check on a password that is a string, or on none: it passes for a
    public room; for a private room it passes exactly when the room stores a
    hash and the hash of the password given is that hash; a join to a
    private room that fails the check sends the error "Invalid room
    password." and changes neither the registry (no participant is
    registered) nor the room of the connection. *)
Lemma password_check_textual (room : Room) (password : Password.t) :
  textual password ->
  (roomType room = "public" ->
   isPasswordValid sha256_hex room password = Returns true) /\
  (roomType room = "private" ->
   (isPasswordValid sha256_hex room password = Returns true <->
    exists h, passwordHash room = Some h /\
              hashPassword sha256_hex password = Returns (Some h)) /\
   (isPasswordValid sha256_hex room password = Returns true \/
    isPasswordValid sha256_hex room password = Returns false)) /\
  (forall rooms clientId currentRoom message,
     getRoom rooms (orElse (JoinMessage.roomId message) "default")
     = Some room ->
     roomType room = "private" ->
     isPasswordValid sha256_hex room (requestedPassword message)
     = Returns false ->
     handleJoin sha256_hex trim rooms clientId currentRoom message
     = (rooms, currentRoom, [Send (ErrorMessage "Invalid room password.")])).
Proof.
  intros Htext. split_and!.
  - intros Hpublic. unfold isPasswordValid. by rewrite Hpublic.
  - intros Hprivate. unfold isPasswordValid.
    rewrite Hprivate, bool_decide_eq_true_2 by done. cbn [negb].
    destruct (hashPassword_textual password Htext) as [hash Hhash].
    rewrite Hhash.
    destruct (passwordHash room) as [h|] eqn:Hstored.
    + destruct (truthy (Some h)) eqn:Htruthy; cbn [negb].
      * split.
        -- split.
           ++ intros [= Heq%bool_decide_eq_true]. exists h. by rewrite Heq.
           ++ intros (h' & [= <-] & [= ->]).
              by rewrite bool_decide_eq_true_2.
        -- destruct (bool_decide (hash = Some h)); by eauto.
      * split; [|by right]. split; [done|].
        intros (h' & [= <-] & [= ->]).
        apply hashPassword_truthy in Hhash; [congruence|done].
    + cbn. split; [|by right]. split; [done|]. by intros (h & ? & _).
  - intros rooms clientId currentRoom message Hroom Hprivate Hinvalid.
    unfold handleJoin, joinError. rewrite Hroom, Hprivate, Hinvalid.
    by rewrite bool_decide_eq_true_2.
Qed.

Lemma joinError_Thrown (rooms : JsMap.t Room) (message : JoinMessage.t) :
  joinError sha256_hex trim rooms message = Some Thrown <->
  throwsOn rooms message.
Proof.
  unfold joinError, throwsOn, optionsHash, isPasswordValid, requestedPassword.
  destruct (getRoom rooms _) as [existingRoom|];
    destruct (JoinMessage.password message) as [[|a s]| |];
    repeat (case_decide || case_bool_decide); cbn;
    repeat match goal with
      | |- context [truthy ?x] => destruct (truthy x) eqn:?; cbn
      | |- context [bool_decide ?P] => destruct (bool_decide P) eqn:?; cbn
      end;
    try (split; [congruence|intros [? ?]; congruence]);
    try (split; [done|intros [? ?]; congruence]);
    try (split; [done|intros [? ?]; done]);
    try done; try (split; intros; by (split || congruence)).
  all: destruct (trim _); cbn; (split; [intros [=]|intros [[=] _]]).
Qed.

Lemma handleJoin_Thrown (rooms : JsMap.t Room) (clientId : string)
    (currentRoom : option string) (message : JoinMessage.t) :
  throwsOn rooms message ->
  handleJoin sha256_hex trim rooms clientId currentRoom message
  = (rooms, currentRoom, [Uncaught]).
Proof.
  intros Hthrows%joinError_Thrown. unfold handleJoin. by rewrite Hthrows.
Qed.

(** C7: the check does not hold for every password a client can supply.  A
    join whose [password] is a truthy value that is not a string (a number,
    say) to a private room that stores a hash makes [hashPassword] throw in
    the check, and a join with such a password that asks for a private room
    not there yet makes the handler throw in [trim]: in both cases no
    error message is sent; the exception leaves the handler, which ends the
    server process. *)
Theorem join_password_not_text_uncaught (rooms : JsMap.t Room)
    (clientId : string) (currentRoom : option string)
    (message : JoinMessage.t) :
  JoinMessage.password message = Password.NotText ->
  match getRoom rooms (orElse (JoinMessage.roomId message) "default") with
  | Some room =>
      roomType room = "private" /\ truthy (passwordHash room) = true
  | None => JoinMessage.roomType message = Some "private"
  end ->
  (forall room,
     getRoom rooms (orElse (JoinMessage.roomId message) "default")
     = Some room ->
     isPasswordValid sha256_hex room (requestedPassword message) = Throws) /\
  handleJoin sha256_hex trim rooms clientId currentRoom message
  = (rooms, currentRoom, [Uncaught]) /\
  (forall error,
     Send (ErrorMessage error)
     ∉ (handleJoin sha256_hex trim rooms clientId currentRoom message).2).
Proof.
  intros Hpassword Hroom.
  assert (handleJoin sha256_hex trim rooms clientId currentRoom message
          = (rooms, currentRoom, [Uncaught])) as Hjoin.
  { apply handleJoin_Thrown. split; [done|].
    destruct (getRoom rooms _) as [room|]; [|done].
    destruct Hroom as [Hprivate Hhash]. by rewrite decide_True. }
  split_and!.
  - intros room Hget. rewrite Hget in Hroom. destruct Hroom as [Hprivate Hhash].
    unfold isPasswordValid, requestedPassword.
    by rewrite Hprivate, Hhash, Hpassword.
  - done.
  - intros error. rewrite Hjoin. cbn [snd].
    intros Hin%list_elem_of_singleton. discriminate.
Qed.
End Access.

(** ** The restore of the latest session on join *)

Lemma hasLiveState_false (room : Room) :
  hasLiveState room = false <->
  forall c, JsMap.size (collection c room) = 0%nat.
Proof.
  unfold hasLiveState. rewrite !orb_false_iff, !Nat.ltb_ge. split.
  - intros (((? & ?) & ?) & ?) []; cbn [collection]; lia.
  - intros Hall. pose proof (Hall Paths). pose proof (Hall Shapes).
    pose proof (Hall Texts). pose proof (Hall Images).
    cbn [collection] in *. lia.
Qed.

Lemma restoreLatestSession_loads (room : Room) :
  (forall c, JsMap.size (collection c room) = 0%nat) ->
  JsMap.size (clients room) = 1%nat ->
  (0 < JsMap.size (sessions room))%nat ->
  sessionIdsProper room ->
  exists sessionId session,
    JsMap.get sessionId (sessions room) = Some session /\
    mostRecent session room /\
    loadSession room sessionId
    = (Some (Session.elements session), restoreLatestSession room).
Proof.
  intros Hempty Hone Hsessions [Hnodup Htruthy].
  destruct (getLatestSessionId_latest room Hnodup Hsessions)
    as (session & Hget & Hlatest).
  exists (getLatestSessionId room), session. split_and!; [done|done|].
  unfold restoreLatestSession.
  apply hasLiveState_false in Hempty. rewrite Hempty, Hone. cbn [negb andb].
  rewrite (proj2 (Nat.eqb_eq 1 1) eq_refl), (proj2 (Nat.ltb_lt _ _) Hsessions).
  cbn [andb].
  assert (truthy (getLatestSessionId room) = true) as ->.
  { apply (proj1 (Forall_forall _ _) Htruthy).
    apply JsMapFacts.get_Some_elem_of in Hget.
    apply list_elem_of_fmap. by exists (getLatestSessionId room, session). }
  by rewrite (loadSession_Some room _ session Hget).
Qed.

Lemma restoreLatestSession_skips (room : Room) :
  (exists c, JsMap.size (collection c room) <> 0%nat) \/
  JsMap.size (clients room) <> 1%nat \/
  JsMap.size (sessions room) = 0%nat ->
  restoreLatestSession room = room.
Proof.
  intros Hcase. unfold restoreLatestSession.
  destruct (hasLiveState room) eqn:Hlive; [done|]. cbn [negb andb].
  destruct (JsMap.size (clients room) =? 1)%nat eqn:Hone; [|done].
  destruct (0 <? JsMap.size (sessions room))%nat eqn:Hsessions; [|done].
  exfalso. destruct Hcase as [[c Hc]|[Hc|Hc]].
  - by apply Hc, hasLiveState_false.
  - by apply Hc, Nat.eqb_eq.
  - apply Nat.ltb_lt in Hsessions. lia.
Qed.

Section Restore.
Variable sha256_hex : string -> string.
Variable trim : string -> string.

(** C10: a join that is refused, or that throws, has changed nothing.  An
    accepted join leaves the room
    entered with the participant registered, and broadcasts its state last.
    Between the two, when the four collections are empty, the participant is
    the only one and the room has sessions (with the distinct, non-empty ids
    [saveSession] gives), the session with the largest [createdAt] is
    loaded; in every other case the room is left as registered. *)
Theorem join_restores_latest_session (rooms : JsMap.t Room)
    (clientId : string) (currentRoom : option string)
    (message : JoinMessage.t) :
  let roomId := orElse (JoinMessage.roomId message) "default" in
  let result :=
    handleJoin sha256_hex trim rooms clientId currentRoom message in
  (forall error,
     joinError sha256_hex trim rooms message = Some error ->
     result.1 = (rooms, currentRoom)) /\
  (joinError sha256_hex trim rooms message = None ->
   exists room final effects,
     entered rooms roomId room /\
     let registered := register room clientId message roomId in
     getRoom result.1.1 roomId = Some final /\
     result.2 = effects ++ [broadcast final (State (buildStatePayload final))] /\
     ((forall c, JsMap.size (collection c registered) = 0%nat) ->
      JsMap.size (clients registered) = 1%nat ->
      (0 < JsMap.size (sessions registered))%nat ->
      sessionIdsProper registered ->
      exists sessionId session,
        JsMap.get sessionId (sessions registered) = Some session /\
        mostRecent session registered /\
        loadSession registered sessionId
        = (Some (Session.elements session), final)) /\
     ((exists c, JsMap.size (collection c registered) <> 0%nat) \/
      JsMap.size (clients registered) <> 1%nat \/
      JsMap.size (sessions registered) = 0%nat ->
      final = registered)).
Proof.
  intros roomId result. split.
  - intros error Herror. subst result. unfold handleJoin. rewrite Herror.
    by destruct error.
  - intros Hok.
    destruct (handleJoin_accepted sha256_hex trim rooms clientId currentRoom
                message Hok) as (room & rooms' & persisted & Hentered & Hjoin).
    fold roomId in Hentered, Hjoin. cbn zeta in Hjoin.
    exists room, (restoreLatestSession (register room clientId message roomId)),
      (persisted ++
       [Send (Welcome clientId roomId (orElse (Some (roomType room)) "public"))]).
    split; [done|]. cbn zeta. subst result. rewrite Hjoin. cbn [fst snd].
    split_and!.
    + apply JsMapFacts.get_set_eq.
    + by rewrite <- app_assoc.
    + apply restoreLatestSession_loads.
    + apply restoreLatestSession_skips.
Qed.
End Restore.

(** ** Session ids *)

Lemma newSessionId_truthy (now : Z) (suffix : string) :
  truthy (Some (newSessionId now suffix)) = true.
Proof. reflexivity. Qed.

Lemma run_sessions (op : Op) (room : Room) :
  sessions (run op room) = sessions room \/
  exists sessionName now suffix createdAt,
    op = SaveSession sessionName now suffix createdAt.
Proof.
  destruct op; cbn [run]; try (right; by eexists _, _, _, _); left.
  - unfold upsertPath. destruct path as [e|]; [|done].
    by destruct (truthy (Element.id e)).
  - unfold commitPath. destruct (truthy pathId); [|done].
    destruct (JsMap.get pathId (pathsById room)); [|done].
    by destruct (includes _ _).
  - unfold upsertShape. destruct shape as [e|]; [|done].
    by destruct (truthy (Element.id e)).
  - unfold commitShape. destruct (truthy shapeId); [|done].
    destruct (JsMap.get shapeId (shapesById room)); [|done].
    by destruct (includes _ _).
  - unfold addText. destruct text as [e|]; [|done].
    by destruct (truthy (Element.id e)).
  - unfold addImage. destruct image as [e|]; [|done].
    by destruct (truthy (Element.id e)).
  - unfold undo. destruct (pop (committedIds room)) as [popped ids].
    destruct (truthy (mjoin popped)); [|done]. cbn [negb].
    destruct (holder _ _) as [c|]; [|done].
    destruct (JsMap.get _ _); [|done]. by destruct c.
  - unfold redo. destruct (pop (redoStack room)) as [[item|] stack]; [|done].
    cbn [snd]. by destruct (collectionOf (RedoItem.element item)) as [[]|].
  - done.
  - unfold loadSession.
    destruct (JsMap.get sessionId (sessions room)) as [session|]; [|done].
    cbn [snd].
    by destruct (loadElements_frame (Session.elements session) (clear room))
      as (_ & -> & _).
Qed.

(** The sessions of a room have distinct, non-empty ids from its creation on,
    whatever the engine does. *)
Lemma sessionIdsProper_run (op : Op) (room : Room) :
  sessionIdsProper room -> sessionIdsProper (run op room).
Proof.
  intros [Hnodup Htruthy].
  destruct (run_sessions op room) as [Hsame|(name & now & suffix & at' & ->)].
  - unfold sessionIdsProper. by rewrite Hsame.
  - unfold sessionIdsProper. cbn [run saveSession snd sessions setSessions].
    split; [by apply JsMapFacts.NoDup_keys_set|].
    rewrite JsMapFacts.keys_set. destruct (JsMap.has _ _); [done|].
    apply Forall_app. split; [done|]. by repeat constructor.
Qed.

Lemma sessionIdsProper_createRoom (options : RoomOptions.t) :
  sessionIdsProper (createRoom options).
Proof. split; cbn; [apply NoDup_nil_2|apply Forall_nil_2]. Qed.

(** * The engine on the sample rooms *)

Lemma committed1_history : historyConsistent Sample.committed1.
Proof.
  split.
  - apply NoDup_singleton.
  - repeat constructor. exists Paths. eexists. split; reflexivity.
Defined.

(** C1 does not hold as stated: after [path1] is committed, an upsert of the same id
    that declares the status "in-progress" leaves an id in [committedIds]
    whose element is not committed. *)
Lemma upsert_in_progress_breaks_history :
  historyConsistent Sample.committed1 /\
  ~ historyConsistent (run (UpsertPath (Some Sample.path1Dragged))
                         Sample.committed1).
Proof.
  split; [exact committed1_history|].
  intros [_ Hheld]. apply Forall_cons in Hheld as [(c & e & Hget & Hstatus) _].
  destruct c; vm_compute in Hget; try discriminate.
  injection Hget as <-. discriminate.
Qed.

(** [addText] appends without looking: the same text added twice is twice in
    [committedIds]. *)
Example addText_twice_duplicates :
  committedIds
    (run (AddText (Some Sample.text1))
       (run (AddText (Some Sample.text1)) Sample.room0))
  = [Some "t1"; Some "t1"].
Proof. reflexivity. Qed.

(** [redo] stores an element without [type], [content] and [dataUrl] nowhere
    and still appends its id. *)
Example redo_drops_untyped_shape :
  let room := run Redo (run Undo Sample.committedUntyped) in
  committedIds room = [Some "u1"] /\
  (forall c, JsMap.has (Some "u1") (collection c room) = false).
Proof. split; [reflexivity|by intros []]. Qed.

(** A session saved with one id in two collections loads that id twice into
    [committedIds]. *)
Example loadSession_shared_id_twice :
  committedIds
    (run (LoadSession (Some "session-1700000001000-zzzzzzzzz"))
       Sample.savedShared)
  = [Some "p1"; Some "p1"].
Proof. reflexivity. Qed.

(** A witness of [history_preserved]: a text added to [committed1]. *)
Lemma history_preserved_witness :
  historyConsistent (run (AddText (Some Sample.text1)) Sample.committed1).
Proof.
  apply (proj1 (proj2 history_preserved) Sample.committed1
           (AddText (Some Sample.text1))).
  - exact committed1_history.
  - cbn. apply not_elem_of_cons. split; [discriminate|apply not_elem_of_nil].
Defined.

(** C2 does not hold as stated: in [dragged1] the committed path has status
    "in-progress"; [undo] then [redo] puts it back as "committed". *)
Lemma undo_redo_changes_status :
  committedIds Sample.dragged1 <> [] /\
  Element.status <$> JsMap.get (Some "p1") (pathsById Sample.dragged1)
  = Some (Some "in-progress") /\
  Element.status <$>
    JsMap.get (Some "p1") (pathsById (redo (undo Sample.dragged1).2).2)
  = Some (Some "committed") /\
  ~ sameContent (redo (undo Sample.dragged1).2).2 Sample.dragged1.
Proof.
  split_and!; [done|reflexivity|reflexivity|].
  intros [Hsame _]. specialize (Hsame Paths (Some "p1")). discriminate.
Qed.

(** A witness of [undo_redo_roundtrip]: the committed path of [committed1]. *)
Lemma undo_redo_roundtrip_witness :
  (undo Sample.committed1).1
  = Some (Element.withStatus (Some "committed") Sample.path1) /\
  (redo (undo Sample.committed1).2).1
  = Some (Element.withStatus (Some "committed") Sample.path1) /\
  sameContent (redo (undo Sample.committed1).2).2 Sample.committed1.
Proof.
  apply (proj1 (undo_redo_roundtrip Sample.committed1) [] (Some "p1") Paths);
    reflexivity.
Defined.

(** C3 does not hold as stated: the id of a shape is in a collection, and
    [commitPath] with that id returns [null] and leaves the room as it is. *)
Lemma commitPath_ignores_shape :
  JsMap.has (Some "s1") (collection Shapes Sample.onlyShape) = true /\
  commitPath Sample.onlyShape (Some "s1") = (None, Sample.onlyShape).
Proof. split; reflexivity. Qed.

(** A witness of [commit_own_collection]: the path drawn in [drawn1]. *)
Lemma commit_own_collection_witness :
  committedAs Paths (Some "p1")
    (Element.withStatus (Some "in-progress") Sample.path1)
    Sample.drawn1 (commitPath Sample.drawn1 (Some "p1")).
Proof.
  apply (proj1 (proj2 (proj2
           (commit_own_collection Sample.drawn1 (Some "p1")))));
    reflexivity.
Defined.

Lemma drawn1_disjoint : collectionsDisjoint Sample.drawn1.
Proof.
  intros k c1 c2 H1 H2.
  destruct c1; try (vm_compute in H1; discriminate);
  destruct c2; try (vm_compute in H2; discriminate); reflexivity.
Defined.

(** C4 does not hold as stated: [upsertShape] with the id of a path that is stored
    leaves that id in [pathsById] and in [shapesById]. *)
Lemma upsertShape_shares_id :
  collectionsDisjoint Sample.drawn1 /\
  ~ collectionsDisjoint (run (UpsertShape (Some Sample.shapeP1)) Sample.drawn1).
Proof.
  split; [exact drawn1_disjoint|].
  intros Hdisj. by specialize (Hdisj (Some "p1") Paths Shapes eq_refl eq_refl).
Qed.

(** A witness of [disjoint_preserved]: a shape with an id of its own, and
    the redo of a text with [content: null] whose id no collection has. *)
Lemma disjoint_preserved_witness :
  collectionsDisjoint (run (UpsertShape (Some Sample.shape1)) Sample.drawn1) /\
  collectionsDisjoint (run Redo Sample.undoneText).
Proof.
  split.
  - apply (proj1 (proj2 disjoint_preserved) Sample.drawn1
             (UpsertShape (Some Sample.shape1))).
    + exact drawn1_disjoint.
    + intros c Hc. destruct c; vm_compute in Hc; discriminate.
  - apply (proj1 (proj2 disjoint_preserved) Sample.undoneText Redo).
    + intros k c1 c2 H1 H2. destruct c1; vm_compute in H1; discriminate.
    + intros item stack target [= <- <-] _ c Hc.
      destruct c; vm_compute in Hc; discriminate.
Defined.

(** A text with [content: null] is a text for [redo]: the redo of the text
    "a" in a room that has a path "a" by now is not among the inputs
    of [keepsDisjoint], and it leaves the id in [pathsById] and in
    [textsById]. *)
Example redo_null_text_shares_id :
  reachable keepsDisjoint Sample.crossed /\
  collectionsDisjoint Sample.crossed /\
  ~ keepsDisjoint Sample.crossed Redo /\
  JsMap.has (Some "a") (pathsById (run Redo Sample.crossed)) = true /\
  JsMap.has (Some "a") (textsById (run Redo Sample.crossed)) = true /\
  ~ collectionsDisjoint (run Redo Sample.crossed).
Proof.
  split_and!.
  - unfold Sample.crossed, Sample.undoneText, Sample.room0.
    repeat (apply reachable_run); [apply reachable_new| | |].
    + intros c Hc. destruct c; vm_compute in Hc; discriminate.
    + exact I.
    + intros c Hc. destruct c; vm_compute in Hc; (done || discriminate).
  - intros k c1 c2 H1 H2.
    destruct c1, c2; try done; vm_compute in H1, H2; discriminate.
  - intros Hkeeps.
    specialize (Hkeeps
                  (RedoItem.mk (Some "a")
                     (Element.withStatus (Some "committed") Sample.nullText))
                  [] Texts eq_refl).
    assert (Paths = Texts) as Heq; [|discriminate Heq].
    apply Hkeeps; [|reflexivity].
    by apply (selects_text _ None).
  - reflexivity.
  - reflexivity.
  - intros Hdisj.
    by specialize (Hdisj (Some "a") Paths Texts eq_refl eq_refl).
Qed.

(** [loadSession] stores an element without type whose [content] is [null]
    in [textsById]. *)
Example loadSession_null_text :
  let room :=
    (saveSession (run (AddText (Some Sample.nullText)) Sample.room0)
       (Some "v") 1 "s" 1).2 in
  JsMap.keys (textsById (loadSession room (Some (newSessionId 1 "s"))).2)
  = [Some "a"].
Proof. by vm_compute. Qed.

(** A witness of [upsert_stores_with_status]: a first upsert of [path1]
    stores it as "in-progress", and a shape without id is refused. *)
Lemma upsert_stores_with_status_witness :
  (exists stored room',
     upsertPath Sample.room0 (Some Sample.path1) = (Some stored, room') /\
     JsMap.get (Some "p1") (pathsById room') = Some stored /\
     Element.status stored = Some "in-progress") /\
  upsertShape Sample.room0
    (Some (Element.mk None (Some "line") None Undefined Undefined []))
  = (None, Sample.room0).
Proof.
  destruct (upsert_stores_with_status Sample.room0) as (_ & Hrefused & Hstored).
  split.
  - destruct (Hstored Sample.path1 eq_refl)
      as [(stored & room' & Hrun & Hunder & _ & _ & Hrule & _) _].
    exists stored, room'. split_and!; [done|apply Hunder|].
    apply Hrule; [reflexivity|].
    apply not_elem_of_nil.
  - by apply Hrefused.
Defined.

(** A witness of [loadSession_idempotent]: the session "v1" of [saved]. *)
Lemma loadSession_idempotent_witness :
  loadSession (loadSession Sample.saved (Some Sample.sessionV1)).2
    (Some Sample.sessionV1)
  = loadSession Sample.saved (Some Sample.sessionV1).
Proof.
  eapply (loadSession_idempotent Sample.saved (Some Sample.sessionV1)).
  reflexivity.
Defined.

(** The session "v1" loaded: the committed path, the shape in progress, and
    an empty [redoStack]. *)
Example loadSession_v1 :
  let room := (loadSession Sample.saved (Some Sample.sessionV1)).2 in
  committedIds room = [Some "p1"] /\
  Element.status <$> JsMap.get (Some "p1") (pathsById room)
  = Some (Some "committed") /\
  Element.status <$> JsMap.get (Some "s1") (shapesById room)
  = Some (Some "in-progress") /\
  redoStack room = [].
Proof. by split_and!. Qed.

Lemma digest_length (s : string) : String.length (Sample.digest s) = 64%nat.
Proof.
  unfold Sample.digest. generalize 64%nat. intros n. revert s.
  induction n as [|n IH]; intros s; [done|].
  destruct s; cbn; by rewrite IH.
Defined.

(** The room "secret" made with the password "x" accepts "x", and a join
    with "y" is refused with nothing changed. *)
Example password_check_sample :
  isPasswordValid Sample.digest Sample.secretRoom (Password.Text "x")
  = Returns true /\
  handleJoin Sample.digest Sample.trim Sample.registry "user-7" None
    (Sample.joinSecretWith "y")
  = (Sample.registry, None, [Send (ErrorMessage "Invalid room password.")]).
Proof.
  assert (textual (Password.Text "x")) as Htext by done.
  destruct (password_check_textual Sample.digest Sample.trim digest_length
              Sample.secretRoom (Password.Text "x") Htext)
    as (_ & Hiff & Hjoin).
  split.
  - apply Hiff; [reflexivity|]. eexists. split; reflexivity.
  - apply Hjoin; reflexivity.
Qed.

(** A witness of [join_password_not_text_uncaught]: a join with the number 5
    for password to the private room "secret", and one that asks for a
    private room "attic" that does not exist, end in an exception that
    nothing catches; no error message is sent. *)
Lemma join_password_not_text_uncaught_witness :
  (isPasswordValid Sample.digest Sample.secretRoom
     (requestedPassword Sample.joinSecretWithNumber) = Throws /\
   handleJoin Sample.digest Sample.trim Sample.registry "user-7" None
     Sample.joinSecretWithNumber
   = (Sample.registry, None, [Uncaught])) /\
  handleJoin Sample.digest Sample.trim Sample.registry "user-7" None
    Sample.joinAtticWithNumber
  = (Sample.registry, None, [Uncaught]).
Proof.
  split.
  - destruct (join_password_not_text_uncaught Sample.digest Sample.trim
                Sample.registry "user-7" None Sample.joinSecretWithNumber
                eq_refl) as (Hcheck & Hjoin & _).
    + split; reflexivity.
    + split; [by apply Hcheck|exact Hjoin].
  - destruct (join_password_not_text_uncaught Sample.digest Sample.trim
                Sample.registry "user-7" None Sample.joinAtticWithNumber
                eq_refl) as (_ & Hjoin & _).
    + reflexivity.
    + exact Hjoin.
Defined.

(** A witness of [undo_redo_empty_noop]: a fresh room. *)
Lemma undo_redo_empty_noop_witness :
  undo Sample.room0 = (None, Sample.room0) /\
  redo Sample.room0 = (None, Sample.room0).
Proof.
  destruct (undo_redo_empty_noop Sample.room0) as [Hundo Hredo].
  split; [by apply Hundo|by apply Hredo].
Defined.

Example visitors : Sample.visitor 12 = "user-12".
Proof. reflexivity. Qed.

(** The hall with two visitors has the first two colours in use; with
    thirteen, every colour of the palette. *)
Example hall_colors :
  usedColors (Sample.hall 2) = [Some "#DC2626"; Some "#D97706"] /\
  usedColors (Sample.hall 13)
  = (Some <$> USER_COLORS) ++ [Some "#DC2626"; Some "#D97706"; Some "#65A30D"].
Proof. split; by vm_compute. Qed.

(** A witness of [join_assigns_first_unused_color]: the third visitor of
    the hall, where the first two colours of the palette are in use, gets
    the third colour; the fourteenth, who finds thirteen participants and
    every colour in use, gets the colour at index 13 modulo 10 = 3. *)
Lemma join_assigns_first_unused_color_witness :
  (exists room' info,
     getRoom
       (handleJoin Sample.digest Sample.trim (Sample.crowd 2) "user-2" None
          Sample.joinHall).1.1 "hall" = Some room' /\
     JsMap.get (Some "user-2") (clients room') = Some info /\
     Client.color info = Some "#65A30D") /\
  (exists room' info,
     getRoom
       (handleJoin Sample.digest Sample.trim (Sample.crowd 13) "user-13" None
          Sample.joinHall).1.1 "hall" = Some room' /\
     JsMap.get (Some "user-13") (clients room') = Some info /\
     Client.color info = Some "#059669").
Proof.
  split.
  - destruct (join_assigns_first_unused_color Sample.digest Sample.trim
                (Sample.crowd 2) "user-2" None Sample.joinHall (Sample.hall 2))
      as (_ & room' & info & Hroom & Hinfo & _ & Hfirst & _).
    + by vm_compute.
    + left. by vm_compute.
    + exists room', info. split_and!; [done|done|].
      apply (Hfirst ["#DC2626"; "#D97706"] "#65A30D"
               ["#059669"; "#0891B2"; "#0284C7"; "#4F46E5"; "#7C3AED";
                "#C026D3"; "#DB2777"]); [reflexivity| |].
      * apply Forall_forall. unfold inUse.
        apply (bool_decide_unpack _). by vm_compute.
      * unfold inUse. apply (bool_decide_unpack _). by vm_compute.
  - destruct (join_assigns_first_unused_color Sample.digest Sample.trim
                (Sample.crowd 13) "user-13" None Sample.joinHall
                (Sample.hall 13))
      as (_ & room' & info & Hroom & Hinfo & _ & _ & Hall).
    + by vm_compute.
    + left. by vm_compute.
    + exists room', info. split_and!; [done|done|].
      destruct Hall as [-> _]; [|by vm_compute].
      apply Forall_forall. unfold inUse.
      apply (bool_decide_unpack _). by vm_compute.
Defined.

Example first_color : pickUserColor Sample.saved = Some "#DC2626".
Proof. reflexivity. Qed.

Lemma saved_sessionIdsProper : sessionIdsProper Sample.saved.
Proof.
  split.
  - apply NoDup_cons. split; [|apply NoDup_singleton].
    intros Hin%list_elem_of_singleton. discriminate.
  - by repeat constructor.
Defined.

(** A witness of [join_restores_latest_session]: the first participant of
    "gallery", a room without elements and with two sessions, finds a session
    at least as recent as both loaded. *)
Lemma join_restores_latest_session_witness :
  let result :=
    handleJoin Sample.digest Sample.trim Sample.registry "user-7" None
      Sample.joinGallery in
  let registered :=
    register Sample.saved "user-7" Sample.joinGallery "gallery" in
  exists final sessionId session,
    getRoom result.1.1 "gallery" = Some final /\
    JsMap.get sessionId (sessions registered) = Some session /\
    mostRecent session registered /\
    loadSession registered sessionId = (Some (Session.elements session), final).
Proof.
  intros result registered.
  destruct (proj2 (join_restores_latest_session Sample.digest Sample.trim
                     Sample.registry "user-7" None Sample.joinGallery) eq_refl)
    as (room & final & effects & Hentered & Hfinal & _ & Hloads & _).
  assert (room = Sample.saved) as ->.
  { destruct Hentered as [Hroom|[Hnone _]]; [|discriminate Hnone].
    by injection Hroom as <-. }
  destruct Hloads as (sessionId & session & Hget & Hrecent & Hload).
  - by intros [].
  - reflexivity.
  - apply Nat.ltb_lt. reflexivity.
  - exact saved_sessionIdsProper.
  - by exists final, sessionId, session.
Defined.

(** The join to "gallery" on the sample registry: the later session is the
    one restored, with its two committed elements. *)
Example join_gallery_restores_v2 :
  let result :=
    handleJoin Sample.digest Sample.trim Sample.registry "user-7" None
      Sample.joinGallery in
  getLatestSessionId Sample.saved = Some Sample.sessionV2 /\
  (committedIds <$> getRoom result.1.1 "gallery")
  = Some [Some "p1"; Some "s1"].
Proof. by split. Qed.

(** * More of the engine *)

(** ** Texts and images *)

(** X1: [addText] and [addImage] return [null] and leave the room as it is
    when the element is missing or has no (non-empty) id; otherwise they store
    the element with status "committed" under its id in [textsById] (resp.
    [imagesById]), append the id to [committedIds] whether it is there or not,
    empty [redoStack] and return the element stored.  An id that was in
    [committedIds] is in it twice afterwards. *)
Theorem add_appends_committed (room : Room) :
  (addText room None = (None, room) /\ addImage room None = (None, room)) /\
  (forall e,
     truthy (Element.id e) = false ->
     addText room (Some e) = (None, room) /\
     addImage room (Some e) = (None, room)) /\
  (forall e,
     truthy (Element.id e) = true ->
     let stored := Element.withStatus (Some "committed") e in
     (exists room',
        addText room (Some e) = (Some stored, room') /\
        storedUnder Texts (Element.id e) stored room room' /\
        committedIds room' = committedIds room ++ [Element.id e] /\
        redoStack room' = [] /\
        (Element.id e ∈ committedIds room -> ~ NoDup (committedIds room'))) /\
     (exists room',
        addImage room (Some e) = (Some stored, room') /\
        storedUnder Images (Element.id e) stored room room' /\
        committedIds room' = committedIds room ++ [Element.id e] /\
        redoStack room' = [] /\
        (Element.id e ∈ committedIds room -> ~ NoDup (committedIds room')))).
Proof.
  assert (forall (k : JsStr) ids, k ∈ ids -> ~ NoDup (ids ++ [k])) as Htwice.
  { intros k ids Hin Hnodup. apply NoDup_app in Hnodup as (_ & Hdisj & _).
    apply (Hdisj k Hin). by apply list_elem_of_singleton. }
  split_and!; [done|done| |].
  - intros e Hid. unfold addText, addImage. by rewrite Hid.
  - intros e Hid stored. unfold addText, addImage. rewrite Hid. cbn [negb].
    split; eexists; (split; [reflexivity|]).
    + split_and!; [stored_under|done|done|apply Htwice].
    + split_and!; [stored_under|done|done|apply Htwice].
Qed.

(** ** One step of undo and of redo *)

Lemma holder_Some (room : Room) (k : JsStr) (c : Collection) :
  holder room k = Some c -> JsMap.has k (collection c room) = true.
Proof.
  unfold holder.
  destruct (JsMap.has k (pathsById room)) eqn:?; [by intros [= <-]|].
  destruct (JsMap.has k (shapesById room)) eqn:?; [by intros [= <-]|].
  destruct (JsMap.has k (textsById room)) eqn:?; [by intros [= <-]|].
  destruct (JsMap.has k (imagesById room)) eqn:?; [by intros [= <-]|done].
Qed.

Lemma holder_None (room : Room) (k : JsStr) :
  holder room k = None <-> forall c, JsMap.has k (collection c room) = false.
Proof.
  unfold holder. split.
  - destruct (JsMap.has k (pathsById room)) eqn:?; [done|].
    destruct (JsMap.has k (shapesById room)) eqn:?; [done|].
    destruct (JsMap.has k (textsById room)) eqn:?; [done|].
    destruct (JsMap.has k (imagesById room)) eqn:?; [done|].
    by intros _ [].
  - intros Hnone.
    pose proof (Hnone Paths) as H1. pose proof (Hnone Shapes) as H2.
    pose proof (Hnone Texts) as H3. pose proof (Hnone Images) as H4.
    cbn [collection] in *. by rewrite H1, H2, H3, H4.
Qed.

(** X2: [undo] always takes the last id off [committedIds].  When that id is
    empty or no collection has it, nothing else changes and the result is
    [null]: the id is gone from the history and [redoStack] does not get it.
    Otherwise the element is removed from the first collection that has the
    id, pushed with the id onto [redoStack] and returned; every other element
    stays. *)
Theorem undo_takes_last (room : Room) (ids : list JsStr) (k : JsStr) :
  committedIds room = ids ++ [k] ->
  (truthy k = false \/ (forall c, JsMap.has k (collection c room) = false) ->
   undo room = (None, setCommittedIds ids room)) /\
  (forall c,
     truthy k = true -> holder room k = Some c ->
     exists e room',
       JsMap.get k (collection c room) = Some e /\
       undo room = (Some e, room') /\
       committedIds room' = ids /\
       redoStack room' = redoStack room ++ [RedoItem.mk k e] /\
       JsMap.get k (collection c room') = None /\
       (forall k', k <> k' ->
          JsMap.get k' (collection c room')
          = JsMap.get k' (collection c room)) /\
       (forall c', c <> c' -> collection c' room' = collection c' room) /\
       clients room' = clients room /\ sessions room' = sessions room).
Proof.
  intros Hids. split.
  - intros Hcase. unfold undo.
    change (ids ++ [k]) with (push k ids) in Hids. rewrite Hids, pop_push.
    cbn [mjoin option_join]. destruct (truthy k) eqn:Hk; [|done].
    destruct Hcase as [?|Hnone]; [done|]. cbn [negb].
    replace (holder (setCommittedIds ids room) k) with (holder room k)
      by reflexivity.
    by rewrite (proj2 (holder_None room k) Hnone).
  - intros c Hk Hholder.
    destruct (proj1 (JsMapFacts.has_true k (collection c room))
                (holder_Some room k c Hholder)) as [e Hget].
    eexists e, _. split; [done|].
    split; [by apply (undo_last room ids k c e)|].
    split_and!; try by destruct c.
    + destruct c; cbn; apply JsMapFacts.get_delete_eq.
    + intros k' Hne. destruct c; cbn; by apply JsMapFacts.get_delete_ne.
    + by intros c' Hne; destruct c, c'.
Qed.

(** X3: [redo] on a non-empty [redoStack] takes its last entry off, appends
    the id of the entry to [committedIds] and returns the element with status
    "committed".  The element is stored under the id in the collection its
    fields select: [pathsById] for the type "path", [shapesById] for another
    type, [textsById] for no type and a [content], be it [null],
    [imagesById] for no type, no [content] and a [dataUrl]; an element
    without type, [content] and [dataUrl] is stored nowhere, and its id is
    in the history all the same. *)
Theorem redo_puts_back (room : Room) (stack : list RedoItem.t)
    (item : RedoItem.t) :
  redoStack room = stack ++ [item] ->
  let committed :=
    Element.withStatus (Some "committed") (RedoItem.element item) in
  exists room',
    redo room = (Some committed, room') /\
    redoStack room' = stack /\
    committedIds room' = committedIds room ++ [RedoItem.id item] /\
    clients room' = clients room /\ sessions room' = sessions room /\
    (forall c,
       selects (RedoItem.element item) c ->
       storedUnder c (RedoItem.id item) committed room room') /\
    (unplaced (RedoItem.element item) ->
     forall c, collection c room' = collection c room).
Proof.
  intros Hstack committed. unfold redo.
  change (stack ++ [item]) with (push item stack) in Hstack.
  rewrite Hstack, pop_push. eexists. split; [reflexivity|].
  destruct (collectionOf (RedoItem.element item)) as [c|] eqn:Hkind;
    cbn [storeIn].
  - split_and!; try by destruct c.
    + intros c' Hselects. apply collectionOf_selects in Hselects.
      rewrite Hkind in Hselects. injection Hselects as <-.
      destruct c; stored_under.
    + intros Hunplaced. apply collectionOf_unplaced in Hunplaced. congruence.
  - split_and!; try done.
    intros c Hselects. apply collectionOf_selects in Hselects. congruence.
Qed.

(** ** Commits and pending redos *)

Lemma redo_empty (room : Room) : redoStack room = [] -> redo room = (None, room).
Proof. intros Hempty. unfold redo. by rewrite Hempty, pop_nil. Qed.

(** X4: a commit, a text or an image that is accepted empties [redoStack],
    so a [redo] right after it is a no-op; one that is refused returns [null]
    and leaves the room, pending redos included, as it is.  An upsert never
    touches [redoStack]. *)
Theorem accepted_commit_drops_redos (room : Room) :
  (forall run,
     (exists k, run = commitPath room k) \/
     (exists k, run = commitShape room k) \/
     (exists e, run = addText room e) \/
     (exists e, run = addImage room e) ->
     (run.1 <> None ->
      redoStack run.2 = [] /\ redo run.2 = (None, run.2)) /\
     (run.1 = None -> run.2 = room)) /\
  (forall e,
     redoStack (upsertPath room e).2 = redoStack room /\
     redoStack (upsertShape room e).2 = redoStack room).
Proof.
  split.
  - intros run Hrun.
    assert (run.1 = None /\ run.2 = room \/ run.1 <> None /\ redoStack run.2 = [])
      as [[Hnone Hsame]|[Hsome Hredo]].
    { destruct Hrun as [[k ->]|[[k ->]|[[e ->]|[e ->]]]].
      - unfold commitPath. destruct (truthy k); [|by left]. cbn [negb].
        destruct (JsMap.get k (pathsById room)); [|by left].
        right. by destruct (includes _ _).
      - unfold commitShape. destruct (truthy k); [|by left]. cbn [negb].
        destruct (JsMap.get k (shapesById room)); [|by left].
        right. by destruct (includes _ _).
      - unfold addText. destruct e as [e|]; [|by left].
        destruct (truthy (Element.id e)); [by right|by left].
      - unfold addImage. destruct e as [e|]; [|by left].
        destruct (truthy (Element.id e)); [by right|by left]. }
    + split; [done|by intros _].
    + split; [|done]. intros _. split; [done|by apply redo_empty].
  - intros e. unfold upsertPath, upsertShape. destruct e as [e|]; [|done].
    by destruct (truthy (Element.id e)).
Qed.

Lemma JsMap_set_same {V : Type} (k : JsStr) (v : V) (m : JsMap.t V) :
  JsMap.get k m = Some v -> JsMap.set k v m = m.
Proof.
  induction m as [|[k0 v0] m IH]; cbn; [done|].
  destruct (decide (k0 = k)) as [->|Hne]; [by intros [= ->]|].
  intros Hget. by rewrite IH.
Qed.

(** A commit of an id that is committed, in a room without pending redos,
    returns the element and leaves the room as it is. *)
Lemma commitPath_committed (room : Room) (k : JsStr) (e : Element.t) :
  truthy k = true ->
  JsMap.get k (pathsById room) = Some e ->
  Element.status e = Some COMMITTED ->
  k ∈ committedIds room ->
  redoStack room = [] ->
  commitPath room k = (Some e, room).
Proof.
  intros Hk Hget Hstatus Hin Hredo. unfold commitPath.
  rewrite Hk, Hget, (proj2 (includes_true _ _) Hin). cbn [negb].
  rewrite withStatus_committed_id by done. cbn.
  rewrite JsMap_set_same by done. rewrite <- Hredo. by destruct room.
Qed.

Lemma commitShape_committed (room : Room) (k : JsStr) (e : Element.t) :
  truthy k = true ->
  JsMap.get k (shapesById room) = Some e ->
  Element.status e = Some COMMITTED ->
  k ∈ committedIds room ->
  redoStack room = [] ->
  commitShape room k = (Some e, room).
Proof.
  intros Hk Hget Hstatus Hin Hredo. unfold commitShape.
  rewrite Hk, Hget, (proj2 (includes_true _ _) Hin). cbn [negb].
  rewrite withStatus_committed_id by done. cbn.
  rewrite JsMap_set_same by done. rewrite <- Hredo. by destruct room.
Qed.

(** X5: committing an id a second time changes nothing: [commitPath] and
    [commitShape] applied again to the room they leave give the same result
    and the same room. *)
Theorem commit_twice (room : Room) (k : JsStr) :
  commitPath (commitPath room k).2 k = commitPath room k /\
  commitShape (commitShape room k).2 k = commitShape room k.
Proof.
  split.
  - destruct (truthy k) eqn:Hk; [|by unfold commitPath; rewrite Hk].
    destruct (JsMap.get k (pathsById room)) as [e|] eqn:Hget;
      [|by unfold commitPath; rewrite Hk, Hget; cbn; rewrite Hget].
    assert (commitPath room k
            = (Some (Element.withStatus (Some COMMITTED) e),
               (commitPath room k).2)) as Hfirst
      by (by unfold commitPath; rewrite Hk, Hget).
    rewrite Hfirst at 2. apply commitPath_committed; try done.
    all: unfold commitPath; rewrite Hk, Hget; cbn [negb snd].
    + cbn. apply JsMapFacts.get_set_eq.
    + destruct (includes k (committedIds room)) eqn:Hin; cbn.
      * by apply includes_true.
      * apply elem_of_app. right. by apply list_elem_of_singleton.
    + by destruct (includes k (committedIds room)).
  - destruct (truthy k) eqn:Hk; [|by unfold commitShape; rewrite Hk].
    destruct (JsMap.get k (shapesById room)) as [e|] eqn:Hget;
      [|by unfold commitShape; rewrite Hk, Hget; cbn; rewrite Hget].
    assert (commitShape room k
            = (Some (Element.withStatus (Some COMMITTED) e),
               (commitShape room k).2)) as Hfirst
      by (by unfold commitShape; rewrite Hk, Hget).
    rewrite Hfirst at 2. apply commitShape_committed; try done.
    all: unfold commitShape; rewrite Hk, Hget; cbn [negb snd].
    + cbn. apply JsMapFacts.get_set_eq.
    + destruct (includes k (committedIds room)) eqn:Hin; cbn.
      * by apply includes_true.
      * apply elem_of_app. right. by apply list_elem_of_singleton.
    + by destruct (includes k (committedIds room)).
Qed.

(** ** Loading and saving sessions *)

Lemma loadElement_has_mono (room : Room) (e : Element.t) (k : JsStr)
    (c : Collection) :
  JsMap.has k (collection c room) = true ->
  JsMap.has k (collection c (loadElement room e)) = true.
Proof.
  intros Hhas. unfold loadElement.
  assert (JsMap.has k
            (collection c (storeIn (collectionOf e) (Element.id e) e room))
          = true) as Hstore.
  { destruct (collectionOf e) as [c'|]; [|done]. cbn [storeIn].
    rewrite collection_setCollection. destruct (decide (c' = c)) as [->|_];
      [|done].
    unfold JsMap.has in *. rewrite JsMapFacts.get_set.
    by destruct (decide (Element.id e = k)). }
  destruct (decide _); [|done]. by destruct c.
Qed.

Lemma loadElements_has_mono (elements : list Element.t) (room : Room)
    (k : JsStr) (c : Collection) :
  JsMap.has k (collection c room) = true ->
  JsMap.has k (collection c (foldl loadElement room elements)) = true.
Proof.
  revert room. induction elements as [|e elements IH]; intros room Hhas;
    [done|].
  cbn [foldl]. by apply IH, loadElement_has_mono.
Qed.

Lemma loadElements_has_placed (elements : list Element.t) (room : Room)
    (e : Element.t) (c : Collection) :
  e ∈ elements -> collectionOf e = Some c ->
  JsMap.has (Element.id e) (collection c (foldl loadElement room elements))
  = true.
Proof.
  revert room. induction elements as [|e' elements IH]; intros room Hin Hc.
  - by apply elem_of_nil in Hin.
  - cbn [foldl]. apply elem_of_cons in Hin as [->|Hin]; [|by apply IH].
    apply loadElements_has_mono, JsMapFacts.has_true. exists e'.
    by apply loadElement_get_eq.
Qed.

(** X6: [loadSession] with an id that is not in [sessions] returns [null]
    and leaves the room as it is.  With a session it returns the elements of
    the session; what was in the collections is gone, the collections hold
    the ids of the elements whose fields select them (a text is an element
    without type and with a [content], be it [null]) and no other,
    [committedIds]
    is the ids of the elements stored with status "committed", in the order of
    the session, [redoStack] is empty, and participants, sessions and access
    data are untouched. *)
Theorem loadSession_rebuilds (room : Room) (sessionId : JsStr) :
  (JsMap.get sessionId (sessions room) = None ->
   loadSession room sessionId = (None, room)) /\
  (forall session,
     JsMap.get sessionId (sessions room) = Some session ->
     let elements := Session.elements session in
     exists room',
       loadSession room sessionId = (Some elements, room') /\
       committedIds room'
       = (Element.id <$>
            filter (fun e => Element.status e = Some "committed") elements) /\
       redoStack room' = [] /\
       sessions room' = sessions room /\
       clients room' = clients room /\
       roomType room' = roomType room /\
       passwordHash room' = passwordHash room /\
       (forall k c,
          JsMap.has k (collection c room') = true ->
          exists e,
            e ∈ elements /\ Element.id e = k /\ selects e c) /\
       (forall e c,
          e ∈ elements -> selects e c ->
          JsMap.has (Element.id e) (collection c room') = true)).
Proof.
  split.
  - intros Hnone. unfold loadSession. by rewrite Hnone.
  - intros session Hget elements. eexists.
    split; [by apply loadSession_Some|].
    destruct (loadElements_frame elements (clear room))
      as (Hclients & Hsessions & Htype & Hhash & Hredo).
    split_and!; try done.
    + by rewrite loadElements_committedIds.
    + intros k c Hhas.
      apply loadElements_has in Hhas as [Hhas|(e & ? & ? & Hkind)];
        [by destruct c|].
      exists e. by rewrite <- collectionOf_selects.
    + intros e c Hin Hselects. apply loadElements_has_placed; [done|].
      by apply collectionOf_selects.
Qed.

Lemma JsMap_set_fresh {V : Type} (k : JsStr) (v : V) (m : JsMap.t V) :
  JsMap.get k m = None -> JsMap.set k v m = m ++ [(k, v)].
Proof.
  induction m as [|[k0 v0] m IH]; cbn; [done|].
  destruct (decide (k0 = k)); [done|]. intros Hget. by rewrite IH.
Qed.

Lemma loadElement_collection (room : Room) (e : Element.t) (c c' : Collection) :
  collectionOf e = Some c ->
  collection c' (loadElement room e)
  = if decide (c = c')
    then JsMap.set (Element.id e) e (collection c room)
    else collection c' room.
Proof.
  intros Hkind. unfold loadElement. rewrite Hkind. cbn [storeIn].
  destruct (decide (Element.status e = Some COMMITTED)), c, c';
    by cbn.
Qed.

(** Loading the values of a well-keyed collection, none of whose ids the room
    has there, appends the collection in its order and touches no other. *)
Lemma loadElements_own (entries : JsMap.t Element.t) (c : Collection)
    (room : Room) :
  NoDup (JsMap.keys entries) ->
  (forall k e, (k, e) ∈ entries ->
     Element.id e = k /\ collectionOf e = Some c) ->
  (forall k, k ∈ JsMap.keys entries -> JsMap.get k (collection c room) = None) ->
  let room' := foldl loadElement room (JsMap.values entries) in
  collection c room' = collection c room ++ entries /\
  forall c', c <> c' -> collection c' room' = collection c' room.
Proof.
  unfold JsMap.keys, JsMap.values. revert room.
  induction entries as [|[k e] entries IH]; intros room Hnodup Hkeyed Hfresh.
  - cbn. by rewrite app_nil_r.
  - rewrite fmap_cons in Hnodup. cbn [fst] in Hnodup.
    apply NoDup_cons in Hnodup as [Hk Hnodup].
    destruct (Hkeyed k e) as [Hid Hkind]; [left|].
    rewrite fmap_cons. cbn [snd foldl].
    destruct (IH (loadElement room e)) as [Hown Hother]; [done| | |].
    + intros k' e' Hin. apply Hkeyed. by right.
    + intros k' Hk'. rewrite (loadElement_collection room e c c Hkind).
      rewrite decide_True by done. rewrite Hid.
      rewrite JsMapFacts.get_set_ne by (by intros ->).
      apply Hfresh. rewrite fmap_cons. by right.
    + cbn zeta in *. split.
      * rewrite Hown, (loadElement_collection room e c c Hkind).
        rewrite decide_True by done. rewrite Hid.
        rewrite JsMap_set_fresh by (apply Hfresh; rewrite fmap_cons; left).
        by rewrite <- app_assoc.
      * intros c' Hne. rewrite Hother by done.
        rewrite (loadElement_collection room e c c' Hkind).
        by rewrite decide_False.
Qed.

(** X7: saving and loading is a round trip on the collections.  In a room
    whose elements are stored under their own ids and are placed by the field
    tests where they are, [saveSession] stores the elements under the id it
    returns; [loadSession] with that id, in any later room that still has the
    session, leaves the four collections as they were at the save, elements
    and order.  [committedIds] is rebuilt from the stored statuses in the
    order paths, shapes, texts, images: the order of the commits is not
    kept. *)
Theorem save_then_load (room later : Room) (sessionName : JsStr)
    (now : Z) (suffix : string) (createdAt : Z) :
  wellKeyed room ->
  let saved := saveSession room sessionName now suffix createdAt in
  JsMap.get (Some saved.1.1) (sessions later)
  = JsMap.get (Some saved.1.1) (sessions saved.2) ->
  exists loaded,
    loadSession later (Some saved.1.1) = (Some (liveElements room), loaded) /\
    (forall c, collection c loaded = collection c room) /\
    committedIds loaded
    = (Element.id <$>
         filter (fun e => Element.status e = Some "committed")
           (liveElements room)) /\
    redoStack loaded = [].
Proof.
  intros Hkeyed saved Hstill. subst saved. unfold saveSession in *.
  cbn [fst snd sessions setSessions] in *.
  rewrite JsMapFacts.get_set_eq in Hstill. fold (liveElements room) in Hstill.
  eexists. split; [by rewrite (loadSession_Some later _ _ Hstill)|].
  cbn [Session.elements].
  destruct (loadElements_frame (liveElements room) (clear later))
    as (_ & _ & _ & _ & Hredo).
  split_and!; [|by rewrite loadElements_committedIds|done].
  unfold liveElements. rewrite !foldl_app.
  set (r0 := clear later).
  destruct (Hkeyed Paths) as [Hn1 Hk1]. destruct (Hkeyed Shapes) as [Hn2 Hk2].
  destruct (Hkeyed Texts) as [Hn3 Hk3]. destruct (Hkeyed Images) as [Hn4 Hk4].
  cbn [collection] in *.
  destruct (loadElements_own (pathsById room) Paths r0 Hn1 Hk1)
    as [Hp1 Ho1]; [done|].
  set (r1 := foldl loadElement r0 (JsMap.values (pathsById room))) in *.
  destruct (loadElements_own (shapesById room) Shapes r1 Hn2 Hk2)
    as [Hp2 Ho2]; [by intros k _; rewrite Ho1|].
  set (r2 := foldl loadElement r1 (JsMap.values (shapesById room))) in *.
  destruct (loadElements_own (textsById room) Texts r2 Hn3 Hk3)
    as [Hp3 Ho3]; [by intros k _; rewrite Ho2, Ho1|].
  set (r3 := foldl loadElement r2 (JsMap.values (textsById room))) in *.
  destruct (loadElements_own (imagesById room) Images r3 Hn4 Hk4)
    as [Hp4 Ho4]; [by intros k _; rewrite Ho3, Ho2, Ho1|].
  cbn zeta in *.
  intros [].
  - by rewrite (Ho4 Paths), (Ho3 Paths), (Ho2 Paths), Hp1.
  - by rewrite (Ho4 Shapes), (Ho3 Shapes), Hp2, (Ho1 Shapes).
  - by rewrite (Ho4 Texts), Hp3, (Ho2 Texts), (Ho1 Texts).
  - by rewrite Hp4, (Ho3 Images), (Ho2 Images), (Ho1 Images).
Qed.

(** ** The list of sessions is sorted *)

Lemma insertByCreatedAt_Permutation (a : SessionMeta.t)
    (sorted : list SessionMeta.t) :
  insertByCreatedAt a sorted ≡ₚ a :: sorted.
Proof.
  induction sorted as [|b sorted IH]; cbn [insertByCreatedAt]; [done|].
  destruct (_ <? _)%Z; [|done]. rewrite IH. apply Permutation_swap.
Qed.

Lemma insertByCreatedAt_sorted (a : SessionMeta.t)
    (sorted : list SessionMeta.t) :
  StronglySorted notOlder sorted ->
  StronglySorted notOlder (insertByCreatedAt a sorted).
Proof.
  induction 1 as [|b sorted Hsorted IH Hb]; cbn [insertByCreatedAt].
  - by repeat constructor.
  - destruct (_ <? _)%Z eqn:Hlt.
    + apply Z.ltb_lt in Hlt. constructor; [done|].
      rewrite insertByCreatedAt_Permutation. constructor; [|done].
      unfold notOlder. lia.
    + apply Z.ltb_ge in Hlt. constructor; [by constructor|].
      constructor; [done|].
      eapply Forall_impl; [exact Hb|]. unfold notOlder. intros x ?. lia.
Qed.

Lemma insertByCreatedAt_filter (a : SessionMeta.t) (t : Z)
    (sorted : list SessionMeta.t) :
  filter (fun x => SessionMeta.createdAt x = t) (insertByCreatedAt a sorted)
  = filter (fun x => SessionMeta.createdAt x = t) (a :: sorted).
Proof.
  induction sorted as [|b sorted IH]; cbn [insertByCreatedAt]; [done|].
  destruct (_ <? _)%Z eqn:Hlt; [|done]. apply Z.ltb_lt in Hlt.
  destruct (decide (SessionMeta.createdAt b = t)) as [Hb|Hb].
  - rewrite (filter_cons_True _ b) by done. rewrite IH.
    rewrite (filter_cons_False _ a) by lia.
    rewrite (filter_cons_False _ a) by lia.
    by rewrite filter_cons_True.
  - rewrite (filter_cons_False _ b) by done. rewrite IH.
    destruct (decide (SessionMeta.createdAt a = t)).
    + rewrite !(filter_cons_True _ a) by done.
      by rewrite filter_cons_False.
    + rewrite !(filter_cons_False _ a) by done.
      by rewrite filter_cons_False.
Qed.

(** X8: [buildSessionList] lists every session of the room once, with its
    id, name and date, the most recent first; sessions with the same
    [createdAt] keep the order in which they were saved. *)
Theorem buildSessionList_sorted (room : Room) :
  buildSessionList room ≡ₚ sessionMeta <$> JsMap.entries (sessions room) /\
  StronglySorted notOlder (buildSessionList room) /\
  (forall t,
     filter (fun x => SessionMeta.createdAt x = t) (buildSessionList room)
     = filter (fun x => SessionMeta.createdAt x = t)
         (sessionMeta <$> JsMap.entries (sessions room))).
Proof.
  assert (buildSessionList room
          = sortByCreatedAtDesc (sessionMeta <$> JsMap.entries (sessions room)))
    as ->.
  { unfold buildSessionList. f_equal.
    induction (JsMap.entries (sessions room)) as [|[k s] l IH]; [done|].
    cbn [map]. by rewrite fmap_cons, IH. }
  generalize (sessionMeta <$> JsMap.entries (sessions room)). intros l.
  unfold sortByCreatedAtDesc. split_and!.
  - induction l as [|a l IH]; cbn [foldr]; [done|].
    by rewrite insertByCreatedAt_Permutation, IH.
  - induction l as [|a l IH]; cbn [foldr]; [constructor|].
    by apply insertByCreatedAt_sorted.
  - intros t. induction l as [|a l IH]; cbn [foldr]; [done|].
    rewrite insertByCreatedAt_filter.
    destruct (decide (SessionMeta.createdAt a = t)).
    + rewrite !(filter_cons_True _ a) by done. by rewrite IH.
    + by rewrite !(filter_cons_False _ a).
Qed.

(** ** The state broadcast *)

Lemma omap_cons_match {A B : Type} (f : A -> option B) (x : A) (l : list A) :
  omap f (x :: l)
  = match f x with Some y => y :: omap f l | None => omap f l end.
Proof. reflexivity. Qed.

Lemma get_cons {V : Type} (k i : JsStr) (v : V) (m : JsMap.t V) :
  JsMap.get i ((k, v) :: m) = if decide (k = i) then Some v else JsMap.get i m.
Proof. reflexivity. Qed.

Lemma omap_get_cons_fresh (k : JsStr) (v : Element.t) (m : JsMap.t Element.t)
    (ids : list JsStr) :
  k ∉ ids ->
  omap (fun id => JsMap.get id ((k, v) :: m)) ids
  = omap (fun id => JsMap.get id m) ids.
Proof.
  induction ids as [|i ids IH]; [done|].
  intros [Hne Hk]%not_elem_of_cons. rewrite !omap_cons_match, get_cons.
  rewrite decide_False by done. by rewrite IH.
Qed.

Lemma omap_get_cons_here (k : JsStr) (v : Element.t) (m : JsMap.t Element.t)
    (ids : list JsStr) :
  NoDup ids -> k ∈ ids -> JsMap.get k m = None ->
  omap (fun id => JsMap.get id ((k, v) :: m)) ids
  ≡ₚ v :: omap (fun id => JsMap.get id m) ids.
Proof.
  intros Hnodup Hin Hnone. induction ids as [|i ids IH].
  - by apply elem_of_nil in Hin.
  - apply NoDup_cons in Hnodup as [Hi Hnodup].
    rewrite !omap_cons_match, get_cons.
    destruct (decide (k = i)) as [<-|Hne].
    + rewrite Hnone. by rewrite omap_get_cons_fresh.
    + apply elem_of_cons in Hin as [?|Hin]; [done|].
      destruct (JsMap.get i m); rewrite (IH Hnodup Hin); [|done].
      apply Permutation_swap.
Qed.

Lemma payload_paths_Permutation (room : Room) :
  NoDup (committedIds room) ->
  NoDup (JsMap.keys (pathsById room)) ->
  StatePayload.paths (buildStatePayload room)
  ≡ₚ JsMap.values (pathsById room).
Proof.
  intros Hids Hkeys. unfold buildStatePayload. cbn [StatePayload.paths].
  unfold JsMap.entries, JsMap.values, JsMap.keys in *.
  generalize dependent (pathsById room). intros m Hkeys.
  generalize dependent (committedIds room). intros ids Hids.
  induction m as [|[k v] m IH]; [|].
  { cbn. rewrite app_nil_r. clear Hids.
    induction ids as [|i ids IHids]; [done|]. by rewrite omap_cons_match. }
  rewrite fmap_cons in Hkeys. cbn [fst] in Hkeys.
  apply NoDup_cons in Hkeys as [Hk Hkeys].
  rewrite fmap_cons. cbn [snd]. rewrite (omap_cons_match _ (k, v)).
  unfold includes at 1. destruct (decide (k ∈ ids)) as [Hin|Hout].
  - rewrite bool_decide_eq_true_2 by done.
    rewrite omap_get_cons_here;
      [|done|done|by apply JsMapFacts.get_None_keys].
    cbn [app]. by rewrite IH.
  - rewrite bool_decide_eq_false_2 by done.
    rewrite omap_get_cons_fresh by done.
    rewrite <- Permutation_middle. by rewrite IH.
Qed.

(** X9: the state message carries every path of the room once when
    [committedIds] has no duplicates: the paths whose ids are committed, in
    the order of the commits, then the others in the order of [pathsById].
    Shapes, texts and images go out in the order of their collections,
    [redoCount] is the length of [redoStack], and there is one user and one
    cursor per participant. *)
Theorem buildStatePayload_complete (room : Room) :
  NoDup (committedIds room) ->
  NoDup (JsMap.keys (pathsById room)) ->
  let payload := buildStatePayload room in
  StatePayload.paths payload ≡ₚ JsMap.values (pathsById room) /\
  (exists committed pending,
     StatePayload.paths payload = committed ++ pending /\
     committed
     = omap (fun id => JsMap.get id (pathsById room)) (committedIds room) /\
     pending
     = (filter (fun entry => entry.1 ∉ committedIds room)
          (JsMap.entries (pathsById room))).*2) /\
  StatePayload.shapes payload = JsMap.values (shapesById room) /\
  StatePayload.texts payload = JsMap.values (textsById room) /\
  StatePayload.images payload = JsMap.values (imagesById room) /\
  StatePayload.redoCount payload = length (redoStack room) /\
  Client.id <$> JsMap.values (clients room)
  = User.id <$> StatePayload.users payload /\
  Client.id <$> JsMap.values (clients room)
  = Cursor.id <$> StatePayload.cursors payload.
Proof.
  intros Hids Hkeys payload.
  split; [by apply payload_paths_Permutation|].
  subst payload. unfold buildStatePayload.
  cbn [StatePayload.paths StatePayload.shapes StatePayload.texts
       StatePayload.images StatePayload.redoCount StatePayload.users
       StatePayload.cursors].
  unfold JsMap.entries, JsMap.values, JsMap.keys in *.
  generalize dependent (pathsById room). intros m Hkeys.
  generalize dependent (committedIds room). intros ids Hids.
  split_and!; try done.
  - eexists _, _. split; [reflexivity|]. split; [done|]. clear Hkeys.
    induction m as [|[k v] m IH]; [done|]. rewrite (omap_cons_match _ (k, v)).
    unfold includes at 1. destruct (decide (k ∈ ids)) as [Hin|Hout].
    + rewrite bool_decide_eq_true_2 by done.
      rewrite filter_cons_False by (cbn; by intros ?). apply IH.
    + rewrite bool_decide_eq_false_2 by done.
      rewrite filter_cons_True by done. rewrite fmap_cons. cbn [snd].
      f_equal. apply IH.
  - induction (clients room) as [|[k c] l IH]; [done|].
    rewrite !fmap_cons. cbn. f_equal. apply IH.
  - induction (clients room) as [|[k c] l IH]; [done|].
    rewrite !fmap_cons. cbn. f_equal. apply IH.
Qed.

(** ** Colours of the first ten participants *)

Lemma firstUnused_Some (used : list JsStr) (palette : list string) (c : string) :
  firstUnused used palette = Some c -> c ∈ palette /\ Some c ∉ used.
Proof.
  induction palette as [|b palette IH]; cbn [firstUnused]; [done|].
  destruct (bool_decide (Some b ∈ used)) eqn:Hb; cbn [negb].
  - intros [Hin Hc]%IH. split; [by right|done].
  - intros [= <-]. apply bool_decide_eq_false in Hb. split; [left|done].
Qed.

Lemma firstUnused_None (used : list JsStr) (palette : list string) :
  firstUnused used palette = None -> forall c, c ∈ palette -> Some c ∈ used.
Proof.
  induction palette as [|b palette IH]; cbn [firstUnused].
  - intros _ c Hc. by apply elem_of_nil in Hc.
  - destruct (bool_decide (Some b ∈ used)) eqn:Hb; cbn [negb]; [|done].
    apply bool_decide_eq_true in Hb.
    intros Hnone c [->|Hc]%elem_of_cons; [done|by apply IH].
Qed.

Lemma USER_COLORS_NoDup : NoDup USER_COLORS.
Proof.
  apply NoDup_ListNoDup. unfold USER_COLORS.
  repeat constructor; cbn; intuition discriminate.
Qed.

Lemma values_set_elem_of {V : Type} (k : JsStr) (v x : V) (m : JsMap.t V) :
  x ∈ JsMap.values (JsMap.set k v m) -> x = v \/ x ∈ JsMap.values m.
Proof.
  unfold JsMap.values. induction m as [|[k0 v0] m IH]; cbn [JsMap.set].
  - intros Hx%list_elem_of_singleton. by left.
  - destruct (decide (k0 = k)).
    + rewrite !fmap_cons. cbn [snd]. intros [->|Hx]%elem_of_cons; [by left|].
      right. by right.
    + rewrite !fmap_cons. cbn [snd]. intros [->|Hx]%elem_of_cons.
      * right. left.
      * destruct (IH Hx) as [?|?]; [by left|right; by right].
Qed.

Lemma NoDup_colors_set (k : JsStr) (v : Client.t) (m : JsMap.t Client.t) :
  NoDup (Client.color <$> JsMap.values m) ->
  Client.color v ∉ Client.color <$> JsMap.values m ->
  NoDup (Client.color <$> JsMap.values (JsMap.set k v m)).
Proof.
  unfold JsMap.values. induction m as [|[k0 v0] m IH]; cbn [JsMap.set].
  - intros _ _. apply NoDup_singleton.
  - rewrite !fmap_cons. cbn [snd].
    intros [Hv0 Hnodup]%NoDup_cons [Hne Hv]%not_elem_of_cons.
    destruct (decide (k0 = k)).
    + rewrite !fmap_cons. cbn [snd]. by apply NoDup_cons.
    + rewrite !fmap_cons. cbn [snd]. apply NoDup_cons. split; [|by apply IH].
      intros (x & Hcolor & Hx)%list_elem_of_fmap.
      apply (values_set_elem_of k v x m) in Hx as [->|Hx]; [done|].
      apply Hv0. apply list_elem_of_fmap. by exists x.
Qed.

(** X10: [pickUserColor] always gives a colour of the palette.  While a room
    has fewer than ten participants the colour is one that none of them has,
    so if their colours are distinct, they still are once the participant is
    registered: the first ten participants of a room have ten colours. *)
Theorem first_ten_colors_distinct (room : Room) :
  (exists c, pickUserColor room = Some c /\ c ∈ USER_COLORS) /\
  ((JsMap.size (clients room) < 10)%nat ->
   (pickUserColor room ∉ usedColors room) /\
   forall clientId message roomId,
     NoDup (usedColors room) ->
     NoDup (usedColors (register room clientId message roomId))).
Proof.
  assert ((JsMap.size (clients room) < 10)%nat ->
          pickUserColor room ∉ usedColors room) as Hfresh.
  { intros Hsize. unfold pickUserColor.
    destruct (firstUnused (usedColors room) USER_COLORS) as [c|] eqn:Hfirst.
    - by apply firstUnused_Some in Hfirst as [_ ?].
    - exfalso. pose proof (firstUnused_None _ _ Hfirst) as Hall.
      assert (Some <$> USER_COLORS ⊆+ usedColors room) as Hsub.
      { apply NoDup_submseteq.
        - apply (NoDup_fmap_2 _), USER_COLORS_NoDup.
        - intros x (c & -> & Hc)%list_elem_of_fmap. by apply Hall. }
      apply submseteq_length in Hsub. rewrite length_fmap in Hsub.
      unfold usedColors in Hsub. rewrite length_map in Hsub.
      unfold JsMap.values in Hsub. rewrite length_fmap in Hsub.
      unfold JsMap.size in Hsize. cbn in Hsub. lia. }
  split.
  - unfold pickUserColor.
    destruct (firstUnused (usedColors room) USER_COLORS) as [c|] eqn:Hfirst.
    + exists c. by apply firstUnused_Some in Hfirst as [? _].
    + destruct (lookup_lt_is_Some_2 USER_COLORS
                  (JsMap.size (clients room) mod length USER_COLORS))
        as [c Hc]; [by apply Nat.mod_upper_bound|].
      exists c. split; [done|]. by eapply list_elem_of_lookup_2.
  - intros Hsize. split; [by apply Hfresh|].
    intros clientId message roomId Hnodup. unfold register, usedColors.
    cbn [clients setClients].
    replace (map Client.color) with (fmap (M:=list) Client.color) by done.
    apply NoDup_colors_set; [done|]. cbn [Client.color clientInfo].
    by apply Hfresh.
Qed.

(** * The handlers *)

Lemma run_keeps_participants (op : Op) (room : Room) :
  clients (run op room) = clients room /\ sameAccess room (run op room).
Proof.
  unfold sameAccess. destruct op; cbn [run].
  - unfold upsertPath. destruct path as [e|]; [|done].
    by destruct (truthy (Element.id e)).
  - unfold commitPath. destruct (truthy pathId); [|done].
    destruct (JsMap.get pathId (pathsById room)); [|done].
    by destruct (includes _ _).
  - unfold upsertShape. destruct shape as [e|]; [|done].
    by destruct (truthy (Element.id e)).
  - unfold commitShape. destruct (truthy shapeId); [|done].
    destruct (JsMap.get shapeId (shapesById room)); [|done].
    by destruct (includes _ _).
  - unfold addText. destruct text as [e|]; [|done].
    by destruct (truthy (Element.id e)).
  - unfold addImage. destruct image as [e|]; [|done].
    by destruct (truthy (Element.id e)).
  - unfold undo. destruct (pop (committedIds room)) as [popped ids].
    destruct (truthy (mjoin popped)); [|done]. cbn [negb].
    destruct (holder _ _) as [c|]; [|done].
    destruct (JsMap.get _ _); [|done]. by destruct c.
  - unfold redo. destruct (pop (redoStack room)) as [[item|] stack]; [|done].
    cbn [snd]. by destruct (collectionOf (RedoItem.element item)) as [[]|].
  - done.
  - done.
  - unfold loadSession.
    destruct (JsMap.get sessionId (sessions room)) as [session|]; [|done].
    cbn [snd].
    by destruct (loadElements_frame (Session.elements session) (clear room))
      as (-> & _ & -> & -> & _).
Qed.

Lemma upsert_refuses (room : Room) (element : option Element.t) :
  (missingId element <-> (upsertPath room element).1 = None) /\
  (missingId element <-> (upsertShape room element).1 = None).
Proof.
  unfold upsertPath, upsertShape, missingId. destruct element as [e|]; [|done].
  by destruct (truthy (Element.id e)).
Qed.

Lemma add_refuses (room : Room) (element : option Element.t) :
  (missingId element <-> (addText room element).1 = None) /\
  (missingId element <-> (addImage room element).1 = None).
Proof.
  unfold addText, addImage, missingId. destruct element as [e|]; [|done].
  by destruct (truthy (Element.id e)).
Qed.

Lemma commit_refuses (room : Room) (k : JsStr) :
  (truthy k = false \/ JsMap.get k (pathsById room) = None
   <-> (commitPath room k).1 = None) /\
  (truthy k = false \/ JsMap.get k (shapesById room) = None
   <-> (commitShape room k).1 = None).
Proof.
  unfold commitPath, commitShape. destruct (truthy k); cbn [negb].
  - destruct (JsMap.get k (pathsById room)), (JsMap.get k (shapesById room));
      cbn [fst]; intuition discriminate.
  - by intuition.
Qed.

Ltac in_room_cases :=
  unfold handleInRoom; repeat case_decide; subst.

(** The registry an in-room command leaves: the same, or the same with the
    room of the connection replaced by what an operation of the engine or
    the move of the sender's cursor made of it. *)
Lemma handleInRoom_room (rooms : JsMap.t Room) (roomId : string) (room : Room)
    (clientId : string) (info : Client.t) (type : string)
    (message : ClientMessage.t) (now : Z) (suffix : string) (createdAt : Z) :
  let result :=
    handleInRoom rooms roomId room clientId info type message
      now suffix createdAt in
  result.1 = rooms \/
  exists room',
    result.1 = JsMap.set (Some roomId) room' rooms /\
    ((exists op,
        room' = run op room /\
        (type <> "save-session" -> sessions room' = sessions room) /\
        (type = "save-session" ->
         op = SaveSession (JoinMessage.name (ClientMessage.join message))
                now suffix createdAt)) \/
     room'
     = setClients
         (JsMap.set (Some clientId)
            (moveCursor info (ClientMessage.position message)) (clients room))
         room).
Proof.
  cbn zeta. in_room_cases.
  - right. eexists. split; [done|]. by right.
  - destruct (upsertPath _ _) as [[?|] room'] eqn:E; [|by left].
    right. exists room'. split; [done|]. left.
    exists (UpsertPath (ClientMessage.path message)). cbn [run]. rewrite E.
    split_and!; [done| |done]. intros _.
    destruct (run_sessions (UpsertPath (ClientMessage.path message)) room)
      as [Hsame|(? & ? & ? & ? & [=])].
    cbn [run] in Hsame. by rewrite E in Hsame.
  - destruct (commitPath _ _) as [[?|] room'] eqn:E; [|by left].
    right. exists room'. split; [done|]. left.
    exists (CommitPath (ClientMessage.id message)). cbn [run]. rewrite E.
    split_and!; [done| |done]. intros _.
    destruct (run_sessions (CommitPath (ClientMessage.id message)) room)
      as [Hsame|(? & ? & ? & ? & [=])].
    cbn [run] in Hsame. by rewrite E in Hsame.
  - destruct (upsertShape _ _) as [[?|] room'] eqn:E; [|by left].
    right. exists room'. split; [done|]. left.
    exists (UpsertShape (ClientMessage.shape message)). cbn [run]. rewrite E.
    split_and!; [done| |done]. intros _.
    destruct (run_sessions (UpsertShape (ClientMessage.shape message)) room)
      as [Hsame|(? & ? & ? & ? & [=])].
    cbn [run] in Hsame. by rewrite E in Hsame.
  - destruct (commitShape _ _) as [[?|] room'] eqn:E; [|by left].
    right. exists room'. split; [done|]. left.
    exists (CommitShape (ClientMessage.id message)). cbn [run]. rewrite E.
    split_and!; [done| |done]. intros _.
    destruct (run_sessions (CommitShape (ClientMessage.id message)) room)
      as [Hsame|(? & ? & ? & ? & [=])].
    cbn [run] in Hsame. by rewrite E in Hsame.
  - destruct (addText _ _) as [[?|] room'] eqn:E; [|by left].
    right. exists room'. split; [done|]. left.
    exists (AddText (ClientMessage.text message)). cbn [run]. rewrite E.
    split_and!; [done| |done]. intros _.
    destruct (run_sessions (AddText (ClientMessage.text message)) room)
      as [Hsame|(? & ? & ? & ? & [=])].
    cbn [run] in Hsame. by rewrite E in Hsame.
  - destruct (addImage _ _) as [[?|] room'] eqn:E; [|by left].
    right. exists room'. split; [done|]. left.
    exists (AddImage (ClientMessage.image message)). cbn [run]. rewrite E.
    split_and!; [done| |done]. intros _.
    destruct (run_sessions (AddImage (ClientMessage.image message)) room)
      as [Hsame|(? & ? & ? & ? & [=])].
    cbn [run] in Hsame. by rewrite E in Hsame.
  - right. eexists. split; [done|]. left. exists Undo.
    split_and!; [done| |done]. intros _.
    by destruct (run_sessions Undo room) as [Hsame|(? & ? & ? & ? & [=])].
  - right. eexists. split; [done|]. left. exists Redo.
    split_and!; [done| |done]. intros _.
    by destruct (run_sessions Redo room) as [Hsame|(? & ? & ? & ? & [=])].
  - right. eexists. split; [done|]. left. by exists Clear.
  - right. eexists. split; [done|]. left. by eexists (SaveSession _ _ _ _).
  - destruct (loadSession _ _) as [[?|] room'] eqn:E; [|by left].
    right. exists room'. split; [done|]. left.
    exists (LoadSession (ClientMessage.sessionId message)). cbn [run].
    rewrite E. split_and!; [done| |done]. intros _.
    destruct (run_sessions (LoadSession (ClientMessage.sessionId message)) room)
      as [Hsame|(? & ? & ? & ? & [=])].
    cbn [run] in Hsame. by rewrite E in Hsame.
  - by left.
Qed.

Section Handlers.
Variable sha256_hex : string -> string.
Variable trim : string -> string.

(** X11: a frame that is not JSON, a message without a type that is a
    string, a command before any join, a command of a connection that is not
    a participant of its room, an unknown command, a load of a session the
    room does not have and a command the engine refuses leave the registry
    and the room of the connection as they are.  The first three and the
    unknown command and session are answered by one error to the sender; a
    participant's command gets no answer at all exactly when the engine
    refuses it. *)
Theorem protocol_errors_change_nothing (rooms : JsMap.t Room)
    (clientId : string) (currentRoom : option string)
    (now : Z) (suffix : string) (createdAt : Z) :
  let handle := fun frame =>
    handleMessage sha256_hex trim rooms clientId currentRoom frame
      now suffix createdAt in
  let unchanged := fun outputs => (rooms, currentRoom, outputs) in
  handle Unparsable = unchanged [sendError "Invalid JSON payload."] /\
  (forall message,
     ClientMessage.type message = None ->
     handle (Parsed message) = unchanged [sendError "Message type is required."]) /\
  (forall message type,
     ClientMessage.type message = Some type -> type <> "join" ->
     (currentRoom = None ->
      handle (Parsed message) = unchanged [sendError "Not joined to a room."]) /\
     (forall roomId room,
        currentRoom = Some roomId -> getRoom rooms roomId = Some room ->
        (JsMap.get (Some clientId) (clients room) = None ->
         handle (Parsed message) = unchanged []) /\
        (is_Some (JsMap.get (Some clientId) (clients room)) ->
         (type ∉ messageTypes ->
          handle (Parsed message)
          = unchanged [sendError ("Unknown message type: " +:+ type)]) /\
         (type = "load-session" ->
          JsMap.get (ClientMessage.sessionId message) (sessions room) = None ->
          handle (Parsed message) = unchanged [sendError "Session not found."]) /\
         (refused type message room ->
          handle (Parsed message) = unchanged []) /\
         ((handle (Parsed message)).2 = [] -> refused type message room)))).
Proof.
  intros handle unchanged. subst handle unchanged. cbn beta.
  split_and!;
    [done|intros message Hnone; unfold handleMessage; by rewrite Hnone|].
  intros message type Htype Hjoin. unfold handleMessage. rewrite Htype.
  rewrite decide_False by done. split; [by intros ->|].
  intros roomId room -> Hroom. rewrite Hroom. split; [by intros ->|].
  intros [info Hinfo]. rewrite Hinfo.
  destruct (upsert_refuses room (ClientMessage.path message)) as [Hpath _].
  destruct (upsert_refuses room (ClientMessage.shape message)) as [_ Hshape].
  destruct (add_refuses room (ClientMessage.text message)) as [Htext _].
  destruct (add_refuses room (ClientMessage.image message)) as [_ Himage].
  destruct (commit_refuses room (ClientMessage.id message))
    as [HcommitPath HcommitShape].
  split_and!.
  - intros Hnot. unfold handleInRoom.
    repeat (rewrite decide_False;
            [|intros ->; apply Hnot, list_elem_of_In; cbn; tauto]).
    done.
  - intros -> Hnone. in_room_cases; try congruence.
    unfold loadSession. by rewrite Hnone.
  - intros Hrefused. unfold refused in Hrefused. in_room_cases.
    all: repeat (destruct Hrefused as [[? Hrefused]|Hrefused]; try congruence).
    all: try (destruct Hrefused as [? Hrefused]; try congruence).
    + apply Hpath in Hrefused.
      destruct (upsertPath _ _) as [[?|] ?]; [discriminate Hrefused|done].
    + apply HcommitPath in Hrefused.
      destruct (commitPath _ _) as [[?|] ?]; [discriminate Hrefused|done].
    + apply Hshape in Hrefused.
      destruct (upsertShape _ _) as [[?|] ?]; [discriminate Hrefused|done].
    + apply HcommitShape in Hrefused.
      destruct (commitShape _ _) as [[?|] ?]; [discriminate Hrefused|done].
    + apply Htext in Hrefused.
      destruct (addText _ _) as [[?|] ?]; [discriminate Hrefused|done].
    + apply Himage in Hrefused.
      destruct (addImage _ _) as [[?|] ?]; [discriminate Hrefused|done].
  - unfold refused. in_room_cases; try discriminate.
    + destruct (upsertPath _ _) as [[?|] ?]; [discriminate|]. intros _.
      left. split; [done|]. by apply Hpath.
    + destruct (commitPath _ _) as [[?|] ?]; [discriminate|]. intros _.
      do 4 right. left. split; [done|]. by apply HcommitPath.
    + destruct (upsertShape _ _) as [[?|] ?]; [discriminate|]. intros _.
      right. left. split; [done|]. by apply Hshape.
    + destruct (commitShape _ _) as [[?|] ?]; [discriminate|]. intros _.
      do 5 right. split; [done|]. by apply HcommitShape.
    + destruct (addText _ _) as [[?|] ?]; [discriminate|]. intros _.
      do 2 right. left. split; [done|]. by apply Htext.
    + destruct (addImage _ _) as [[?|] ?]; [discriminate|]. intros _.
      do 3 right. left. split; [done|]. by apply Himage.
    + by destruct (loadSession _ _) as [[?|] ?].
Qed.

Lemma handleJoin_lookup (rooms : JsMap.t Room) (clientId : string)
    (currentRoom : option string) (message : JoinMessage.t) :
  joinError sha256_hex trim rooms message = None ->
  let roomId := orElse (JoinMessage.roomId message) "default" in
  let result := handleJoin sha256_hex trim rooms clientId currentRoom message in
  exists room,
    entered rooms roomId room /\
    result.1.2 = Some roomId /\
    forall other,
      getRoom result.1.1 other
      = if decide (roomId = other)
        then Some (restoreLatestSession (register room clientId message roomId))
        else getRoom rooms other.
Proof.
  intros Hok roomId result. subst result. unfold handleJoin. rewrite Hok.
  fold roomId. unfold getOrCreateRoom, getRoom.
  destruct (JsMap.get (Some roomId) rooms) as [room|] eqn:Hget.
  - exists room. split; [by left|]. split; [done|]. intros other.
    cbn [fst]. rewrite JsMapFacts.get_set.
    destruct (decide (Some roomId = Some other)) as [[= ->]|Hne].
    + by rewrite decide_True.
    + rewrite decide_False by congruence. done.
  - eexists. split; [right; split; [done|by eexists]|]. split; [done|].
    intros other. cbn [fst]. rewrite !JsMapFacts.get_set.
    destruct (decide (roomId = other)) as [->|Hne].
    + destruct (decide (Some other = Some other)); [reflexivity|done].
    + destruct (decide (Some roomId = Some other)); [congruence|done].
Qed.

(** What a frame does to the registry: nothing, or it replaces the room it
    addresses: a join by the room entered with the participant registered
    and the latest session restored, a command as [handleInRoom_room]
    says. *)
Lemma handleMessage_lookup (rooms : JsMap.t Room) (clientId : string)
    (currentRoom : option string) (frame : Frame)
    (now : Z) (suffix : string) (createdAt : Z) :
  let result :=
    handleMessage sha256_hex trim rooms clientId currentRoom frame
      now suffix createdAt in
  result.1 = (rooms, currentRoom) \/
  exists message roomId room room',
    frame = Parsed message /\
    addressed currentRoom frame = Some roomId /\
    result.1.2 = Some roomId /\
    entered rooms roomId room /\
    (forall other,
       getRoom result.1.1 other
       = if decide (roomId = other) then Some room' else getRoom rooms other) /\
    ((ClientMessage.type message = Some "join" /\
      room'
      = restoreLatestSession
          (register room clientId (ClientMessage.join message) roomId)) \/
     (ClientMessage.type message <> Some "join" /\
      currentRoom = Some roomId /\
      getRoom rooms roomId = Some room /\
      ((exists op,
          room' = run op room /\
          (ClientMessage.type message <> Some "save-session" ->
           sessions room' = sessions room) /\
          (ClientMessage.type message = Some "save-session" ->
           op = SaveSession (JoinMessage.name (ClientMessage.join message))
                  now suffix createdAt)) \/
       exists info,
         JsMap.get (Some clientId) (clients room) = Some info /\
         room'
         = setClients
             (JsMap.set (Some clientId)
                (moveCursor info (ClientMessage.position message))
                (clients room))
             room))).
Proof.
  intros result. subst result. destruct frame as [|message]; [by left|].
  unfold handleMessage.
  destruct (ClientMessage.type message) as [type|] eqn:Htype; [|by left].
  destruct (decide (type = "join")) as [->|Hjoin].
  - destruct (joinError sha256_hex trim rooms (ClientMessage.join message))
      as [error|] eqn:Herror.
    { left. unfold handleJoin. rewrite Herror. by destruct error. }
    destruct (handleJoin_lookup rooms clientId currentRoom
                (ClientMessage.join message) Herror)
      as (room & Hentered & Hcurrent & Hlookup).
    right. cbn zeta in Hcurrent, Hlookup.
    destruct (handleJoin _ _ _ _ _ _) as [[rooms' current'] effects].
    cbn [fst snd] in *. eexists message, _, room, _.
    split; [done|]. unfold addressed. rewrite Htype, decide_True by done.
    split; [done|]. split; [done|]. split; [done|]. split; [exact Hlookup|].
    by left.
  - destruct currentRoom as [roomId|]; [|by left].
    destruct (getRoom rooms roomId) as [room|] eqn:Hroom; [|by left].
    destruct (JsMap.get (Some clientId) (clients room)) as [info|] eqn:Hinfo;
      [|by left].
    pose proof (handleInRoom_room rooms roomId room clientId info type message
                  now suffix createdAt) as Hshape.
    cbn zeta in Hshape.
    destruct (handleInRoom _ _ _ _ _ _ _ _ _ _) as [rooms' outputs].
    cbn [fst snd] in *.
    destruct Hshape as [-> |(room' & -> & Hroom')]; [by left|].
    right. exists message, roomId, room, room'.
    split; [done|]. unfold addressed. rewrite Htype.
    rewrite decide_False by congruence.
    split; [done|]. split; [done|]. split; [by left|]. split.
    { intros other. unfold getRoom. rewrite JsMapFacts.get_set.
      destruct (decide (Some roomId = Some other)) as [[= ->]|Hne].
      - by rewrite decide_True.
      - rewrite decide_False by congruence. done. }
    right. split; [congruence|]. split; [done|]. split; [done|].
    destruct Hroom' as [(op & -> & Hsessions & Hsave)| ->].
    + left. exists op. split; [done|]. split.
      * intros Hne. apply Hsessions. congruence.
      * intros [= ->]. by apply Hsave.
    + right. by exists info.
Qed.

(** X12: a frame changes at most the room it addresses, the room named by a
    join and the room of the connection otherwise, and a close at most the
    room of the connection: every other room of the registry is the same
    afterwards.  No room is ever dropped from the registry, so the room a
    connection is bound to stays in it. *)
Theorem other_rooms_untouched (rooms : JsMap.t Room) (clientId : string)
    (currentRoom : option string) (frame : Frame)
    (now : Z) (suffix : string) (createdAt : Z) :
  let result :=
    handleMessage sha256_hex trim rooms clientId currentRoom frame
      now suffix createdAt in
  let closed := handleClose rooms clientId currentRoom in
  (forall other,
     addressed currentRoom frame <> Some other ->
     getRoom result.1.1 other = getRoom rooms other) /\
  (forall other,
     currentRoom <> Some other -> getRoom closed.1 other = getRoom rooms other) /\
  (forall roomId,
     is_Some (getRoom rooms roomId) ->
     is_Some (getRoom result.1.1 roomId) /\ is_Some (getRoom closed.1 roomId)) /\
  ((forall roomId, currentRoom = Some roomId -> is_Some (getRoom rooms roomId)) ->
   forall roomId,
     result.1.2 = Some roomId -> is_Some (getRoom result.1.1 roomId)).
Proof.
  intros result closed.
  pose proof (handleMessage_lookup rooms clientId currentRoom frame
                now suffix createdAt) as Hlookup.
  cbn zeta in Hlookup. fold result in Hlookup.
  assert (forall other,
            getRoom closed.1 other = getRoom rooms other \/
            (currentRoom = Some other /\ is_Some (getRoom closed.1 other)))
    as Hclosed.
  { intros other. subst closed. unfold handleClose.
    destruct currentRoom as [roomId|]; [|by left].
    destruct (getRoom rooms roomId) as [room|] eqn:Hroom; [|by left].
    destruct (decide (roomId = other)) as [->|Hne].
    - right. split; [done|]. unfold getRoom.
      destruct (_ =? _)%nat; cbn [fst]; rewrite JsMapFacts.get_set_eq; eauto.
    - left. unfold getRoom.
      destruct (_ =? _)%nat; cbn [fst]; rewrite JsMapFacts.get_set_ne;
        congruence. }
  split_and!.
  - intros other Hother.
    destruct Hlookup as [->|(message & roomId & room & room' & _ & Haddressed
                              & _ & _ & Hget & _)]; [done|].
    rewrite Hget, decide_False; [done|congruence].
  - intros other Hother. destruct (Hclosed other) as [?|[? _]]; congruence.
  - intros roomId Hsome. split.
    + destruct Hlookup as [->|(message & roomId' & room & room' & _ & _ & _ & _
                                & Hget & _)]; [done|].
      rewrite Hget. destruct (decide (roomId' = roomId)); eauto.
    + destruct (Hclosed roomId) as [->|[_ ?]]; done.
  - intros Hbound roomId Hcurrent.
    destruct Hlookup as [Hsame|(message & roomId' & room & room' & _ & _
                                 & Hcurrent' & _ & Hget & _)].
    + rewrite Hsame in Hcurrent |- *. cbn [fst snd] in *. by apply Hbound.
    + rewrite Hget. rewrite Hcurrent' in Hcurrent. injection Hcurrent as ->.
      rewrite decide_True by done. eauto.
Qed.

Lemma restoreLatestSession_frame (room : Room) :
  sessions (restoreLatestSession room) = sessions room /\
  sameAccess room (restoreLatestSession room).
Proof.
  unfold restoreLatestSession, sameAccess. destruct (_ && _); [|done].
  destruct (truthy _); [|done]. unfold loadSession.
  destruct (JsMap.get _ _) as [session|]; [|done]. cbn [snd].
  by destruct (loadElements_frame (Session.elements session) (clear room))
    as (_ & -> & -> & -> & _).
Qed.


(** X16: a participant that joins another room is not taken out of the room
    it was in, and the close of its connection takes it out of the new room
    only: after an accepted join from the room [old] to a different room and
    the close, [old] is in the registry exactly as it was, the participant
    included. *)
Theorem rejoin_keeps_old_membership (rooms : JsMap.t Room) (clientId : string)
    (old : string) (room : Room) (message : ClientMessage.t)
    (now : Z) (suffix : string) (createdAt : Z) :
  getRoom rooms old = Some room ->
  ClientMessage.type message = Some "join" ->
  joinError sha256_hex trim rooms (ClientMessage.join message) = None ->
  orElse (JoinMessage.roomId (ClientMessage.join message)) "default" <> old ->
  let joined :=
    handleMessage sha256_hex trim rooms clientId (Some old) (Parsed message)
      now suffix createdAt in
  let closed := handleClose joined.1.1 clientId joined.1.2 in
  joined.1.2
  = Some (orElse (JoinMessage.roomId (ClientMessage.join message)) "default") /\
  getRoom joined.1.1 old = Some room /\
  getRoom closed.1 old = Some room.
Proof.
  intros Hroom Htype Hok Hother joined closed.
  destruct (handleJoin_lookup rooms clientId (Some old)
              (ClientMessage.join message) Hok)
    as (entered & _ & Hcurrent & Hlookup).
  cbn zeta in Hcurrent, Hlookup.
  assert (joined.1
          = (handleJoin sha256_hex trim rooms clientId (Some old)
               (ClientMessage.join message)).1) as Hjoined.
  { subst joined. unfold handleMessage. rewrite Htype, decide_True by done.
    by destruct (handleJoin _ _ _ _ _ _) as [[? ?] ?]. }
  assert (getRoom joined.1.1 old = Some room) as Hold.
  { rewrite Hjoined, Hlookup, decide_False by done. done. }
  assert (joined.1.2
          = Some (orElse (JoinMessage.roomId (ClientMessage.join message))
                    "default")) as Hnew by (by rewrite Hjoined).
  split_and!; [done|done|].
  subst closed. rewrite Hnew. unfold handleClose.
  destruct (getRoom joined.1.1 (orElse _ _)) as [new|] eqn:Hentered; [|done].
  destruct (_ =? _)%nat; cbn [fst]; unfold getRoom;
    (rewrite JsMapFacts.get_set_ne; [exact Hold|congruence]).
Qed.

End Handlers.


Lemma JsMap_no_entry {V : Type} (m : JsMap.t V) :
  (forall k, JsMap.get k m = None) -> m = [].
Proof.
  destruct m as [|[k v] m]; [done|]. intros Hnone. specialize (Hnone k).
  cbn in Hnone. by rewrite decide_True in Hnone.
Qed.

(** X15: the close of a connection bound to a room takes its participant out
    of the room and leaves the other participants, the sessions, the type
    and the password hash as they are.  When no other participant is left
    the drawing, the history and the redo stack are emptied and nothing is
    sent; otherwise the drawing stays and the state of the room is
    broadcast to those who remain.  A connection that never joined closes
    without effect. *)
Theorem close_removes_participant (rooms : JsMap.t Room) (clientId : string)
    (roomId : string) (room : Room) :
  getRoom rooms roomId = Some room ->
  let result := handleClose rooms clientId (Some roomId) in
  handleClose rooms clientId None = (rooms, []) /\
  exists room',
    getRoom result.1 roomId = Some room' /\
    JsMap.get (Some clientId) (clients room') = None /\
    (forall id,
       id <> Some clientId ->
       JsMap.get id (clients room') = JsMap.get id (clients room)) /\
    sessions room' = sessions room /\
    sameAccess room room' /\
    ((forall id, id <> Some clientId -> JsMap.get id (clients room) = None) ->
     noLiveState room' /\ result.2 = []) /\
    ((exists id, id <> Some clientId /\ is_Some (JsMap.get id (clients room))) ->
     (forall c, collection c room' = collection c room) /\
     committedIds room' = committedIds room /\
     redoStack room' = redoStack room /\
     result.2 = [broadcastState room']).
Proof.
  intros Hroom result. split; [done|]. subst result. unfold handleClose.
  rewrite Hroom.
  set (rest := setClients (JsMap.delete (Some clientId) (clients room)) room).
  assert (JsMap.size (clients rest) = 0%nat
          <-> forall id, id <> Some clientId -> JsMap.get id (clients room) = None)
    as Hempty.
  { subst rest. cbn [clients setClients]. unfold JsMap.size.
    rewrite length_zero_iff_nil. split.
    - intros Hnil id Hid.
      rewrite <- (JsMapFacts.get_delete_ne (Some clientId)) by done.
      by rewrite Hnil.
    - intros Hnone. apply JsMap_no_entry. intros k.
      rewrite JsMapFacts.get_delete. destruct (decide _); [done|].
      by apply Hnone. }
  destruct (JsMap.size (clients rest) =? 0)%nat eqn:Hsize.
  - apply Nat.eqb_eq in Hsize. exists (clear rest). cbn [fst snd].
    split; [apply JsMapFacts.get_set_eq|].
    split; [apply JsMapFacts.get_delete_eq|].
    split; [intros id Hid; by apply JsMapFacts.get_delete_ne|].
    split; [done|]. split; [done|]. split.
    + intros _. split; [|done]. split; [by intros []|done].
    + intros (id & Hid & [info Hinfo]).
      rewrite (proj1 Hempty Hsize id Hid) in Hinfo. done.
  - apply Nat.eqb_neq in Hsize. exists rest. cbn [fst snd].
    split; [apply JsMapFacts.get_set_eq|].
    split; [apply JsMapFacts.get_delete_eq|].
    split; [intros id Hid; by apply JsMapFacts.get_delete_ne|].
    split; [done|]. split; [done|]. split.
    + intros Hnone. destruct Hsize. by apply Hempty.
    + intros _. split; [by intros []|done].
Qed.


(** ** The life of a private room *)

Section PrivateRooms.
Variable sha256_hex : string -> string.
Variable trim : string -> string.

(** A SHA-256 digest in hexadecimal has 64 characters, and trimming the empty
    string gives the empty string. *)
Hypothesis sha256_hex_length : forall s, String.length (sha256_hex s) = 64%nat.
Hypothesis trim_empty : trim "" = "".

Lemma hashPassword_given (given : string) :
  given <> "" ->
  hashPassword sha256_hex (Password.Text given)
  = Returns (Some (sha256_hex given)) /\
  truthy (Some (sha256_hex given)) = true.
Proof.
  intros Hgiven. destruct given as [|a s]; [done|]. split; [done|].
  pose proof (sha256_hex_length (String a s)) as Hlen.
  by destruct (sha256_hex (String a s)).
Qed.

Lemma requestedPassword_cases (message : JoinMessage.t) :
  (JoinMessage.password message = Password.NotText /\
   requestedPassword message = Password.NotText) \/
  exists password,
    JoinMessage.password message <> Password.NotText /\
    requestedPassword message = Password.Text password.
Proof.
  unfold requestedPassword.
  destruct (JoinMessage.password message) as [[|a s]| |];
    [right|right|right|left]; by eauto.
Qed.

(** X17: a join that asks for a private room that does not exist yet throws
    when its password is a truthy value that is not a string; it is refused
    with "Private rooms require a password." when the password is missing or
    blank; otherwise it makes the room private with the SHA-256 digest of
    the password.  From then on, as long as the room keeps its type and
    hash, a join to it, whatever type it asks for, throws when its password
    is a truthy value that is not a string, is accepted when it brings a
    password with the same digest, and is refused with "Invalid room
    password.", changing nothing, when it brings none or one with another
    digest. *)
Theorem private_room_life_cycle (rooms : JsMap.t Room) (creator : string)
    (bound : option string) (request : JoinMessage.t) :
  let roomId := orElse (JoinMessage.roomId request) "default" in
  let created := handleJoin sha256_hex trim rooms creator bound request in
  getRoom rooms roomId = None ->
  JoinMessage.roomType request = Some "private" ->
  (requestedPassword request = Password.NotText ->
   created = (rooms, bound, [Uncaught])) /\
  (forall password,
     requestedPassword request = Password.Text password ->
     (truthy (Some (trim password)) = false ->
      created
      = (rooms, bound,
         [Send (ErrorMessage "Private rooms require a password.")])) /\
     (truthy (Some (trim password)) = true ->
      exists room,
        getRoom created.1.1 roomId = Some room /\
        roomType room = "private" /\
        passwordHash room = Some (sha256_hex password) /\
        forall later room' visitor bound' attempt,
          getRoom later roomId = Some room' ->
          sameAccess room room' ->
          orElse (JoinMessage.roomId attempt) "default" = roomId ->
          let visit :=
            handleJoin sha256_hex trim later visitor bound' attempt in
          (requestedPassword attempt = Password.NotText ->
           visit = (later, bound', [Uncaught])) /\
          (forall given,
             requestedPassword attempt = Password.Text given ->
             (given <> "" /\ sha256_hex given = sha256_hex password ->
              visit.1.2 = Some roomId /\
              exists room'',
                getRoom visit.1.1 roomId = Some room'' /\
                is_Some (JsMap.get (Some visitor) (clients room'')) /\
                sameAccess room room'') /\
             (given = "" \/ sha256_hex given <> sha256_hex password ->
              visit
              = (later, bound',
                 [Send (ErrorMessage "Invalid room password.")]))))).
Proof.
  intros roomId created Hnone Hprivate. split.
  { intros Hnumber. subst created. apply handleJoin_Thrown. split.
    - unfold requestedPassword in Hnumber.
      by destruct (JoinMessage.password request) as [[|a s]| |].
    - fold roomId. by rewrite Hnone. }
  intros password Hrequested. split.
  - intros Hblank. subst created. unfold handleJoin, joinError.
    fold roomId. rewrite Hnone, Hprivate, decide_True by done.
    rewrite Hrequested. cbn [trimmed].
    by rewrite bool_decide_eq_true_2, Hblank.
  - intros Hfilled.
    assert (password <> "") as Hpassword.
    { intros Hempty. by rewrite Hempty, trim_empty in Hfilled. }
    destruct (hashPassword_given password Hpassword) as [Hhash Htruthy].
    assert (joinError sha256_hex trim rooms request = None) as Hok.
    { unfold joinError, optionsHash. fold roomId.
      rewrite Hnone, Hprivate, !decide_True by done.
      rewrite Hrequested, Hhash. cbn [trimmed].
      by rewrite bool_decide_eq_true_2, Hfilled. }
    set (room :=
           createRoom
             (RoomOptions.mk (Some "private") (Some (sha256_hex password)))).
    set (final := restoreLatestSession (register room creator request roomId)).
    assert (created.1.1
            = JsMap.set (Some roomId) final (JsMap.set (Some roomId) room rooms))
      as Hcreated.
    { subst created. unfold handleJoin, optionsHash. rewrite Hok. fold roomId.
      unfold getOrCreateRoom, getRoom in *. rewrite Hnone, Hprivate.
      rewrite !decide_True by done. by rewrite Hrequested, Hhash. }
    destruct (restoreLatestSession_frame (register room creator request roomId))
      as [_ [HroomType Hhashed]].
    fold final in HroomType, Hhashed.
    exists final. rewrite Hcreated. unfold getRoom.
    split; [apply JsMapFacts.get_set_eq|]. split; [by rewrite HroomType|].
    assert (passwordHash final = Some (sha256_hex password)) as Hfinal.
    { rewrite Hhashed. unfold register, room, createRoom.
      cbn [passwordHash setClients RoomOptions.passwordHash].
      by rewrite Htruthy. }
    split; [done|].
    intros later room' visitor bound' attempt Hlater [Htype' Hhash'] Hsame.
    set (visit := handleJoin sha256_hex trim later visitor bound' attempt).
    rewrite HroomType in Htype'. rewrite Hfinal in Hhash'.
    change (JsMap.get (Some roomId) later) with (getRoom later roomId) in Hlater.
    assert (roomType room' = "private") as Hprivate' by exact Htype'.
    assert (passwordHash room' = Some (sha256_hex password)) as Hstored
      by exact Hhash'.
    split.
    { intros Hnumber. subst visit. apply handleJoin_Thrown. split.
      - unfold requestedPassword in Hnumber.
        by destruct (JoinMessage.password attempt) as [[|a s]| |].
      - rewrite Hsame, Hlater, decide_True by done. by rewrite Hstored. }
    intros given Hgiven.
    assert (joinError sha256_hex trim later attempt
            = if decide (given <> "" /\ sha256_hex given = sha256_hex password)
              then None else Some (Refused "Invalid room password."))
      as Herror.
    { unfold joinError, optionsHash. rewrite Hsame, Hlater, Hgiven.
      unfold isPasswordValid. rewrite Hprivate', Hstored, Htruthy.
      rewrite !bool_decide_eq_true_2 by done. cbn [negb].
      destruct given as [|a s]; cbn [hashPassword].
      - rewrite bool_decide_eq_false_2 by done.
        destruct (decide (_ /\ _)) as [[? _]|_]; done.
      - case_bool_decide as Heq.
        + destruct (decide (_ /\ _)) as [_|Hnot]; [by case_decide|].
          destruct Hnot. split; [done|congruence].
        + destruct (decide (_ /\ _)) as [[_ Hdigest]|_]; [congruence|done]. }
    split.
    + intros Hright. rewrite decide_True in Herror by done.
      destruct (handleJoin_lookup sha256_hex trim later visitor bound' attempt
                  Herror) as (entered & Hentered & Hcurrent & Hlookup).
      cbn zeta in Hcurrent, Hlookup. rewrite Hsame in Hentered, Hcurrent, Hlookup.
      fold visit in Hcurrent, Hlookup. split; [done|].
      assert (entered = room') as ->.
      { destruct Hentered as [?|[? _]]; congruence. }
      exists (restoreLatestSession (register room' visitor attempt roomId)).
      split.
      { pose proof (Hlookup roomId) as Hfound. unfold getRoom in Hfound.
        by rewrite decide_True in Hfound. }
      rewrite restoreLatestSession_clients. unfold register.
      cbn [clients setClients]. rewrite JsMapFacts.get_set_eq.
      split; [by eexists|].
      destruct (restoreLatestSession_frame (register room' visitor attempt roomId))
        as [_ [Htype'' Hhash'']].
      unfold register in Htype'', Hhash''.
      split; [rewrite Htype''|rewrite Hhash'']; cbn [roomType passwordHash setClients];
        congruence.
    + intros Hwrong. rewrite decide_False in Herror.
      * subst visit. unfold handleJoin. by rewrite Herror.
      * intros [Hfilled' Hdigest]. by destruct Hwrong.
Qed.
End PrivateRooms.


(** ** The rooms read back at startup *)



Lemma get_Permutation {V : Type} (k : JsStr) (m m' : JsMap.t V) :
  NoDup (JsMap.keys m) -> m ≡ₚ m' -> JsMap.get k m = JsMap.get k m'.
Proof.
  intros Hnodup Hperm.
  assert (NoDup (JsMap.keys m')) as Hnodup'.
  { unfold JsMap.keys in *. by rewrite <- Hperm. }
  destruct (JsMap.get k m) as [v|] eqn:Hget.
  - symmetry. apply JsMapFacts.elem_of_get; [done|]. rewrite <- Hperm.
    by apply JsMapFacts.get_Some_elem_of.
  - symmetry. apply JsMapFacts.get_None_keys.
    apply JsMapFacts.get_None_keys in Hget. unfold JsMap.keys in *.
    by rewrite <- Hperm.
Qed.

Module JsObjectFacts.
Import JsMap JsObject.

Section Facts.
Context {V : Type}.
Implicit Types (k key : JsStr) (v value : V) (props : list (JsStr * V)).








End Facts.
End JsObjectFacts.

Lemma serializeRooms_ofEntries (rooms : JsMap.t Room) :
  serializeRooms rooms
  = JsObject.ofEntries
      (prod_map id
         (fun room =>
            RoomSnapshot.mk (orElse (Some (roomType room)) "public")
              (if truthy (passwordHash room) then passwordHash room else None)
              (JsObject.ofEntries (sessions room)))
       <$> rooms).
Proof.
  assert (forall (entries object : list (JsStr * Session.t)),
            foldl
              (fun sessions '(sessionId, session) =>
                 JsObject.assign sessionId
                   (Session.mk (Session.name session)
                      (Session.elements session) (Session.createdAt session))
                   sessions)
              object entries
            = foldl
                (fun object '(key, value) => JsObject.assign key value object)
                object entries) as Hsessions.
  { induction entries as [|[sessionId [name elements createdAt]] entries IH];
      intros object; [done|]. cbn [foldl]. by rewrite IH. }
  unfold serializeRooms, JsObject.ofEntries, JsMap.entries.
  generalize ([] : list (JsStr * RoomSnapshot.t)).
  induction rooms as [|[roomId room] rooms IH]; intros object; [done|].
  rewrite fmap_cons. cbn [foldl prod_map fst snd id].
  by rewrite IH, Hsessions.
Qed.






(** ** What the handlers send *)

Lemma engine_returns_stored (room room' : Room) (e : Element.t) :
  (forall p,
     upsertPath room p = (Some e, room') ->
     exists k, JsMap.get k (pathsById room') = Some e) /\
  (forall p,
     upsertShape room p = (Some e, room') ->
     exists k, JsMap.get k (shapesById room') = Some e) /\
  (forall k,
     commitPath room k = (Some e, room') ->
     JsMap.get k (pathsById room') = Some e /\ redoStack room' = []) /\
  (forall k,
     commitShape room k = (Some e, room') ->
     JsMap.get k (shapesById room') = Some e /\ redoStack room' = []) /\
  (forall p,
     addText room p = (Some e, room') ->
     (exists k, JsMap.get k (textsById room') = Some e) /\ redoStack room' = []) /\
  (forall p,
     addImage room p = (Some e, room') ->
     (exists k, JsMap.get k (imagesById room') = Some e) /\
     redoStack room' = []).
Proof.
  split_and!.
  - intros [p|]; [|done]. unfold upsertPath.
    destruct (truthy (Element.id p)); [|done]. cbn [negb]. intros [= <- <-].
    exists (Element.id p). apply JsMapFacts.get_set_eq.
  - intros [p|]; [|done]. unfold upsertShape.
    destruct (truthy (Element.id p)); [|done]. cbn [negb]. intros [= <- <-].
    exists (Element.id p). apply JsMapFacts.get_set_eq.
  - intros k. unfold commitPath. destruct (truthy k); [|done]. cbn [negb].
    destruct (JsMap.get k (pathsById room)); [|done]. intros [= <- <-].
    split; [apply JsMapFacts.get_set_eq|done].
  - intros k. unfold commitShape. destruct (truthy k); [|done]. cbn [negb].
    destruct (JsMap.get k (shapesById room)); [|done]. intros [= <- <-].
    split; [apply JsMapFacts.get_set_eq|done].
  - intros [p|]; [|done]. unfold addText.
    destruct (truthy (Element.id p)); [|done]. cbn [negb]. intros [= <- <-].
    split; [|done]. exists (Element.id p). apply JsMapFacts.get_set_eq.
  - intros [p|]; [|done]. unfold addImage.
    destruct (truthy (Element.id p)); [|done]. cbn [negb]. intros [= <- <-].
    split; [|done]. exists (Element.id p). apply JsMapFacts.get_set_eq.
Qed.

Lemma serializeRooms_set_same (k : JsStr) (room room' : Room)
    (rooms : JsMap.t Room) :
  JsMap.get k rooms = Some room ->
  sessions room' = sessions room -> sameAccess room room' ->
  serializeRooms (JsMap.set k room' rooms) = serializeRooms rooms.
Proof.
  intros Hget Hsessions [Htype Hhash]. rewrite !serializeRooms_ofEntries.
  f_equal.
  induction rooms as [|[k' r] rooms IH]; [done|].
  rewrite get_cons in Hget. cbn [JsMap.set].
  destruct (decide (k' = k)) as [->|Hne].
  - injection Hget as ->. rewrite !fmap_cons. cbn.
    by rewrite Hsessions, Htype, Hhash.
  - rewrite !fmap_cons. by rewrite IH.
Qed.

Ltac each_output H :=
  repeat (apply elem_of_cons in H as [->|H]); try (by apply elem_of_nil in H).

Lemma handleInRoom_current (rooms : JsMap.t Room) (roomId : string)
    (room : Room) (clientId : string) (info : Client.t) (type : string)
    (message : ClientMessage.t) (now : Z) (suffix : string) (createdAt : Z) :
  let result :=
    handleInRoom rooms roomId room clientId info type message
      now suffix createdAt in
  forall output,
    output ∈ result.2 ->
    (exists error, output = sendError error) \/
    exists room',
      getRoom result.1 roomId = Some room' /\
      current clientId result.1 roomId room' output.
Proof.
  cbn zeta. intros output. unfold getRoom. in_room_cases.
  - cbn [fst snd]. intros Hin. each_output Hin. right. eexists.
    split; [apply JsMapFacts.get_set_eq|]. split; [done|]. split; [done|].
    cbn [clients setClients]. by rewrite JsMapFacts.get_set_eq.
  - destruct (upsertPath _ _) as [[e|] room'] eqn:E; cbn [fst snd];
      intros Hin; each_output Hin.
    right. exists room'. split; [apply JsMapFacts.get_set_eq|].
    split; [done|]. by eapply engine_returns_stored.
  - destruct (commitPath _ _) as [[e|] room'] eqn:E; cbn [fst snd];
      intros Hin; each_output Hin.
    all: right; exists room'; (split; [apply JsMapFacts.get_set_eq|]).
    all: split; [done|];
      destruct (engine_returns_stored room room' e)
        as (_ & _ & Hcommit & _);
      destruct (Hcommit _ E) as [Hstored Hredo].
    + eexists. exact Hstored.
    + cbn. by rewrite Hredo.
  - destruct (upsertShape _ _) as [[e|] room'] eqn:E; cbn [fst snd];
      intros Hin; each_output Hin.
    right. exists room'. split; [apply JsMapFacts.get_set_eq|].
    split; [done|]. by eapply engine_returns_stored.
  - destruct (commitShape _ _) as [[e|] room'] eqn:E; cbn [fst snd];
      intros Hin; each_output Hin.
    all: right; exists room'; (split; [apply JsMapFacts.get_set_eq|]).
    all: split; [done|];
      destruct (engine_returns_stored room room' e)
        as (_ & _ & _ & Hcommit & _);
      destruct (Hcommit _ E) as [Hstored Hredo].
    + eexists. exact Hstored.
    + cbn. by rewrite Hredo.
  - destruct (addText _ _) as [[e|] room'] eqn:E; cbn [fst snd];
      intros Hin; each_output Hin.
    all: right; exists room'; (split; [apply JsMapFacts.get_set_eq|]).
    all: split; [done|];
      destruct (engine_returns_stored room room' e)
        as (_ & _ & _ & _ & Hadd & _);
      destruct (Hadd _ E) as [Hstored Hredo].
    + done.
    + cbn. by rewrite Hredo.
  - destruct (addImage _ _) as [[e|] room'] eqn:E; cbn [fst snd];
      intros Hin; each_output Hin.
    all: right; exists room'; (split; [apply JsMapFacts.get_set_eq|]).
    all: split; [done|];
      destruct (engine_returns_stored room room' e)
        as (_ & _ & _ & _ & _ & Hadd);
      destruct (Hadd _ E) as [Hstored Hredo].
    + done.
    + cbn. by rewrite Hredo.
  - cbn [fst snd]. intros Hin. each_output Hin. right. eexists.
    split; [apply JsMapFacts.get_set_eq|]. done.
  - cbn [fst snd]. intros Hin. each_output Hin. right. eexists.
    split; [apply JsMapFacts.get_set_eq|]. done.
  - cbn [fst snd]. intros Hin. each_output Hin.
    all: right; eexists; (split; [apply JsMapFacts.get_set_eq|]).
    + split; [done|]. split; [by intros []|done].
    + done.
  - cbn [fst snd]. intros Hin. each_output Hin.
    all: right; eexists; (split; [apply JsMapFacts.get_set_eq|]).
    + cbn. by rewrite JsMapFacts.get_set_eq.
    + done.
    + done.
  - destruct (loadSession _ _) as [[elements|] room'] eqn:E; cbn [fst snd];
      intros Hin; each_output Hin; [| |left; by eexists].
    all: right; exists room'; (split; [apply JsMapFacts.get_set_eq|]).
    + split; [done|]. cbn. unfold loadSession in E.
      destruct (JsMap.get _ (sessions room)) as [session|] eqn:Hget; [|done].
      injection E as <- <-.
      destruct (loadElements_frame (Session.elements session) (clear room))
        as (_ & -> & _).
      cbn [sessions clear]. by rewrite Hget.
    + done.
  - cbn [fst snd]. intros Hin. each_output Hin. left. by eexists.
Qed.


Section Outputs.
Variable sha256_hex : string -> string.
Variable trim : string -> string.

Lemma handleJoin_current (rooms : JsMap.t Room) (clientId : string)
    (currentRoom : option string) (message : JoinMessage.t) :
  let result := handleJoin sha256_hex trim rooms clientId currentRoom message in
  forall effect,
    effect ∈ result.2 ->
    (exists error, Basic effect = sendError error) \/
    effect = Uncaught \/
    exists roomId room,
      result.1.2 = Some roomId /\
      getRoom result.1.1 roomId = Some room /\
      current clientId result.1.1 roomId room (Basic effect).
Proof.
  cbn zeta. intros effect. unfold handleJoin.
  destruct (joinError sha256_hex trim rooms message) as [[error|]|].
  { cbn [snd]. intros Hin. each_output Hin. left. by eexists. }
  { cbn [snd]. intros Hin. each_output Hin. by right; left. }
  set (roomId := orElse (JoinMessage.roomId message) "default").
  unfold getOrCreateRoom, getRoom.
  destruct (JsMap.get (Some roomId) rooms) as [room|] eqn:Hroom.
  - cbn [fst snd app]. intros Hin. each_output Hin.
    all: right; right; eexists roomId, _; (split; [done|]);
      (split; [apply JsMapFacts.get_set_eq|]); try done.
    cbn [current]. split; [done|]. split; [done|].
    by rewrite (proj1 (proj2 (restoreLatestSession_frame (register _ _ _ _)))).
  - cbn [fst snd app]. intros Hin. each_output Hin.
    all: right; right; eexists roomId, _; (split; [done|]);
      (split; [apply JsMapFacts.get_set_eq|]); try done.
    cbn [current]. symmetry. eapply serializeRooms_set_same.
    + apply JsMapFacts.get_set_eq.
    + exact (proj1 (restoreLatestSession_frame (register _ _ _ _))).
    + exact (proj2 (restoreLatestSession_frame (register _ _ _ _))).
Qed.

(** X13: what a handler sends agrees with what it leaves.  Every output of
    the message handler is an error reply to the sender, or the exception
    that ends the handler, or agrees with the room the connection is bound
    to afterwards: a broadcast goes to the participants that room has
    afterwards; a state message is broadcast, never sent to the sender
    alone, and carries the state of that room as it is afterwards; a path,
    shape, text or image announced is in its collection; a redo count
    announced is the length of the redo stack, which is 0; a session
    announced as saved or loaded is among the sessions; the cursor move
    announced is recorded for the sender; a snapshot persisted is the
    snapshot of the registry as the handler leaves it; and the sender alone
    is sent nothing but the welcome, with its own id, the id of that room
    and its type, and the id and name of the session it saved.  The close
    handler sends nothing but the state of the room, to those who stay. *)
Theorem outputs_are_current (rooms : JsMap.t Room) (clientId : string)
    (currentRoom : option string) (frame : Frame)
    (now : Z) (suffix : string) (createdAt : Z) :
  let result :=
    handleMessage sha256_hex trim rooms clientId currentRoom frame
      now suffix createdAt in
  let closed := handleClose rooms clientId currentRoom in
  (forall output,
     output ∈ result.2 ->
     (exists error, output = sendError error) \/
     output = Basic Uncaught \/
     exists roomId room,
       result.1.2 = Some roomId /\
       getRoom result.1.1 roomId = Some room /\
       current clientId result.1.1 roomId room output) /\
  (forall output,
     output ∈ closed.2 ->
     exists roomId room,
       currentRoom = Some roomId /\
       getRoom closed.1 roomId = Some room /\
       output = broadcastState room /\
       current clientId closed.1 roomId room output).
Proof.
  intros result closed. split.
  - intros output. subst result. unfold handleMessage.
    destruct frame as [|message].
    { cbn [snd]. intros Hin. each_output Hin. left. by eexists. }
    destruct (ClientMessage.type message) as [type|].
    2: { cbn [snd]. intros Hin. each_output Hin. left. by eexists. }
    destruct (decide (type = "join")) as [->|Hjoin].
    + pose proof (handleJoin_current rooms clientId currentRoom
                    (ClientMessage.join message)) as Hjoin.
      cbn zeta in Hjoin.
      destruct (handleJoin _ _ _ _ _ _) as [[rooms' current'] effects].
      cbn [fst snd] in *. intros Hin.
      apply list_elem_of_fmap in Hin as (effect & -> & Hin).
      destruct (Hjoin effect Hin) as [?|[->|?]]; eauto.
    + destruct currentRoom as [roomId|].
      2: { cbn [snd]. intros Hin. each_output Hin. left. by eexists. }
      destruct (getRoom rooms roomId) as [room|] eqn:Hroom.
      2: { cbn [snd]. intros Hin. each_output Hin. }
      destruct (JsMap.get (Some clientId) (clients room)) as [info|].
      2: { cbn [snd]. intros Hin. each_output Hin. }
      pose proof (handleInRoom_current rooms roomId room clientId info type
                    message now suffix createdAt) as Hcurrent.
      cbn zeta in Hcurrent.
      destruct (handleInRoom _ _ _ _ _ _ _ _ _ _) as [rooms' outputs].
      cbn [fst snd] in *. intros Hin.
      destruct (Hcurrent output Hin) as [?|(room' & ? & ?)]; [by left|].
      right; right. by exists roomId, room'.
  - intros output. subst closed. unfold handleClose.
    destruct currentRoom as [roomId|].
    2: { cbn [snd]. intros Hin. each_output Hin. }
    destruct (getRoom rooms roomId) as [room|] eqn:Hroom.
    2: { cbn [snd]. intros Hin. each_output Hin. }
    destruct (_ =? _)%nat; cbn [fst snd]; intros Hin; each_output Hin.
    eexists roomId, _. split; [done|].
    split; [apply JsMapFacts.get_set_eq|done].
Qed.




End Outputs.


(** * The client *)

Lemma upsertById_cons (x y : Element.t) (l : list Element.t) :
  upsertById x (y :: l)
  = if decide (Element.id y = Element.id x) then x :: l
    else y :: upsertById x l.
Proof.
  unfold upsertById. cbn [list_find]. destruct (decide _); [done|].
  by destruct (list_find _ l) as [[i e]|].
Qed.

(** [Map.set] on a map keyed by id and the client's upsert do the same to
    the list of elements. *)
Lemma values_set_upsert (x : Element.t) (m : JsMap.t Element.t) :
  keyedById m ->
  JsMap.values (JsMap.set (Element.id x) x m) = upsertById x (JsMap.values m).
Proof.
  unfold JsMap.values. induction m as [|[k e] m IH]; intros Hkeyed; [done|].
  rewrite fmap_cons. cbn [snd JsMap.set]. rewrite upsertById_cons.
  rewrite (Hkeyed k e) by left.
  destruct (decide (k = Element.id x)) as [->|Hne]; [done|].
  rewrite fmap_cons. cbn [snd]. rewrite IH; [done|].
  intros k' e' Hin. apply Hkeyed. by right.
Qed.

Lemma upsertById_filter (x : Element.t) (l : list Element.t) :
  NoDup (Element.id <$> l) ->
  upsertById x l ≡ₚ x :: filter (fun e => Element.id e <> Element.id x) l.
Proof.
  induction l as [|y l IH]; intros Hnodup; [done|].
  rewrite fmap_cons in Hnodup. apply NoDup_cons in Hnodup as [Hy Hnodup].
  rewrite upsertById_cons. destruct (decide _) as [Heq|Hne].
  - rewrite filter_cons_False by (intros Hne; by apply Hne).
    f_equiv. clear IH. induction l as [|z l IH]; [done|].
    rewrite fmap_cons in Hy, Hnodup. apply not_elem_of_cons in Hy as [Hz Hy].
    apply NoDup_cons in Hnodup as [_ Hnodup].
    rewrite filter_cons_True by congruence. f_equiv. by apply IH.
  - rewrite filter_cons_True by done. rewrite IH by done. apply Permutation_swap.
Qed.

Lemma upsertById_Permutation (x : Element.t) (l l' : list Element.t) :
  NoDup (Element.id <$> l) -> l ≡ₚ l' -> upsertById x l ≡ₚ upsertById x l'.
Proof.
  intros Hnodup Hperm. rewrite !upsertById_filter.
  - by rewrite Hperm.
  - by rewrite <- Hperm.
  - done.
Qed.

Lemma keyedById_ids (m : JsMap.t Element.t) :
  keyedById m -> Element.id <$> JsMap.values m = JsMap.keys m.
Proof.
  unfold JsMap.values, JsMap.keys. induction m as [|[k e] m IH]; intros Hkeyed;
    [done|].
  rewrite !fmap_cons. cbn [fst snd]. rewrite (Hkeyed k e) by left.
  f_equal. apply IH. intros k' e' Hin. apply Hkeyed. by right.
Qed.

Lemma keyedById_set (x : Element.t) (m : JsMap.t Element.t) :
  keyedById m -> keyedById (JsMap.set (Element.id x) x m).
Proof.
  induction m as [|[k e] m IH]; intros Hkeyed k' e' Hin; cbn [JsMap.set] in Hin.
  - apply list_elem_of_singleton in Hin. by injection Hin as -> ->.
  - destruct (decide (k = Element.id x)) as [->|Hne].
    + apply elem_of_cons in Hin as [[= -> ->]|Hin]; [done|].
      apply Hkeyed. by right.
    + apply elem_of_cons in Hin as [[= -> ->]|Hin].
      * apply Hkeyed. by left.
      * apply IH; [|done]. intros k'' e'' Hin'. apply Hkeyed. by right.
Qed.

(** The paths of the payload after the map took [x] under its id: the
    client's upsert of [x] into what it showed before, in some order. *)
Lemma payload_paths_upsert (room room' : Room) (x : Element.t)
    (shown : list Element.t) :
  NoDup (committedIds room) -> NoDup (committedIds room') ->
  NoDup (JsMap.keys (pathsById room)) -> keyedById (pathsById room) ->
  pathsById room' = JsMap.set (Element.id x) x (pathsById room) ->
  shown ≡ₚ StatePayload.paths (buildStatePayload room) ->
  upsertById x shown ≡ₚ StatePayload.paths (buildStatePayload room').
Proof.
  intros Hids Hids' Hkeys Hkeyed Hset Hshown.
  rewrite payload_paths_Permutation in Hshown by done.
  rewrite payload_paths_Permutation;
    [|done|rewrite Hset; by apply JsMapFacts.NoDup_keys_set].
  rewrite Hset, values_set_upsert by done.
  apply upsertById_Permutation; [|done].
  rewrite Hshown, keyedById_ids by done. done.
Qed.


Lemma cursorMoved_cons (id : string) (position : Z * Z) (users : list User.t)
    (c : Cursor.t) (l : list Cursor.t) :
  cursorMoved id position users (c :: l)
  = if decide (Cursor.id c = id)
    then Cursor.mk (Cursor.id c) (Cursor.name c) (Cursor.color c) position :: l
    else c :: cursorMoved id position users l.
Proof.
  unfold cursorMoved. cbn [list_find]. destruct (decide _); [done|].
  by destruct (list_find _ l) as [[i e]|].
Qed.

(** The cursors of the payload after the sender's record took the position:
    the client's update of the cursors it had. *)
Lemma payload_cursors_moved (sender : string) (info : Client.t)
    (position : Z * Z) (users : list User.t) (room : Room) :
  (forall k c, (k, c) ∈ clients room -> k = Some (Client.id c)) ->
  JsMap.get (Some sender) (clients room) = Some info ->
  let room' :=
    setClients
      (JsMap.set (Some sender) (moveCursor info position) (clients room))
      room in
  StatePayload.cursors (buildStatePayload room')
  = cursorMoved sender position users
      (StatePayload.cursors (buildStatePayload room)) /\
  StatePayload.users (buildStatePayload room')
  = StatePayload.users (buildStatePayload room).
Proof.
  intros Hkeyed Hinfo room'. subst room'. unfold buildStatePayload.
  cbn [StatePayload.cursors StatePayload.users clients setClients].
  unfold JsMap.values. revert Hkeyed Hinfo.
  induction (clients room) as [|[k c] m IH]; intros Hkeyed Hinfo; [done|].
  rewrite get_cons in Hinfo. cbn [JsMap.set]. rewrite !fmap_cons. cbn [snd map].
  rewrite cursorMoved_cons. cbn [Cursor.id].
  pose proof (Hkeyed k c (ltac:(left))) as ->.
  destruct (decide (Some (Client.id c) = Some sender)) as [[= Hid]|Hne].
  - injection Hinfo as <-. rewrite decide_True by done.
    rewrite fmap_cons. by cbn.
  - rewrite decide_False by congruence. rewrite fmap_cons. cbn [snd map].
    destruct IH as [-> ->]; [|done|done].
    intros k' c' Hin. apply Hkeyed. by right.
Qed.

Lemma participant_recipient (me : string) (m : JsMap.t Client.t) :
  (forall k c, (k, c) ∈ m -> k = Some (Client.id c)) ->
  is_Some (JsMap.get (Some me) m) ->
  me ∈ map Client.id (JsMap.values m).
Proof.
  intros Hkeyed [info Hinfo]. apply JsMapFacts.get_Some_elem_of in Hinfo.
  pose proof (Hkeyed _ _ Hinfo) as [= ->]. apply list_elem_of_In, in_map.
  apply list_elem_of_In. unfold JsMap.values. apply list_elem_of_fmap.
  by eexists (_, _).
Qed.

Lemma received_cons (me sender : string) (output : Output)
    (outputs : list Output) (state : CollabState.t) :
  received me sender (output :: outputs) state
  = received me sender outputs
      (from_option (onMessage state) state (delivered me sender output)).
Proof.
  unfold received. rewrite omap_cons_match. by destruct (delivered _ _ _).
Qed.

Lemma received_broadcastRoom (me sender : string) (room : Room)
    (message : RoomMessage) (outputs : list Output) (state : CollabState.t) :
  me ∈ map Client.id (JsMap.values (clients room)) ->
  received me sender (broadcastRoom room message :: outputs) state
  = received me sender outputs (onMessage state (FromRoom message)).
Proof.
  intros Hme. rewrite received_cons. unfold broadcastRoom, delivered.
  by rewrite decide_True.
Qed.

Lemma received_broadcastState (me sender : string) (room : Room)
    (outputs : list Output) (state : CollabState.t) :
  me ∈ map Client.id (JsMap.values (clients room)) ->
  received me sender (broadcastState room :: outputs) state
  = received me sender outputs
      (onMessage state (FromServer (State (buildStatePayload room)))).
Proof.
  intros Hme. rewrite received_cons. unfold broadcastState, broadcast, delivered.
  by rewrite decide_True.
Qed.

Lemma received_sendError (me sender : string) (error : string)
    (outputs : list Output) (state : CollabState.t) :
  received me sender (sendError error :: outputs) state
  = received me sender outputs state.
Proof.
  rewrite received_cons. unfold sendError, delivered. by destruct (decide _).
Qed.

Lemma received_nil (me sender : string) (state : CollabState.t) :
  received me sender [] state = state.
Proof. reflexivity. Qed.

Lemma upToDate_state (state : CollabState.t) (room : Room) :
  upToDate (onMessage state (FromServer (State (buildStatePayload room)))) room.
Proof. by unfold upToDate. Qed.


Lemma upToDate_fields (state : CollabState.t) (room : Room) :
  upToDate state room <->
  CollabState.paths state ≡ₚ StatePayload.paths (buildStatePayload room) /\
  CollabState.shapes state = JsMap.values (shapesById room) /\
  CollabState.texts state = JsMap.values (textsById room) /\
  CollabState.images state = JsMap.values (imagesById room) /\
  CollabState.users state = StatePayload.users (buildStatePayload room) /\
  CollabState.cursors state = StatePayload.cursors (buildStatePayload room) /\
  CollabState.redoCount state = length (redoStack room) /\
  CollabState.sessions state = buildSessionList room /\
  CollabState.roomType state = orNull (orElse (Some (roomType room)) "public").
Proof. done. Qed.

(** The participants and what the payload says of them and of the room's
    sessions and type depend on the clients, the sessions and the type
    only. *)
Lemma payload_people (room room' : Room) :
  clients room' = clients room ->
  StatePayload.users (buildStatePayload room')
  = StatePayload.users (buildStatePayload room) /\
  StatePayload.cursors (buildStatePayload room')
  = StatePayload.cursors (buildStatePayload room).
Proof. unfold buildStatePayload. cbn. by intros ->. Qed.

Lemma payload_paths_same (room room' : Room) (shown : list Element.t) :
  NoDup (committedIds room) -> NoDup (committedIds room') ->
  NoDup (JsMap.keys (pathsById room)) ->
  pathsById room' = pathsById room ->
  shown ≡ₚ StatePayload.paths (buildStatePayload room) ->
  shown ≡ₚ StatePayload.paths (buildStatePayload room').
Proof.
  intros Hids Hids' Hkeys Hsame Hshown.
  rewrite payload_paths_Permutation in Hshown by done.
  rewrite payload_paths_Permutation; [|done|by rewrite Hsame].
  by rewrite Hsame.
Qed.

Lemma upsert_Some (room room' : Room) (p : option Element.t)
    (next : Element.t) :
  (upsertPath room p = (Some next, room') ->
   room'
   = setPathsById (JsMap.set (Element.id next) next (pathsById room)) room) /\
  (upsertShape room p = (Some next, room') ->
   room'
   = setShapesById (JsMap.set (Element.id next) next (shapesById room)) room).
Proof.
  unfold upsertPath, upsertShape. destruct p as [p|]; [|done].
  destruct (truthy (Element.id p)); [|done]. cbn [negb].
  by split; intros [= <- <-].
Qed.

Lemma commit_Some (room room' : Room) (k : JsStr) (e : Element.t) :
  (commitPath room k = (Some e, room') ->
   keyedById (pathsById room) ->
   exists ids,
     (ids = committedIds room \/
      (k ∉ committedIds room) /\ ids = push k (committedIds room)) /\
     room'
     = setPathsById (JsMap.set (Element.id e) e (pathsById room))
         (setRedoStack [] (setCommittedIds ids room))) /\
  (commitShape room k = (Some e, room') ->
   keyedById (shapesById room) ->
   exists ids,
     (ids = committedIds room \/
      (k ∉ committedIds room) /\ ids = push k (committedIds room)) /\
     room'
     = setShapesById (JsMap.set (Element.id e) e (shapesById room))
         (setRedoStack [] (setCommittedIds ids room))).
Proof.
  unfold commitPath, commitShape. destruct (truthy k); [|done]. cbn [negb].
  split.
  - destruct (JsMap.get k (pathsById room)) as [existing|] eqn:Hget; [|done].
    intros [= <- <-] Hkeyed.
    apply JsMapFacts.get_Some_elem_of, Hkeyed in Hget. cbn [Element.id
      Element.withStatus]. rewrite Hget.
    destruct (includes k (committedIds room)) eqn:Hin; cbn [negb].
    + exists (committedIds room). split; [by left|].
      by rewrite setCommittedIds_id.
    + exists (push k (committedIds room)). split; [|done]. right.
      split; [|done]. by apply includes_false.
  - destruct (JsMap.get k (shapesById room)) as [existing|] eqn:Hget; [|done].
    intros [= <- <-] Hkeyed.
    apply JsMapFacts.get_Some_elem_of, Hkeyed in Hget. cbn [Element.id
      Element.withStatus]. rewrite Hget.
    destruct (includes k (committedIds room)) eqn:Hin; cbn [negb].
    + exists (committedIds room). split; [by left|].
      by rewrite setCommittedIds_id.
    + exists (push k (committedIds room)). split; [|done]. right.
      split; [|done]. by apply includes_false.
Qed.

Lemma add_Some (room room' : Room) (p : option Element.t) (e : Element.t) :
  (addText room p = (Some e, room') ->
   exists text,
     p = Some text /\ Element.id e = Element.id text /\
     room'
     = setRedoStack []
         (setCommittedIds (push (Element.id e) (committedIds room))
            (setTextsById (JsMap.set (Element.id e) e (textsById room)) room))) /\
  (addImage room p = (Some e, room') ->
   exists image,
     p = Some image /\ Element.id e = Element.id image /\
     room'
     = setRedoStack []
         (setCommittedIds (push (Element.id e) (committedIds room))
            (setImagesById (JsMap.set (Element.id e) e (imagesById room))
               room))).
Proof.
  unfold addText, addImage. destruct p as [p|]; [|done].
  destruct (truthy (Element.id p)); [|done]. cbn [negb].
  split; intros [= <- <-]; by exists p.
Qed.

Lemma recipients_moved (k : JsStr) (info : Client.t) (position : Z * Z)
    (m : JsMap.t Client.t) :
  JsMap.get k m = Some info ->
  map Client.id (JsMap.values (JsMap.set k (moveCursor info position) m))
  = map Client.id (JsMap.values m).
Proof.
  unfold JsMap.values. induction m as [|[k' c] m IH]; [done|].
  rewrite get_cons. cbn [JsMap.set]. destruct (decide (k' = k)) as [->|Hne].
  - intros [= ->]. by rewrite !fmap_cons.
  - intros Hget. rewrite !fmap_cons. cbn [snd map]. f_equal. by apply IH.
Qed.

Lemma NoDup_committed (k : JsStr) (ids ids' : list JsStr) :
  NoDup ids ->
  ids' = ids \/ (k ∉ ids) /\ ids' = push k ids ->
  NoDup ids'.
Proof. intros Hnodup [->|[Hk ->]]; [done|by apply NoDup_push]. Qed.

Lemma handleInRoom_upToDate (rooms : JsMap.t Room) (roomId : string)
    (room : Room) (sender : string) (info : Client.t) (type : string)
    (message : ClientMessage.t) (now : Z) (suffix : string) (createdAt : Z)
    (me : string) (state : CollabState.t) :
  JsMap.get (Some sender) (clients room) = Some info ->
  is_Some (JsMap.get (Some me) (clients room)) ->
  tidy room -> upToDate state room -> addsFresh type message room ->
  let result :=
    handleInRoom rooms roomId room sender info type message
      now suffix createdAt in
  exists room',
    (result.1 = rooms /\ room' = room \/
     result.1 = JsMap.set (Some roomId) room' rooms) /\
    upToDate (received me sender result.2 state) room'.
Proof.
  intros Hinfo Hme (Hids & Hkeys & Hpaths & Hshapes & Hclients) Hup
    [HfreshText HfreshImage].
  pose proof (participant_recipient me _ Hclients Hme) as Hrecipient.
  pose proof Hup as Hfields.
  apply upToDate_fields in Hfields
    as (Hp & Hs & Ht & Hi & Hu & Hc & Hr & Hse & Hrt).
  cbn zeta. in_room_cases.
  - (* cursor *)
    eexists. split; [by right|]. cbn [snd].
    destruct (payload_cursors_moved sender info (ClientMessage.position message)
                (CollabState.users state) room Hclients Hinfo)
      as [Hcursors Husers].
    cbn zeta in Hcursors, Husers.
    rewrite received_broadcastRoom; cycle 1.
    { cbn [clients setClients]. by rewrite recipients_moved. }
    apply upToDate_fields. rewrite Hcursors, Husers.
    split_and!; cbn; try done. by rewrite Hc.
  - (* path:upsert *)
    destruct (upsertPath _ _) as [[next|] room'] eqn:E; cycle 1.
    { exists room. split; [by left|done]. }
    apply upsert_Some in E as ->. eexists. split; [by right|]. cbn [snd].
    rewrite received_broadcastRoom by done.
    apply upToDate_fields. split_and!; try done.
    by apply (payload_paths_upsert room).
  - (* path:commit *)
    destruct (commitPath _ _) as [[e|] room'] eqn:E; cycle 1.
    { exists room. split; [by left|done]. }
    apply commit_Some in E as (ids & Hids' & ->); [|done].
    eexists. split; [by right|]. cbn [snd].
    rewrite !received_broadcastRoom by done.
    apply upToDate_fields. split_and!; try done.
    apply (payload_paths_upsert room); try done.
    by apply (NoDup_committed (ClientMessage.id message) (committedIds room)).
  - (* shape:upsert *)
    destruct (upsertShape _ _) as [[next|] room'] eqn:E; cycle 1.
    { exists room. split; [by left|done]. }
    apply upsert_Some in E as ->. eexists. split; [by right|]. cbn [snd].
    rewrite received_broadcastRoom by done.
    apply upToDate_fields. split_and!; try done.
    cbn. rewrite Hs. symmetry. by apply values_set_upsert.
  - (* shape:commit *)
    destruct (commitShape _ _) as [[e|] room'] eqn:E; cycle 1.
    { exists room. split; [by left|done]. }
    apply commit_Some in E as (ids & Hids' & ->); [|done].
    eexists. split; [by right|]. cbn [snd].
    rewrite !received_broadcastRoom by done.
    apply upToDate_fields. split_and!; try done.
    + apply (payload_paths_same room); try done.
      by apply (NoDup_committed (ClientMessage.id message) (committedIds room)).
    + cbn. rewrite Hs. symmetry. by apply values_set_upsert.
  - (* text:add *)
    destruct (addText _ _) as [[e|] room'] eqn:E; cycle 1.
    { exists room. split; [by left|done]. }
    apply add_Some in E as (text & Htext & Hid & ->).
    destruct (HfreshText eq_refl text Htext) as [Hfresh Hnew].
    rewrite <- Hid in Hfresh, Hnew.
    eexists. split; [by right|]. cbn [snd].
    rewrite !received_broadcastRoom by done.
    apply upToDate_fields. split_and!; try done.
    + apply (payload_paths_same room); try done. by apply NoDup_push.
    + cbn. by rewrite Ht, JsMap_set_fresh, fmap_app.
  - (* image:add *)
    destruct (addImage _ _) as [[e|] room'] eqn:E; cycle 1.
    { exists room. split; [by left|done]. }
    apply add_Some in E as (image & Himage & Hid & ->).
    destruct (HfreshImage eq_refl image Himage) as [Hfresh Hnew].
    rewrite <- Hid in Hfresh, Hnew.
    eexists. split; [by right|]. cbn [snd].
    rewrite !received_broadcastRoom by done.
    apply upToDate_fields. split_and!; try done.
    + apply (payload_paths_same room); try done. by apply NoDup_push.
    + cbn. by rewrite Hi, JsMap_set_fresh, fmap_app.
  - (* undo *)
    eexists. split; [by right|]. cbn [snd].
    rewrite received_broadcastState; [apply upToDate_state|].
    destruct (run_keeps_participants Undo room) as [Hsame _].
    cbn [run] in Hsame. by rewrite Hsame.
  - (* redo *)
    eexists. split; [by right|]. cbn [snd].
    rewrite received_broadcastState; [apply upToDate_state|].
    destruct (run_keeps_participants Redo room) as [Hsame _].
    cbn [run] in Hsame. by rewrite Hsame.
  - (* clear *)
    eexists. split; [by right|]. cbn [snd].
    rewrite received_broadcastRoom, received_broadcastState by done.
    apply upToDate_state.
  - (* save-session *)
    unfold saveSession. cbn [fst snd]. eexists. split; [by right|].
    rewrite received_cons. cbn [delivered].
    replace (from_option (onMessage state) state _) with state
      by (by destruct (decide _)).
    rewrite received_broadcastRoom by done.
    rewrite received_cons. cbn [delivered from_option].
    apply upToDate_fields. by split_and!.
  - (* load-session *)
    destruct (loadSession _ _) as [[elements|] room'] eqn:E; cycle 1.
    { exists room. split; [by left|]. cbn [snd]. by rewrite received_sendError. }
    destruct (run_keeps_participants
                (LoadSession (ClientMessage.sessionId message)) room)
      as [Hsame _].
    cbn [run] in Hsame. rewrite E in Hsame. cbn [snd] in Hsame.
    eexists. split; [by right|]. cbn [snd].
    rewrite received_broadcastRoom, received_broadcastState
      by (by rewrite Hsame).
    apply upToDate_state.
  - (* unknown *)
    exists room. split; [by left|]. cbn [snd]. by rewrite received_sendError.
Qed.


Lemma length_set_present {V : Type} (k : JsStr) (v v' : V) (m : JsMap.t V) :
  JsMap.get k m = Some v -> length (JsMap.set k v' m) = length m.
Proof.
  induction m as [|[k' e] m IH]; [done|]. rewrite get_cons. cbn [JsMap.set].
  destruct (decide (k' = k)); [done|]. intros Hget. cbn. by rewrite IH.
Qed.

Section Client.
Variable sha256_hex : string -> string.
Variable trim : string -> string.

(** X19: a client that shows what a state message of its room would tell it
    still does so after any command of a participant, once it has taken in
    what the handler sent it: the increments ([path:upsert], [shape:upsert],
    [text:add], [image:add], [redo-count], [cursor], [session-list]) add up
    to the state of the room as the handler leaves it, the paths up to their
    order.  It takes a room with no id committed twice, paths and shapes
    stored once under their ids and participants under theirs, and for
    [text:add] and [image:add] an id that is new. *)
Theorem client_follows_room (rooms : JsMap.t Room) (sender me : string)
    (roomId : string) (room : Room) (message : ClientMessage.t)
    (type : string) (state : CollabState.t)
    (now : Z) (suffix : string) (createdAt : Z) :
  getRoom rooms roomId = Some room ->
  is_Some (JsMap.get (Some me) (clients room)) ->
  ClientMessage.type message = Some type -> type <> "join" ->
  tidy room -> upToDate state room -> addsFresh type message room ->
  let result :=
    handleMessage sha256_hex trim rooms sender (Some roomId) (Parsed message)
      now suffix createdAt in
  exists room',
    getRoom result.1.1 roomId = Some room' /\
    upToDate (received me sender result.2 state) room'.
Proof.
  intros Hroom Hme Htype Hjoin Htidy Hup Hfresh result. subst result.
  unfold handleMessage. rewrite Htype, decide_False, Hroom by done.
  destruct (JsMap.get (Some sender) (clients room)) as [info|] eqn:Hinfo;
    [|by exists room].
  destruct (handleInRoom_upToDate rooms roomId room sender info type message
              now suffix createdAt me state Hinfo Hme Htidy Hup Hfresh)
    as (room' & Hrooms & Hstate).
  cbn zeta in Hrooms, Hstate.
  destruct (handleInRoom _ _ _ _ _ _ _ _ _ _) as [rooms' outputs].
  cbn [fst snd] in *. exists room'. split; [|done].
  destruct Hrooms as [[-> ->]| ->]; [done|]. apply JsMapFacts.get_set_eq.
Qed.

(** X20: a text added under an id the room already has a text for replaces
    that text in the room and is appended by the clients: a client that was
    up to date then shows one text more than the room holds, and no longer
    what a state message would tell it. *)
Theorem readded_text_shows_twice (rooms : JsMap.t Room) (sender me : string)
    (roomId : string) (room : Room) (message : ClientMessage.t)
    (text old : Element.t) (state : CollabState.t)
    (now : Z) (suffix : string) (createdAt : Z) :
  getRoom rooms roomId = Some room ->
  is_Some (JsMap.get (Some sender) (clients room)) ->
  is_Some (JsMap.get (Some me) (clients room)) ->
  (forall k info, (k, info) ∈ clients room -> k = Some (Client.id info)) ->
  ClientMessage.type message = Some "text:add" ->
  ClientMessage.text message = Some text ->
  truthy (Element.id text) = true ->
  JsMap.get (Element.id text) (textsById room) = Some old ->
  upToDate state room ->
  let result :=
    handleMessage sha256_hex trim rooms sender (Some roomId) (Parsed message)
      now suffix createdAt in
  let state' := received me sender result.2 state in
  exists room',
    getRoom result.1.1 roomId = Some room' /\
    length (JsMap.values (textsById room'))
    = length (JsMap.values (textsById room)) /\
    length (CollabState.texts state')
    = S (length (JsMap.values (textsById room'))) /\
    ~ upToDate state' room'.
Proof.
  intros Hroom [info Hinfo] Hme Hclients Htype Htext Hid Hold Hup result state'.
  pose proof (participant_recipient me _ Hclients Hme) as Hrecipient.
  apply upToDate_fields in Hup as (_ & _ & Ht & _).
  subst state' result. unfold handleMessage.
  rewrite Htype, decide_False, Hroom, Hinfo by done. in_room_cases; try done.
  rewrite Htext. unfold addText. rewrite Hid. cbn [negb fst snd].
  eexists. split; [apply JsMapFacts.get_set_eq|].
  rewrite !received_broadcastRoom by done. rewrite received_nil.
  set (room' := setRedoStack [] _).
  set (state' := onMessage _ _).
  assert (length (JsMap.values (textsById room'))
          = length (JsMap.values (textsById room))) as Hroom'.
  { subst room'. cbn [textsById setRedoStack setCommittedIds setTextsById].
    unfold JsMap.values. rewrite !length_fmap.
    by apply length_set_present with old. }
  assert (length (CollabState.texts state')
          = S (length (JsMap.values (textsById room)))) as Hshown.
  { subst state'.
    cbn [onMessage CollabState.texts CollabState.withTexts
         CollabState.withRedoCount].
    rewrite length_app, Ht. apply Nat.add_1_r. }
  split; [done|]. split; [by rewrite Hshown, Hroom'|].
  intros Hup'. apply upToDate_fields in Hup' as (_ & _ & Ht' & _).
  rewrite Ht' in Hshown.
  change (StatePayload.texts (buildStatePayload room'))
    with (JsMap.values (textsById room')) in Hshown.
  rewrite Hroom' in Hshown. by apply n_Sn in Hshown.
Qed.
End Client.


(** * The canvas *)

Section CanvasFacts.
Variable sqrt : float -> float.

Lemma keptAfter_sublist (threshold : float) (lastPoint : Point.t)
    (inner : list Point.t) :
  keptAfter sqrt threshold lastPoint inner `sublist_of` inner.
Proof.
  revert lastPoint. induction inner as [|point inner IH]; intros lastPoint;
    [done|].
  cbn [keptAfter]. destruct (PrimFloat.leb _ _).
  - by apply sublist_skip.
  - by apply sublist_cons.
Qed.

Lemma keptAfter_apart (threshold : float) (lastPoint : Point.t)
    (inner : list Point.t) :
  apart sqrt threshold lastPoint (keptAfter sqrt threshold lastPoint inner).
Proof.
  revert lastPoint. induction inner as [|point inner IH]; intros lastPoint;
    [done|].
  cbn [keptAfter]. destruct (PrimFloat.leb _ _) eqn:Hfar; [|apply IH].
  split; [done|apply IH].
Qed.

Lemma keptAfter_fixed (threshold : float) (lastPoint : Point.t)
    (kept : list Point.t) :
  apart sqrt threshold lastPoint kept ->
  keptAfter sqrt threshold lastPoint kept = kept.
Proof.
  revert lastPoint. induction kept as [|point kept IH]; intros lastPoint;
    [done|].
  intros [Hfar Hrest]. cbn [keptAfter]. rewrite Hfar. by rewrite IH.
Qed.

Lemma optimizePath_inner (threshold : float) (first final : Point.t)
    (inner : list Point.t) :
  inner <> [] ->
  optimizePath sqrt (first :: inner ++ [final]) threshold
  = first :: keptAfter sqrt threshold first inner ++ [final].
Proof.
  destruct inner as [|second inner]; [done|]. intros _.
  assert (exists third rest, inner ++ [final] = third :: rest)
    as (third & rest & Hrest).
  { destruct inner; by eexists _, _. }
  cbn [app optimizePath]. rewrite Hrest. cbn zeta. rewrite <- Hrest.
  change (second :: inner ++ [final]) with ((second :: inner) ++ [final]).
  by rewrite removelast_last, last_last.
Qed.

Lemma three_points (points : list Point.t) :
  (2 < length points)%nat ->
  exists first inner final, inner <> [] /\ points = first :: inner ++ [final].
Proof.
  destruct points as [|first [|second rest]]; cbn; try lia. intros Hlong.
  assert (exists inner final, second :: rest = inner ++ [final])
    as (inner & final & Heq).
  { destruct (exists_last (l := second :: rest)) as [inner [final Heq]];
      [done|].
    by exists inner, final. }
  exists first, inner, final. rewrite Heq. split; [|done]. intros ->.
  injection Heq as -> ->. cbn in Hlong. lia.
Qed.

(** X21: [optimizePath] returns a path of at most two points as it is; from
    a longer one it keeps the first and the last point and, between them, a
    selection of the inner points in their order in which every point is at
    least the threshold away from the one kept before it.  The result is
    never longer than the path, and optimizing it again changes nothing. *)
Theorem optimizePath_keeps_ends (points : list Point.t) (threshold : float) :
  ((length points <= 2)%nat -> optimizePath sqrt points threshold = points) /\
  (forall first inner final,
     inner <> [] -> points = first :: inner ++ [final] ->
     exists kept,
       optimizePath sqrt points threshold = first :: kept ++ [final] /\
       kept `sublist_of` inner /\
       apart sqrt threshold first kept) /\
  optimizePath sqrt points threshold `sublist_of` points /\
  (length (optimizePath sqrt points threshold) <= length points)%nat /\
  optimizePath sqrt (optimizePath sqrt points threshold) threshold
  = optimizePath sqrt points threshold.
Proof.
  assert ((length points <= 2)%nat -> optimizePath sqrt points threshold = points)
    as Hshort.
  { destruct points as [|? [|? [|? ?]]]; cbn; try done. lia. }
  assert (optimizePath sqrt points threshold `sublist_of` points) as Hsub.
  { destruct (decide (length points <= 2)%nat) as [Hle|Hgt].
    - by rewrite Hshort.
    - destruct (three_points points) as (first & inner & final & Hinner & ->);
        [lia|].
      rewrite optimizePath_inner by done. apply sublist_skip.
      apply sublist_app; [apply keptAfter_sublist|done]. }
  split_and!.
  - done.
  - intros first inner final Hinner ->.
    exists (keptAfter sqrt threshold first inner).
    split_and!; [by apply optimizePath_inner|apply keptAfter_sublist|
                 apply keptAfter_apart].
  - done.
  - by apply sublist_length.
  - destruct (decide (length points <= 2)%nat) as [Hle|Hgt].
    + by rewrite !Hshort.
    + destruct (three_points points) as (first & inner & final & Hinner & ->);
        [lia|].
      rewrite optimizePath_inner by done.
      destruct (keptAfter sqrt threshold first inner) as [|point kept] eqn:Hkept;
        [done|].
      rewrite optimizePath_inner by done. rewrite keptAfter_fixed; [done|].
      rewrite <- Hkept. apply keptAfter_apart.
Qed.
End CanvasFacts.


(** ** The engine on the sample rooms, continued *)

Lemma undo_takes_last_witness :
  exists e room',
    undo Sample.committed1 = (Some e, room') /\
    committedIds room' = [] /\
    redoStack room' = [RedoItem.mk (Some "p1") e] /\
    JsMap.get (Some "p1") (pathsById room') = None.
Proof.
  destruct (proj2 (undo_takes_last Sample.committed1 [] (Some "p1") eq_refl)
              Paths eq_refl eq_refl)
    as (e & room' & _ & Hundo & Hids & Hredo & Hgone & _).
  by exists e, room'.
Defined.

Lemma redo_puts_back_witness :
  let undone := (undo Sample.committed1).2 in
  (exists room',
     redo undone
     = (Some (Element.withStatus (Some "committed") Sample.path1), room') /\
     redoStack room' = [] /\
     committedIds room' = [Some "p1"]) /\
  (exists text room',
     redo Sample.crossed = (Some text, room') /\
     Element.content text = Defined None /\
     JsMap.get (Some "a") (textsById room') = Some text /\
     pathsById room' = pathsById Sample.crossed).
Proof.
  intros undone. split.
  - destruct (redo_puts_back undone []
                (RedoItem.mk (Some "p1")
                   (Element.withStatus (Some "committed") Sample.path1))
                eq_refl)
      as (room' & Hredo & Hstack & Hids & _).
    by exists room'.
  - destruct (redo_puts_back Sample.crossed []
                (RedoItem.mk (Some "a")
                   (Element.withStatus (Some "committed") Sample.nullText))
                eq_refl)
      as (room' & Hredo & _ & _ & _ & _ & Hstored & _).
    destruct (Hstored Texts) as (Hget & _ & Hothers & _).
    { by apply (selects_text _ None). }
    eexists _, room'. split; [exact Hredo|]. split; [reflexivity|].
    split; [exact Hget|]. by apply (Hothers Paths).
Defined.

Lemma committed1_wellKeyed : wellKeyed Sample.committed1.
Proof.
  intros c. split.
  - apply NoDup_ListNoDup. destruct c; vm_compute; repeat constructor.
    by intros [].
  - intros k e Hin.
    destruct c; vm_compute in Hin; try by apply elem_of_nil in Hin.
    apply list_elem_of_singleton in Hin. by injection Hin as -> ->.
Defined.

Lemma save_then_load_witness :
  let saved :=
    saveSession Sample.committed1 (Some "v0") 1700000000000 "a1b2c3d4e"
      1700000000000 in
  exists loaded,
    loadSession (clear saved.2) (Some saved.1.1)
    = (Some (liveElements Sample.committed1), loaded) /\
    (forall c, collection c loaded = collection c Sample.committed1) /\
    committedIds loaded = [Some "p1"].
Proof.
  intros saved.
  destruct (save_then_load Sample.committed1 (clear saved.2) (Some "v0")
              1700000000000 "a1b2c3d4e" 1700000000000 committed1_wellKeyed
              eq_refl)
    as (loaded & Hload & Hsame & Hids & _).
  by exists loaded.
Defined.

Lemma buildStatePayload_complete_witness :
  StatePayload.paths (buildStatePayload Sample.dragged1)
  ≡ₚ JsMap.values (pathsById Sample.dragged1).
Proof.
  refine (proj1 (buildStatePayload_complete Sample.dragged1 _ _));
    apply NoDup_ListNoDup; vm_compute; repeat constructor; by intros [].
Defined.

(** ** The handlers on the sample registry *)


(** The only participant of "studio" leaves: the room is emptied, nothing is
    sent. *)
Lemma close_removes_participant_witness :
  let result := handleClose Scene.opened "user-0" (Some "studio") in
  exists room',
    getRoom result.1 "studio" = Some room' /\
    JsMap.get (Some "user-0") (clients room') = None /\
    noLiveState room' /\ result.2 = [].
Proof.
  intros result.
  destruct (close_removes_participant Scene.opened "user-0" "studio"
              Scene.studio eq_refl)
    as (_ & room' & Hget & Hgone & _ & _ & _ & Hlast & _).
  exists room'. split; [done|]. split; [done|]. apply Hlast.
  intros id Hid. apply JsMapFacts.get_None_keys. intros Hin.
  change (JsMap.keys (clients Scene.studio)) with [Some "user-0"] in Hin.
  by apply list_elem_of_singleton in Hin.
Defined.

(** "user-0" goes from "studio" to "gallery" and disconnects: "studio" still
    has it as a participant. *)
Lemma rejoin_keeps_old_membership_witness :
  let joined :=
    handleMessage Sample.digest Sample.trim Scene.opened "user-0"
      (Some "studio") (Parsed (Scene.joining "Ann" "gallery" None Password.Nothing))
      0%Z "" 0%Z in
  let closed := handleClose joined.1.1 "user-0" joined.1.2 in
  getRoom closed.1 "studio" = Some Scene.studio /\
  is_Some (JsMap.get (Some "user-0") (clients Scene.studio)).
Proof.
  intros joined closed. split; [|by eexists].
  apply (rejoin_keeps_old_membership Sample.digest Sample.trim Scene.opened
           "user-0" "studio" Scene.studio
           (Scene.joining "Ann" "gallery" None Password.Nothing) 0%Z "" 0%Z);
    [reflexivity|reflexivity|reflexivity|discriminate].
Defined.

(** The private room "vault" made with the password "pw"; a join to it with
    the number 5 for password throws. *)
Lemma private_room_life_cycle_witness :
  let created :=
    handleJoin Sample.digest Sample.trim JsMap.empty "user-0" None Scene.vault in
  exists room,
    getRoom created.1.1 "vault" = Some room /\
    roomType room = "private" /\
    passwordHash room = Some (Sample.digest "pw") /\
    handleJoin Sample.digest Sample.trim created.1.1 "user-1" None
      (JoinMessage.mk None (Some "vault") None Password.NotText)
    = (created.1.1, None, [Uncaught]).
Proof.
  intros created.
  destruct (private_room_life_cycle Sample.digest Sample.trim
              digest_length eq_refl JsMap.empty "user-0" None
              Scene.vault eq_refl eq_refl) as [_ Hcreated].
  destruct (proj2 (Hcreated "pw" eq_refl) eq_refl)
    as (room & Hget & Htype & Hhash & Hlater).
  exists room. split; [done|]. split; [done|]. split; [done|].
  apply (Hlater created.1.1 room "user-1" None
           (JoinMessage.mk None (Some "vault") None Password.NotText));
    done.
Defined.

(** The snapshot of the archive lists the rooms with the array indices
    first, in ascending order, and without "__proto__". *)
Example archive_snapshot :
  JsMap.keys (serializeRooms Scene.archive)
  = [Some "9"; Some "10"; Some "lobby"].
Proof. by vm_compute. Qed.


(** ** The client on the sample registry *)

Lemma studio_clients_keyed (k : JsStr) (info : Client.t) :
  (k, info) ∈ clients Scene.studio -> k = Some (Client.id info).
Proof.
  intros Hin. vm_compute in Hin. apply list_elem_of_singleton in Hin.
  by injection Hin as -> ->.
Defined.

Lemma desk_clients_keyed (k : JsStr) (info : Client.t) :
  (k, info) ∈ clients Scene.desk -> k = Some (Client.id info).
Proof.
  intros Hin. vm_compute in Hin. apply list_elem_of_singleton in Hin.
  by injection Hin as -> ->.
Defined.

(** "user-0" draws [path1] in "studio": its client, which had the state of
    the room, has it again after the broadcast. *)
Lemma client_follows_room_witness :
  let result :=
    handleMessage Sample.digest Sample.trim Scene.opened "user-0"
      (Some "studio")
      (Parsed (Scene.command "path:upsert" (Some Sample.path1) None))
      0%Z "" 0%Z in
  exists room',
    getRoom result.1.1 "studio" = Some room' /\
    upToDate (received "user-0" "user-0" result.2 Scene.shown) room'.
Proof.
  apply (client_follows_room Sample.digest Sample.trim Scene.opened "user-0"
           "user-0" "studio" Scene.studio
           (Scene.command "path:upsert" (Some Sample.path1) None)
           "path:upsert" Scene.shown 0%Z "" 0%Z).
  - reflexivity.
  - eexists. reflexivity.
  - reflexivity.
  - discriminate.
  - split_and!.
    + apply NoDup_nil_2.
    + apply NoDup_nil_2.
    + intros k e Hin. by apply elem_of_nil in Hin.
    + intros k e Hin. by apply elem_of_nil in Hin.
    + exact studio_clients_keyed.
  - apply upToDate_state.
  - split; intros [=].
Defined.

(** "user-0" adds [text1] a second time: its client shows two texts, the
    room holds one. *)
Lemma readded_text_shows_twice_witness :
  let result :=
    handleMessage Sample.digest Sample.trim Scene.written "user-0"
      (Some "studio")
      (Parsed (Scene.command "text:add" None (Some Sample.text1)))
      0%Z "" 0%Z in
  let state' := received "user-0" "user-0" result.2 Scene.shownDesk in
  exists room',
    getRoom result.1.1 "studio" = Some room' /\
    length (JsMap.values (textsById room')) = 1%nat /\
    length (CollabState.texts state') = 2%nat.
Proof.
  intros result state'.
  destruct (readded_text_shows_twice Sample.digest Sample.trim Scene.written
              "user-0" "user-0" "studio" Scene.desk
              (Scene.command "text:add" None (Some Sample.text1))
              Sample.text1 (Element.withStatus (Some "committed") Sample.text1)
              Scene.shownDesk 0%Z "" 0%Z)
    as (room' & Hroom' & Hkept & Hshown & _).
  - reflexivity.
  - eexists. reflexivity.
  - eexists. reflexivity.
  - exact desk_clients_keyed.
  - reflexivity.
  - reflexivity.
  - reflexivity.
  - reflexivity.
  - apply upToDate_state.
  - exists room'. fold result state' in Hroom', Hkept, Hshown.
    split; [done|]. split; [by rewrite Hkept|]. by rewrite Hshown, Hkept.
Defined.

(** The sample stroke with threshold 2: the points at distance 1 from the
    point kept before them go, the ends stay. *)
Example optimizePath_stroke :
  optimizePath PrimFloat.sqrt Scene.stroke 2
  = [ Point.mk 0 0; Point.mk 3 0; Point.mk 10 0 ].
Proof. vm_compute. reflexivity. Qed.
